(** * Raffle bot: ticket allocation and payment reconciliation

    A shallow embedding of the payment-to-ticket flow of the raffle bot
    ([database.py], [paystack_handler.py], [bot.py]) and the properties of
    its specification checked against it.

    Modelling conventions.
    - Python integers are [Z]; text is [string], read as ASCII text.
    - The three MongoDB collections are lists of records in insertion order;
      the unique indexes created by [Database.init_database] are enforced by
      the insert operations.  The store is assumed reachable: the only
      store errors modelled are the ones the indexes and the driver's
      argument checks raise.
    - A document read back with [find] is a dict; where the code iterates
      or unpacks one, it gets the keys.  Values that the handlers pass on
      without looking at their type are of the type [value].
    - What lies outside the process is an oracle of the environment [Env]:
      the HTTP session towards the gateway, the random generator, the
      clock, the chat transport and the image renderer.
    - [logger] calls append to a log; HTTP requests and chat calls are
      recorded in traces, so that "no request was issued" and "one
      notification was sent" are statements about the final state.
    - An [async] handler is a resumption: it runs up to its next [await],
      hands the awaited chat call to the event loop, and is resumed later
      with the outcome of that call and with the state as it is then. *)

From Stdlib Require Import ZArith List String Ascii Bool Lia Permutation FinFun DecimalString.
Import ListNotations.
Local Open Scope string_scope.
Local Open Scope list_scope.
Local Open Scope Z_scope.

(** ** Python values *)

(** The dynamically typed values that flow through the handlers. *)
Inductive value : Type :=
| VNone
| VInt (n : Z)
| VStr (s : string).

Definition value_eqb (a b : value) : bool :=
  match a, b with
  | VNone, VNone => true
  | VInt m, VInt n => Z.eqb m n
  | VStr s, VStr t => String.eqb s t
  | _, _ => false
  end.

(** [not v] *)
Definition py_not (v : value) : bool :=
  match v with
  | VNone => true
  | VInt n => Z.eqb n 0
  | VStr s => String.eqb s EmptyString
  end.

(** [str(v)] *)
Definition py_str (v : value) : string :=
  match v with
  | VNone => "None"
  | VInt n => NilZero.string_of_int (Z.to_int n)
  | VStr s => s
  end.

Inductive exn : Type :=
| TypeError | ValueError | KeyError | AttributeError
| DuplicateKeyError | BulkWriteError
| SSLError | Timeout | ConnectionError | JSONDecodeError | RequestException
| RenderError | TelegramError.

(** [isinstance(e, requests.exceptions.RequestException)]: the exception
    family of the [requests] library.  [JSONDecodeError] is what
    [response.json()] raises on a body that is not JSON; it belongs to the
    family since release 2.27 of the library. *)
Definition is_RequestException (e : exn) : bool :=
  match e with
  | SSLError | Timeout | ConnectionError | JSONDecodeError | RequestException => true
  | _ => false
  end.

Definition is_SSLError (e : exn) : bool :=
  match e with SSLError => true | _ => false end.

(** A call either returns or raises. *)
Inductive result (A : Type) : Type :=
| Ok (a : A)
| Err (e : exn).
Arguments Ok {A} a.
Arguments Err {A} e.

(** A dict, in key order. *)
Definition document : Type := list (string * value).

(** [doc.get(key)] *)
Fixpoint doc_get (key : string) (doc : document) : value :=
  match doc with
  | [] => VNone
  | (k, v) :: rest => if String.eqb k key then v else doc_get key rest
  end.

(** Iterating a dict yields its keys. *)
Definition iter_dict (doc : document) : list value :=
  map (fun kv => VStr (fst kv)) doc.

(** [a, b, c, d = iterable] *)
Definition unpack4 (items : list value) : result (value * value * value * value) :=
  match items with
  | [a; b; c; d] => Ok (a, b, c, d)
  | _ => Err ValueError
  end.

(** [range(lo, hi)] *)
Definition py_range (lo hi : Z) : list Z :=
  map (fun i => lo + Z.of_nat i) (seq 0 (Z.to_nat (hi - lo))).

(** ** Strings: [str.strip] and [str.lower] on ASCII text *)

(** [c.isspace()]: tab, line feed, vertical tab, form feed, carriage
    return, the four separators 0x1c-0x1f and the space. *)
Definition is_space (c : ascii) : bool :=
  let n := nat_of_ascii c in
  (((9 <=? n) && (n <=? 13)) || ((28 <=? n) && (n <=? 32)))%nat.

Fixpoint lstrip (s : string) : string :=
  match s with
  | EmptyString => EmptyString
  | String c s' => if is_space c then lstrip s' else s
  end.

Fixpoint rstrip (s : string) : string :=
  match s with
  | EmptyString => EmptyString
  | String c s' =>
      match rstrip s' with
      | EmptyString => if is_space c then EmptyString else String c EmptyString
      | t => String c t
      end
  end.

Definition strip (s : string) : string := rstrip (lstrip s).

Definition lower_ascii (c : ascii) : ascii :=
  let n := nat_of_ascii c in
  if ((65 <=? n) && (n <=? 90))%nat then ascii_of_nat (n + 32) else c.

Fixpoint lower (s : string) : string :=
  match s with
  | EmptyString => EmptyString
  | String c s' => String (lower_ascii c) (lower s')
  end.

(** ** The gateway's answers *)

#[local] Set Warnings "-register-all".
Inductive json : Type :=
| JNull
| JBool (b : bool)
| JNum (n : Z)
| JStr (s : string)
| JList (items : list json)
| JDict (fields : list (string * json)).

(** Truth value of a decoded JSON value. *)
Definition json_truthy (j : json) : bool :=
  match j with
  | JNull => false
  | JBool b => b
  | JNum n => negb (Z.eqb n 0)
  | JStr s => negb (String.eqb s EmptyString)
  | JList items => match items with [] => false | _ => true end
  | JDict fields => match fields with [] => false | _ => true end
  end.

Fixpoint fields_get (key : string) (fields : list (string * json)) : option json :=
  match fields with
  | [] => None
  | (k, v) :: rest => if String.eqb k key then Some v else fields_get key rest
  end.

(** [j.get(key, default)]: only a dict has [get]. *)
Definition json_get (j : json) (key : string) (default : json) : result json :=
  match j with
  | JDict fields =>
      match fields_get key fields with
      | Some v => Ok v
      | None => Ok default
      end
  | _ => Err AttributeError
  end.

(** [j == s] for a string [s] *)
Definition json_eq_str (j : json) (s : string) : bool :=
  match j with
  | JStr t => String.eqb t s
  | _ => false
  end.

(** What [session.get] produces once the adapter's retries are over: a
    response with its status code and its body ([None] when the body is not
    JSON), or an exception. *)
Inductive http_result : Type :=
| Response (status_code : Z) (body : option json)
| Raises (e : exn).

(** ** Chat transport *)

Inductive message : Type :=
| MsgPaymentSuccessful (ticket_numbers : list Z)
  (* "Payment Successful!\nYour tickets: ..." *)
| MsgPaymentConfirmed (ticket_numbers : list Z) (amount : Z)
  (* "Payment Confirmed Successfully! ... Numbers: ... Amount Paid: ..." *)
| MsgErrorAssigning        (* "Error assigning tickets. Please contact admin." *)
| MsgReferenceNotFound     (* "Payment reference not found. Please try again." *)
| MsgNotYetConfirmed       (* "Payment not yet confirmed by Paystack. ..." *)
| MsgErrorConfirming.      (* "Error confirming payment. ..." *)

(** The callback query a button press delivers. *)
Record CallbackQuery : Type := {
  query_id : Z;
  from_user_id : Z
}.

Inductive chat_call : Type :=
| SendMessage (chat_id : value) (text : message)      (* context.bot.send_message *)
| SendPhoto (chat_id : value) (number : Z)            (* context.bot.send_photo *)
| EditMessageText (query : CallbackQuery) (text : message) (* query.edit_message_text *)
| ReplyPhoto (query : CallbackQuery) (number : Z).    (* query.message.reply_photo *)

(** ** Stores *)

Record User : Type := {
  u_user_id : Z;
  username : option string;
  first_name : string;
  last_name : option string;
  u_created_at : Z
}.

Record Ticket : Type := {
  t_user_id : value;
  ticket_number : Z;
  payment_reference : value;
  t_created_at : Z
}.

Record PendingPayment : Type := {
  p_user_id : Z;
  p_reference : string;
  p_ticket_count : Z;
  p_amount : Z;
  p_created_at : Z
}.

Record Database : Type := {
  users : list User;
  tickets : list Ticket;
  pending_payments : list PendingPayment
}.

Inductive log_event : Type :=
| LogUserAdded (user_id : Z)
| LogPendingAdded (reference : string)
| LogPendingExists (reference : string)
| LogPendingError (e : exn)
| LogPendingRemoved (reference : value)
| LogPendingNotFound (reference : value)
| LogNotEnoughTickets (requested : Z) (available : nat)
| LogAssigned (ticket_count : Z) (user_id : value) (selected_numbers : list Z)
| LogErrorAssigning (e : exn)
| LogInvalidReference
| LogVerifyStatus (status_code : Z) (reference : value)
| LogPaymentVerified (reference : value)
| LogPaymentNotSuccessful (reference : value)
| LogVerifySSLError
| LogVerifyRequestError (e : exn)
| LogNotifyFailed (user_id : value) (e : exn)
| LogImageFailed (number : Z) (e : exn)
| LogConfirmationError (e : exn).

(** The state of a run: the database, the position in the generator's
    stream, and the traces. *)
Record World : Type := {
  db : Database;
  cursor : nat;
  log : list log_event;
  requests : list string;
  chat : list chat_call
}.

Definition set_db (d : Database) (w : World) : World :=
  {| db := d; cursor := cursor w; log := log w; requests := requests w; chat := chat w |}.

Definition set_cursor (c : nat) (w : World) : World :=
  {| db := db w; cursor := c; log := log w; requests := requests w; chat := chat w |}.

Definition add_log (ev : log_event) (w : World) : World :=
  {| db := db w; cursor := cursor w; log := log w ++ [ev]; requests := requests w; chat := chat w |}.

Definition add_request (url : string) (w : World) : World :=
  {| db := db w; cursor := cursor w; log := log w; requests := requests w ++ [url]; chat := chat w |}.

Definition add_chat (c : chat_call) (w : World) : World :=
  {| db := db w; cursor := cursor w; log := log w; requests := requests w; chat := chat w ++ [c] |}.

Definition set_users (us : list User) (d : Database) : Database :=
  {| users := us; tickets := tickets d; pending_payments := pending_payments d |}.

Definition set_tickets (ts : list Ticket) (d : Database) : Database :=
  {| users := users d; tickets := ts; pending_payments := pending_payments d |}.

Definition set_pending_payments (ps : list PendingPayment) (d : Database) : Database :=
  {| users := users d; tickets := tickets d; pending_payments := ps |}.

(** ** Environment *)

Record Env : Type := {
  session_get : string -> http_result;  (* the gateway, by URL *)
  rand : nat -> nat;                    (* the generator's stream *)
  utcnow : Z;                           (* datetime.utcnow() *)
  delivers : chat_call -> bool;         (* does the awaited chat call return *)
  renders : Z -> bool                   (* does the ticket image get built *)
}.

(** [RaffleBot.__init__]: the configuration read at start. *)
Record RaffleBot : Type := {
  TICKET_PRICE : Z;
  MAX_TICKETS : Z
}.

(** ** Coroutines *)

(** Where a handler stands after running from one suspension point to the
    next: it is over, or it awaits a chat call and will go on from the
    outcome of the call and the state it is resumed in. *)
Inductive res (A : Type) : Type :=
| Done (w : World) (r : result A)
| Suspend (w : World) (c : chat_call) (k : result unit -> World -> res A).
Arguments Done {A} w r.
Arguments Suspend {A} w c k.

Definition coroutine (A : Type) : Type := World -> res A.

Definition ret {A : Type} (a : A) : coroutine A := fun w => Done w (Ok a).

Definition raise {A : Type} (e : exn) : coroutine A := fun w => Done w (Err e).

Fixpoint bind_res {A B : Type} (r : res A) (f : A -> coroutine B) : res B :=
  match r with
  | Done w (Ok a) => f a w
  | Done w (Err e) => Done w (Err e)
  | Suspend w c k => Suspend w c (fun o w' => bind_res (k o w') f)
  end.

Definition bind {A B : Type} (m : coroutine A) (f : A -> coroutine B) : coroutine B :=
  fun w => bind_res (m w) f.

(** [try: m except Exception as e: h e] *)
Fixpoint catch_res {A : Type} (r : res A) (h : exn -> coroutine A) : res A :=
  match r with
  | Done w (Ok a) => Done w (Ok a)
  | Done w (Err e) => h e w
  | Suspend w c k => Suspend w c (fun o w' => catch_res (k o w') h)
  end.

Definition try_except {A : Type} (m : coroutine A) (h : exn -> coroutine A) : coroutine A :=
  fun w => catch_res (m w) h.

(** [await c]: the call is issued, the coroutine is suspended. *)
Definition await (c : chat_call) : coroutine unit :=
  fun w => Suspend (add_chat c w) c (fun o w' => Done w' o).

(** Synchronous calls: nothing else runs while they do. *)
Definition exec (f : World -> World) : coroutine unit :=
  fun w => Done (f w) (Ok tt).

Definition read {A : Type} (f : World -> A) : coroutine A :=
  fun w => Done w (Ok (f w)).

Definition call {A : Type} (f : World -> World * A) : coroutine A :=
  fun w => Done (fst (f w)) (Ok (snd (f w))).

Definition call_raising {A : Type} (f : World -> World * result A) : coroutine A :=
  fun w => Done (fst (f w)) (snd (f w)).

Definition lift_result {A : Type} (r : result A) : coroutine A :=
  fun w => Done w r.

Notation "x <- c1 ;; c2" := (bind c1 (fun x => c2))
  (at level 61, c1 at next level, right associativity).
Notation "' pat <- c1 ;; c2" := (bind c1 (fun x => match x with pat => c2 end))
  (at level 61, pat pattern, c1 at next level, right associativity).
Notation "c1 ;; c2" := (bind c1 (fun _ => c2))
  (at level 61, right associativity).

Section Model.

Variable E : Env.

(** ** [random.sample] *)

(** Library function, by its swap-with-last selection: draw a position below
    the size of the pool, take the element there, move the last element
    into its place and shrink the pool by one.  (For a large population the
    library selects by rejection instead; either way the result is made of
    the elements at [k] distinct positions, the first of them at the first
    position drawn.) *)
Fixpoint replace_nth (j : nat) (x : Z) (l : list Z) : list Z :=
  match l, j with
  | [], _ => []
  | _ :: t, O => x :: t
  | h :: t, S j' => h :: replace_nth j' x t
  end.

Fixpoint sample_pool (pool : list Z) (k : nat) (c : nat) : list Z :=
  match k with
  | O => []
  | S k' =>
      let j := (rand E c mod List.length pool)%nat in
      nth j pool 0
        :: sample_pool (removelast (replace_nth j (last pool 0) pool)) k' (S c)
  end.

(** ** [Database] *)

Fixpoint update_first (user_data : User) (us : list User) : list User :=
  match us with
  | [] => []
  | u :: rest =>
      if Z.eqb (u_user_id u) (u_user_id user_data) then user_data :: rest
      else u :: update_first user_data rest
  end.

(** [users.update_one({"user_id": user_id}, {"$set": user_data}, upsert=True)] *)
Definition add_user (user_id : Z) (username : option string) (first_name : string)
    (last_name : option string) (w : World) : World :=
  let user_data :=
    {| u_user_id := user_id; username := username; first_name := first_name;
       last_name := last_name; u_created_at := utcnow E |} in
  let us := users (db w) in
  let us' :=
    if existsb (fun u => Z.eqb (u_user_id u) user_id) us
    then update_first user_data us
    else us ++ [user_data] in
  add_log (LogUserAdded user_id) (set_db (set_users us' (db w)) w).

(** [tickets.count_documents({})] *)
Definition get_total_tickets_sold (w : World) : Z :=
  Z.of_nat (List.length (tickets (db w))).

(** [pending_payments.insert_one] under the unique index on [reference] *)
Definition insert_one_pending (p : PendingPayment) (ps : list PendingPayment)
    : result (list PendingPayment) :=
  if existsb (fun q => String.eqb (p_reference q) (p_reference p)) ps
  then Err DuplicateKeyError
  else Ok (ps ++ [p]).

(** The [try] of [add_pending_payment] has two handlers and both only
    write to the log: the method returns normally whatever the insert did. *)
Definition add_pending_payment (user_id : Z) (reference : string)
    (ticket_count amount : Z) (w : World) : World * result unit :=
  let payment_data :=
    {| p_user_id := user_id; p_reference := reference; p_ticket_count := ticket_count;
       p_amount := amount; p_created_at := utcnow E |} in
  match insert_one_pending payment_data (pending_payments (db w)) with
  | Ok ps =>
      (add_log (LogPendingAdded reference) (set_db (set_pending_payments ps (db w)) w),
       Ok tt)
  | Err DuplicateKeyError => (add_log (LogPendingExists reference) w, Ok tt)
  | Err e => (add_log (LogPendingError e) w, Ok tt)
  end.

(** What [find] returns for a pending payment under the projection
    [{"_id": 0, "user_id": 1, "reference": 1, "ticket_count": 1, "amount": 1}]:
    a dict with these four keys, in the order in which [add_pending_payment]
    wrote them. *)
Definition pending_document (p : PendingPayment) : document :=
  [ ("user_id", VInt (p_user_id p));
    ("reference", VStr (p_reference p));
    ("ticket_count", VInt (p_ticket_count p));
    ("amount", VInt (p_amount p)) ].

(** [list(self.pending_payments.find({}, projection))]: a list of dicts. *)
Definition get_pending_payments (w : World) : list document :=
  map pending_document (pending_payments (db w)).

(** [find_one({"reference": reference}, projection)], turned into the tuple
    [(user_id, reference, ticket_count, amount)]. *)
Definition get_pending_payment_by_reference (reference : value) (w : World)
    : option (value * value * value * value) :=
  match find (fun p => value_eqb (VStr (p_reference p)) reference)
             (pending_payments (db w)) with
  | None => None
  | Some p =>
      let doc := pending_document p in
      Some (doc_get "user_id" doc, doc_get "reference" doc,
            doc_get "ticket_count" doc, doc_get "amount" doc)
  end.

(** [delete_one]: the first match goes. *)
Fixpoint delete_one (reference : value) (ps : list PendingPayment) : list PendingPayment :=
  match ps with
  | [] => []
  | p :: rest =>
      if value_eqb (VStr (p_reference p)) reference then rest
      else p :: delete_one reference rest
  end.

Definition remove_pending_payment (reference : value) (w : World) : World :=
  let ps := pending_payments (db w) in
  if existsb (fun p => value_eqb (VStr (p_reference p)) reference) ps
  then add_log (LogPendingRemoved reference)
         (set_db (set_pending_payments (delete_one reference ps) (db w)) w)
  else add_log (LogPendingNotFound reference) w.

(** [tickets.insert_many(docs)], ordered, under the unique index on
    [ticket_number]: an empty list is refused, and the first duplicate stops
    the insertion with what came before it already written. *)
Fixpoint insert_ordered (docs : list Ticket) (coll : list Ticket) : list Ticket * option exn :=
  match docs with
  | [] => (coll, None)
  | d :: rest =>
      if existsb (fun t => Z.eqb (ticket_number t) (ticket_number d)) coll
      then (coll, Some BulkWriteError)
      else insert_ordered rest (coll ++ [d])
  end.

Definition insert_many (docs : list Ticket) (coll : list Ticket) : list Ticket * option exn :=
  match docs with
  | [] => (coll, Some TypeError)
  | _ => insert_ordered docs coll
  end.

(** One entry of [ticket_documents]. *)
Definition ticket_document (user_id payment_reference : value) (number : Z) : Ticket :=
  {| t_user_id := user_id; ticket_number := number;
     payment_reference := payment_reference; t_created_at := utcnow E |}.

(** [list(set(range(1, 1001)) - existing_numbers)], in increasing order
    (the order of a set of small integers in CPython; only the worked
    example of one draw depends on it). *)
Definition available_numbers (w : World) : list Z :=
  let existing_numbers := map ticket_number (tickets (db w)) in
  filter (fun n => negb (existsb (Z.eqb n) existing_numbers)) (py_range 1 1001).

Definition assign_tickets (user_id ticket_count payment_reference : value) (w : World)
    : World * option (list Z) :=
  let available := available_numbers w in
  match ticket_count with
  | VInt k =>
      if Z.of_nat (List.length available) <? k then
        (add_log (LogNotEnoughTickets k (List.length available)) w, None)
      else if k <? 0 then
        (* random.sample refuses a negative size *)
        (add_log (LogErrorAssigning ValueError) w, None)
      else
        let selected_numbers := sample_pool available (Z.to_nat k) (cursor w) in
        let w1 := set_cursor (cursor w + Z.to_nat k) w in
        let ticket_documents :=
          map (ticket_document user_id payment_reference) selected_numbers in
        match insert_many ticket_documents (tickets (db w1)) with
        | (coll, None) =>
            (add_log (LogAssigned k user_id selected_numbers)
               (set_db (set_tickets coll (db w1)) w1),
             Some selected_numbers)
        | (coll, Some e) =>
            (add_log (LogErrorAssigning e) (set_db (set_tickets coll (db w1)) w1), None)
        end
  | _ =>
      (* len(available_numbers) < ticket_count is not defined *)
      (add_log (LogErrorAssigning TypeError) w, None)
  end.

(** ** [PaystackHandler.verify_payment] *)

Definition base_url : string := "https://api.paystack.co".

Definition placeholder_references : list string :=
  ["reference"; "<reference>"; "ref"; EmptyString].

Definition is_placeholder (s : string) : bool :=
  existsb (String.eqb s) placeholder_references.

(** The body of the [try]: the request has been made and [r] is what came
    back. *)
Definition verify_response (reference : value) (r : http_result) (w : World)
    : World * result bool :=
  match r with
  | Raises e => (w, Err e)
  | Response status_code body =>
      if negb (status_code =? 200) then
        (add_log (LogVerifyStatus status_code reference) w, Ok false)
      else
        match body with
        | None => (w, Err JSONDecodeError)
        | Some result =>
            match json_get result "status" JNull with
            | Err e => (w, Err e)
            | Ok status =>
                if json_truthy status then
                  match json_get result "data" (JDict []) with
                  | Err e => (w, Err e)
                  | Ok data =>
                      match json_get data "status" JNull with
                      | Err e => (w, Err e)
                      | Ok s =>
                          if json_eq_str s "success"
                          then (add_log (LogPaymentVerified reference) w, Ok true)
                          else (add_log (LogPaymentNotSuccessful reference) w, Ok false)
                      end
                  end
                else (add_log (LogPaymentNotSuccessful reference) w, Ok false)
            end
        end
  end.

Definition verify_payment (reference : value) (w : World) : World * result bool :=
  if py_not reference || is_placeholder (lower (strip (py_str reference))) then
    (add_log LogInvalidReference w, Ok false)
  else
    let url := String.append base_url
                 (String.append "/transaction/verify/" (py_str reference)) in
    match verify_response reference (session_get E url) (add_request url w) with
    | (w1, Err e) =>
        if is_SSLError e then (add_log LogVerifySSLError w1, Ok false)
        else if is_RequestException e then (add_log (LogVerifyRequestError e) w1, Ok false)
        else (w1, Err e)
    | returned => returned
    end.

(** ** [RaffleBot] *)

Fixpoint _send_ticket_images (chat_id : value) (ticket_numbers : list Z) : coroutine unit :=
  match ticket_numbers with
  | [] => ret tt
  | number :: rest =>
      try_except
        (if renders E number then await (SendPhoto chat_id number) else raise RenderError)
        (fun e => exec (add_log (LogImageFailed number e))) ;;
      _send_ticket_images chat_id rest
  end.

Fixpoint _send_ticket_images_from_query (query : CallbackQuery) (ticket_numbers : list Z)
    : coroutine unit :=
  match ticket_numbers with
  | [] => ret tt
  | number :: rest =>
      try_except
        (if renders E number then await (ReplyPhoto query number) else raise RenderError)
        (fun e => exec (add_log (LogImageFailed number e))) ;;
      _send_ticket_images_from_query query rest
  end.

(** The loop of [check_payments].  Each [payment] is one of the dicts of
    [get_pending_payments], and the tuple assignment iterates it. *)
Fixpoint check_payments_loop (pending_payments : list document) : coroutine unit :=
  match pending_payments with
  | [] => ret tt
  | payment :: rest =>
      ' (user_id, reference, ticket_count, amount) <- lift_result (unpack4 (iter_dict payment)) ;;
      verified <- call_raising (verify_payment reference) ;;
      (if verified : bool then
         ticket_numbers <- call (assign_tickets user_id ticket_count reference) ;;
         match ticket_numbers with
         | Some (n :: ns) =>
             try_except
               (await (SendMessage user_id (MsgPaymentSuccessful (n :: ns))) ;;
                _send_ticket_images user_id (n :: ns))
               (fun e => exec (add_log (LogNotifyFailed user_id e)))
         | _ => ret tt
         end ;;
         exec (remove_pending_payment reference)
       else ret tt) ;;
      check_payments_loop rest
  end.

Definition check_payments (self : RaffleBot) : coroutine unit :=
  pending_payments <- read get_pending_payments ;;
  check_payments_loop pending_payments.

Definition confirm_payment (self : RaffleBot) (query : CallbackQuery) (user_id : Z)
    (reference : string) : coroutine unit :=
  try_except
    (verified <- call_raising (verify_payment (VStr reference)) ;;
     if verified : bool then
       pending_payment <- read (get_pending_payment_by_reference (VStr reference)) ;;
       match pending_payment with
       | Some (_, _, ticket_count, amount) =>
           ticket_numbers <- call (assign_tickets (VInt user_id) ticket_count (VStr reference)) ;;
           match ticket_numbers with
           | Some (n :: ns) =>
               text <- match amount with
                       | VInt a => ret (MsgPaymentConfirmed (n :: ns) a)
                       | _ => raise TypeError   (* amount/100 *)
                       end ;;
               exec (remove_pending_payment (VStr reference)) ;;
               await (EditMessageText query text) ;;
               _send_ticket_images_from_query query (n :: ns)
           | _ => await (EditMessageText query MsgErrorAssigning)
           end
       | None => await (EditMessageText query MsgReferenceNotFound)
       end
     else await (EditMessageText query MsgNotYetConfirmed))
    (fun e =>
       exec (add_log (LogConfirmationError e)) ;;
       await (EditMessageText query MsgErrorConfirming)).

(** ** Running handlers *)

(** How an awaited chat call ends. *)
Definition outcome (c : chat_call) : result unit :=
  if delivers E c then Ok tt else Err TelegramError.

(** A handler run alone, from start to end. *)
Fixpoint run_res {A : Type} (r : res A) : World * result A :=
  match r with
  | Done w r => (w, r)
  | Suspend w c k => run_res (k (outcome c) w)
  end.

Definition run {A : Type} (m : coroutine A) (w : World) : World * result A :=
  run_res (m w).

(** Two handlers on one event loop: the loop resumes one of them at a time,
    and a resumed handler runs to its next suspension point. *)
Inductive task : Type :=
| Ready (f : World -> res unit)
| Finished (r : result unit).

Definition resume (t : task) (w : World) : World * task :=
  match t with
  | Finished r => (w, Finished r)
  | Ready f =>
      match f w with
      | Done w' r => (w', Finished r)
      | Suspend w' c k => (w', Ready (k (outcome c)))
      end
  end.

Fixpoint interleave (schedule : list bool) (w : World) (t1 t2 : task) : World * task * task :=
  match schedule with
  | [] => (w, t1, t2)
  | true :: rest => let (w', t1') := resume t1 w in interleave rest w' t1' t2
  | false :: rest => let (w', t2') := resume t2 w in interleave rest w' t1 t2'
  end.

Definition complete (t : task) (w : World) : World :=
  match t with
  | Finished _ => w
  | Ready f => fst (run_res (f w))
  end.

(** The state once both handlers are over, for the interleaving that
    follows [schedule] and then lets the first and the second finish. *)
Definition run_both (schedule : list bool) (c1 c2 : coroutine unit) (w : World) : World :=
  let '(w', t1, t2) := interleave schedule w (Ready c1) (Ready c2) in
  complete t2 (complete t1 w').

End Model.

(** * Vocabulary of the properties *)

Arguments py_range : simpl never.

(** What a successful call of [assign_tickets] for [k] tickets has done:
    [numbers] are [k] distinct numbers that were available, and one ticket
    per number has been appended for [u] and [r]. *)
Definition allocated (E : Env) (u r : value) (k : Z) (numbers : list Z) (w w' : World) : Prop :=
  Z.of_nat (List.length numbers) = k /\ 1 <= k /\
  NoDup numbers /\ incl numbers (available_numbers w) /\
  db w' = set_tickets (tickets (db w) ++ map (ticket_document E u r) numbers) (db w) /\
  log w' = log w ++ [LogAssigned k u numbers] /\
  requests w' = requests w /\ chat w' = chat w.

(** The unique index on [reference] holds. *)
Definition unique_references (w : World) : Prop :=
  NoDup (map p_reference (pending_payments (db w))).

(** [r] has a pending payment. *)
Definition is_pending (r : string) (w : World) : Prop :=
  In r (map p_reference (pending_payments (db w))).

(** Allocations and removals are counted in the log: [assign_tickets]
    writes [LogAssigned] once per allocation, [remove_pending_payment]
    writes [LogPendingRemoved] once per record it deletes. *)
Definition is_assigned (ev : log_event) : bool :=
  match ev with LogAssigned _ _ _ => true | _ => false end.

Definition is_removed (r : string) (ev : log_event) : bool :=
  match ev with LogPendingRemoved v => value_eqb v (VStr r) | _ => false end.

Definition count_assigned (l : list log_event) : nat :=
  List.length (filter is_assigned l).

Definition count_removed (r : string) (l : list log_event) : nat :=
  List.length (filter (is_removed r) l).

(** Log entries that count neither as an allocation nor as a removal. *)
Definition plain_event (ev : log_event) : bool :=
  match ev with
  | LogAssigned _ _ _ | LogPendingRemoved _ => false
  | _ => true
  end.

(** The stores and the two counts are the same in two states. *)
Definition same_stores (w w' : World) : Prop :=
  db w' = db w /\
  filter is_assigned (log w') = filter is_assigned (log w) /\
  forall r, filter (is_removed r) (log w') = filter (is_removed r) (log w).

(** What the properties observe of a state: the stores and the two counts. *)
Definition obs (r : string) (w : World) : Database * nat * nat :=
  (db w, count_assigned (log w), count_removed r (log w)).

(** [quiet_from r w0 x]: the coroutine state [x] was reached from [w0]
    without a change to what is observed, and whenever it is resumed, in
    whatever state, it goes on without changing it. *)
Inductive quiet_from (r : string) {A : Type} (w0 : World) : res A -> Prop :=
| quiet_done w out :
    obs r w = obs r w0 -> quiet_from r w0 (Done w out)
| quiet_suspend w c k :
    obs r w = obs r w0 ->
    (forall o w', quiet_from r w' (k o w')) ->
    quiet_from r w0 (Suspend w c k).

Definition quiet (r : string) {A : Type} (m : coroutine A) : Prop :=
  forall w, quiet_from r w (m w).

Definition quiet_task (r : string) (t : task) : Prop :=
  match t with
  | Finished _ => True
  | Ready f => forall w, quiet_from r w (f w)
  end.

(** [r], pending for [n] tickets in [w], has been settled once in [w']: [n]
    tickets bound to [r] were appended, with distinct numbers that no
    earlier ticket has, the record of [r] is gone, and the log counts one
    more allocation and one more removal of [r]. *)
Definition settled_once (r : string) (n : Z) (w w' : World) : Prop :=
  exists new,
    tickets (db w') = tickets (db w) ++ new /\
    Z.of_nat (List.length new) = n /\
    Forall (fun t => payment_reference t = VStr r) new /\
    NoDup (map ticket_number new) /\
    (forall t, In t new -> ~ In (ticket_number t) (map ticket_number (tickets (db w)))) /\
    pending_payments (db w') = delete_one (VStr r) (pending_payments (db w)) /\
    ~ is_pending r w' /\
    count_assigned (log w') = S (count_assigned (log w)) /\
    count_removed r (log w') = S (count_removed r (log w)).

(** A handler that has not started yet and will confirm [r]. *)
Definition confirming (E : Env) (self : RaffleBot) (r : string) (t : task) : Prop :=
  exists query user_id, t = Ready (confirm_payment E self query user_id r).

(** The two phases of an interleaving of two handlers of which the second
    confirms [r]: before any confirmation has run, the state is observed as
    at the start [w0]; after the first one has run, [r] is settled and
    every handler is either quiet or a confirmation still to start. *)
Definition before_settlement (E : Env) (self : RaffleBot) (r : string) (w0 w : World)
    (t1 t2 : task) : Prop :=
  obs r w = obs r w0 /\
  (confirming E self r t1 \/ quiet_task r t1) /\ confirming E self r t2.

Definition after_settlement (E : Env) (self : RaffleBot) (r : string) (n : Z) (w0 w : World)
    (t1 t2 : task) : Prop :=
  settled_once r n w0 w /\
  (confirming E self r t1 \/ quiet_task r t1) /\
  (confirming E self r t2 \/ quiet_task r t2).

(** What is left of [confirm_payment] once the message with the numbers
    has been handed to the transport: the ticket images, or the answer of
    the [except] branch when the message could not be delivered. *)
Definition confirmation_tail (E : Env) (query : CallbackQuery) (numbers : list Z)
    (o : result unit) (w : World) : res unit :=
  catch_res
    (bind_res (Done w o) (fun _ => _send_ticket_images_from_query E query numbers))
    (fun e =>
       bind (exec (add_log (LogConfirmationError e)))
         (fun _ => await (EditMessageText query MsgErrorConfirming))).

(** The state in which [confirm_payment] suspends after it has settled the
    pending payment [p] for [user_id] with [numbers]. *)
Definition resolved (E : Env) (query : CallbackQuery) (user_id : Z) (p : PendingPayment)
    (numbers : list Z) (w w1 : World) : Prop :=
  Z.of_nat (List.length numbers) = p_ticket_count p /\
  NoDup numbers /\ incl numbers (available_numbers w) /\
  tickets (db w1)
    = tickets (db w)
      ++ map (ticket_document E (VInt user_id) (VStr (p_reference p))) numbers /\
  pending_payments (db w1) = delete_one (VStr (p_reference p)) (pending_payments (db w)) /\
  users (db w1) = users (db w) /\
  count_assigned (log w1) = S (count_assigned (log w)) /\
  count_removed (p_reference p) (log w1) = S (count_removed (p_reference p) (log w)) /\
  chat w1 = chat w ++ [EditMessageText query (MsgPaymentConfirmed numbers (p_amount p))].

(** The gateway's definitive success: HTTP 200, a truthy [status] and a
    transaction [status] equal to ["success"]. *)
Definition reports_success (r : http_result) : Prop :=
  exists result status data,
    r = Response 200 (Some result) /\
    json_get result "status" JNull = Ok status /\ json_truthy status = true /\
    json_get result "data" (JDict []) = Ok data /\
    json_get data "status" JNull = Ok (JStr "success").

(** The URL [verify_payment] asks for. *)
Definition verify_url (reference : value) : string :=
  String.append base_url (String.append "/transaction/verify/" (py_str reference)).

(** Text made of whitespace only. *)
Fixpoint all_space (s : string) : bool :=
  match s with
  | EmptyString => true
  | String c s' => is_space c && all_space s'
  end.

(** Text without whitespace. *)
Fixpoint no_space (s : string) : bool :=
  match s with
  | EmptyString => true
  | String c s' => negb (is_space c) && no_space s'
  end.

(** The same letter up to case: equal characters, or a capital and its
    small letter. *)
Definition capital_of (u l : ascii) : Prop :=
  (65 <= nat_of_ascii u <= 90)%nat /\ nat_of_ascii l = (nat_of_ascii u + 32)%nat.

Definition same_letter (c d : ascii) : Prop :=
  c = d \/ capital_of c d \/ capital_of d c.

Inductive eq_ignoring_case : string -> string -> Prop :=
| eic_empty : eq_ignoring_case EmptyString EmptyString
| eic_char c d s t :
    same_letter c d -> eq_ignoring_case s t ->
    eq_ignoring_case (String c s) (String d t).

(** [s] is a placeholder once the whitespace around it is taken off,
    whatever the case of its letters. *)
Definition placeholder_like (s : string) : Prop :=
  exists pre core post p,
    s = String.append pre (String.append core post) /\
    all_space pre = true /\ all_space post = true /\
    In p ["reference"; "<reference>"; "ref"] /\
    eq_ignoring_case core p.

(** The numbers on the tickets sold. *)
Definition sold_numbers (w : World) : list Z :=
  map ticket_number (tickets (db w)).

(** What the two unique indexes and the range drawn from guarantee. *)
Definition store_invariant (w : World) : Prop :=
  NoDup (sold_numbers w) /\
  (forall n, In n (sold_numbers w) -> 1 <= n <= 1000) /\
  unique_references w.

(** ** Runs of the system *)

Definition empty_database : Database :=
  {| users := []; tickets := []; pending_payments := [] |}.

(** One operation on the stores, each with the environment it meets. *)
Inductive step (self : RaffleBot) : World -> World -> Prop :=
| step_add_user E user_id username first_name last_name w :
    step self w (add_user E user_id username first_name last_name w)
| step_add_pending_payment E user_id reference ticket_count amount w :
    step self w (fst (add_pending_payment E user_id reference ticket_count amount w))
| step_remove_pending_payment reference w :
    step self w (remove_pending_payment reference w)
| step_assign_tickets E user_id ticket_count payment_reference w :
    step self w (fst (assign_tickets E user_id ticket_count payment_reference w))
| step_check_payments E w :
    step self w (fst (run E (check_payments E self) w))
| step_confirm_payment E query user_id reference w :
    step self w (fst (run E (confirm_payment E self query user_id reference) w)).

Inductive reachable (self : RaffleBot) : World -> Prop :=
| reachable_start w : db w = empty_database -> reachable self w
| reachable_step w w' : reachable self w -> step self w w' -> reachable self w'.


(** * Worked states *)

(** A body of the gateway for a paid transaction, for an unpaid one, and one
    whose [data] is [null]. *)
Definition success_body : json :=
  JDict [("status", JBool true); ("message", JStr "Verification successful");
         ("data", JDict [("status", JStr "success")])].

Definition abandoned_body : json :=
  JDict [("status", JBool true); ("message", JStr "Verification successful");
         ("data", JDict [("status", JStr "abandoned")])].

Definition null_data_body : json :=
  JDict [("status", JBool true); ("data", JNull)].

(** An environment in which the gateway answers every request with [body],
    the generator follows [stream], and every message and image goes
    through. *)
Definition env_answering (body : json) (stream : nat -> nat) : Env :=
  {| session_get := fun _ => Response 200 (Some body);
     rand := stream;
     utcnow := 0;
     delivers := fun _ => true;
     renders := fun _ => true |}.

Definition always (position : nat) : nat -> nat := fun _ => position.

Definition env_paid : Env := env_answering success_body (always 0).
Definition env_unpaid : Env := env_answering abandoned_body (always 0).
Definition env_null_data : Env := env_answering null_data_body (always 0).

Definition bot_default : RaffleBot := {| TICKET_PRICE := 1000; MAX_TICKETS := 1000 |}.
Definition bot_of_three : RaffleBot := {| TICKET_PRICE := 1000; MAX_TICKETS := 3 |}.

Definition world_start : World :=
  {| db := empty_database; cursor := 0; log := []; requests := []; chat := [] |}.

(** User 111 has started a purchase of two tickets, reference R1. *)
Definition payment_R1 : PendingPayment :=
  {| p_user_id := 111; p_reference := "R1"; p_ticket_count := 2; p_amount := 2000;
     p_created_at := 0 |}.

Definition world_R1 : World :=
  fst (add_pending_payment env_paid 111 "R1" 2 2000 world_start).

(** Users 111 and 222 have each started a purchase of two tickets. *)
Definition world_R1_R2 : World :=
  fst (add_pending_payment env_paid 222 "R2" 2 2000 world_R1).

Definition query_of (user_id : Z) : CallbackQuery :=
  {| query_id := 1; from_user_id := user_id |}.

(** Both purchases confirmed by their buyers, under a bot configured for
    three tickets. *)
Definition world_after_R1 (E : Env) : World :=
  fst (run E (confirm_payment E bot_of_three (query_of 111) 111 "R1") world_R1_R2).

Definition world_after_R1_R2 (E : Env) : World :=
  fst (run E (confirm_payment E bot_of_three (query_of 222) 222 "R2") (world_after_R1 E)).

Definition payment_R2 : PendingPayment :=
  {| p_user_id := 222; p_reference := "R2"; p_ticket_count := 2; p_amount := 2000;
     p_created_at := 0 |}.

(** All thousand numbers are sold and user 111 has paid for one more. *)
Definition payment_R9 : PendingPayment :=
  {| p_user_id := 111; p_reference := "R9"; p_ticket_count := 1; p_amount := 1000;
     p_created_at := 0 |}.

Definition world_sold_out : World :=
  {| db := {| users := [];
              tickets := map (ticket_document env_paid (VInt 7) (VStr "R0")) (py_range 1 1001);
              pending_payments := [payment_R9] |};
     cursor := 0; log := []; requests := []; chat := [] |}.

(** * Queries, menus, the draw and the gateway's other calls

    Further functions of [database.py], [paystack_handler.py] and [bot.py],
    and the draw of [draw_winner.py].  Further conventions.
    - [os.environ] is a function from names to values.
    - A text shown to the user is given by its template and the values put
      into it; amounts are carried in kobo, as the code computes them,
      before the division by 100 of the display.
    - The menu handlers await once, as their last action; each is modelled
      by what it has done when it suspends there: the state it leaves and
      the call it awaits.
    - The lines that the functions of this part write with [logger] are not
      recorded.

    Not modelled: [initiate_payment], which stores the reference that the
    gateway returns, of whatever JSON type, while the stores here are
    typed; [get_recent_tickets] and [admin_dashboard], where the order of
    tickets with equal timestamps is the server's; [show_raffle_info] and
    [start_from_callback], which only build a text; the rendering of the
    ticket images and the wiring of [main]. *)

(** ** Strings: [startswith], [split], [replace], [join], [isdigit], [int] *)

(** [s.startswith(prefix)] *)
Definition startswith (s prefix : string) : bool := String.prefix prefix s.

(** [s.split(sep)] for a separator of one character. *)
Fixpoint py_split (sep : ascii) (s : string) : list string :=
  match s with
  | EmptyString => [EmptyString]
  | String c s' =>
      if Ascii.eqb c sep then EmptyString :: py_split sep s'
      else match py_split sep s' with
           | piece :: rest => String c piece :: rest
           | [] => [String c EmptyString]
           end
  end.

(** [s.replace(old, new)] for a non-empty [old]: the text is scanned from
    the left, every occurrence of [old] met is replaced and the scan goes
    on behind it.  [skip] counts the characters of an occurrence that are
    still to be passed over. *)
Fixpoint replace_from (old new : string) (skip : nat) (s : string) : string :=
  match s with
  | EmptyString => EmptyString
  | String c s' =>
      match skip with
      | S n => replace_from old new n s'
      | O =>
          if String.prefix old s
          then String.append new (replace_from old new (String.length old - 1) s')
          else String c (replace_from old new 0 s')
      end
  end.

Definition py_replace (old new s : string) : string := replace_from old new 0 s.

(** [sep.join(pieces)] *)
Fixpoint join (sep : string) (pieces : list string) : string :=
  match pieces with
  | [] => EmptyString
  | [piece] => piece
  | piece :: rest => String.append piece (String.append sep (join sep rest))
  end.

Definition is_digit (c : ascii) : bool :=
  let n := nat_of_ascii c in ((48 <=? n) && (n <=? 57))%nat.

Fixpoint all_digits (s : string) : bool :=
  match s with
  | EmptyString => true
  | String c s' => is_digit c && all_digits s'
  end.

(** [s.isdigit()] *)
Definition isdigit (s : string) : bool :=
  match s with
  | EmptyString => false
  | _ => all_digits s
  end.

(** In the literal of an integer an underscore stands between two digits. *)
Fixpoint underscores_ok (after_digit : bool) (s : string) : bool :=
  match s with
  | EmptyString => after_digit
  | String c s' =>
      if Ascii.eqb c "_" then after_digit && underscores_ok false s'
      else underscores_ok true s'
  end.

Fixpoint without_underscores (s : string) : string :=
  match s with
  | EmptyString => EmptyString
  | String c s' =>
      if Ascii.eqb c "_" then without_underscores s' else String c (without_underscores s')
  end.

(** [int(s)]: whitespace around is dropped, a sign may come first, and what
    follows is made of decimal digits, between which single underscores may
    stand. *)
Definition py_int (s : string) : result Z :=
  let t := strip s in
  let '(negative, literal) :=
    match t with
    | EmptyString => (false, t)
    | String c r =>
        if Ascii.eqb c "-" then (true, r)
        else if Ascii.eqb c "+" then (false, r)
        else (false, t)
    end in
  if underscores_ok false literal then
    match NilZero.uint_of_string (without_underscores literal) with
    | Some d => Ok (if negative : bool then - Z.of_uint d else Z.of_uint d)
    | None => Err ValueError
    end
  else Err ValueError.

(** [doc[key]] *)
Fixpoint doc_getitem (key : value) (doc : document) : result value :=
  match doc with
  | [] => Err KeyError
  | (k, v) :: rest => if value_eqb (VStr k) key then Ok v else doc_getitem key rest
  end.


(** ** What the menus show *)

Inductive button_label : Type :=
| Label (text : string)
| LabelCount (count : Z) (total_price : Z).
  (* f"{count} ticket{'s' if count > 1 else ''} - N{total_price:.0f}", the
     price in kobo *)

Record InlineKeyboardButton : Type := {
  label : button_label;
  callback_data : string
}.

Definition InlineKeyboardMarkup : Type := list (list InlineKeyboardButton).

(** [Database.get_stats]'s dict. *)
Record Stats : Type := {
  total_tickets : Z;
  total_users : Z;
  total_revenue : Z;
  stats_pending_payments : Z
}.

Inductive menu_text : Type :=
| TextWelcome (first_name : string) (TICKET_PRICE MAX_TICKETS sold_tickets : Z)
  (* "Raffle Draw 2025 ... Hi {first_name}! ... Sold Tickets: ..." *)
| TextSoldOut              (* "Sorry, all tickets have been sold!" *)
| TextBuyTickets (available_tickets TICKET_PRICE : Z)
  (* "Buy Raffle Tickets ... Available Tickets: ... Price per ticket: ..." *)
| TextNoTickets            (* "You haven't purchased any tickets yet!" *)
| TextYourTickets (total : nat) (ticket_numbers : string)
  (* "Your Raffle Tickets ... Total Tickets: ... Ticket Numbers: ..." *)
| TextAccessDenied         (* "Access denied." *)
| TextStatistics (stats : Stats) (available_tickets : Z).
  (* "Raffle Statistics ... Available Tickets: ..." *)

Inductive menu_call : Type :=
| EditMenu (query : CallbackQuery) (text : menu_text)
    (reply_markup : option InlineKeyboardMarkup)       (* query.edit_message_text *)
| ReplyText (text : menu_text)
    (reply_markup : option InlineKeyboardMarkup).      (* update.message.reply_text *)

(** [update.effective_user] *)
Record TelegramUser : Type := {
  tg_id : Z;
  tg_username : option string;
  tg_first_name : string;
  tg_last_name : option string
}.

(** The handler that [button_handler] goes on with. *)
Inductive handler_call : Type :=
| ShowBuyTickets
| ShowMyTickets (user_id : Z)
| ShowRaffleInfo
| InitiatePayment (user_id ticket_count : Z)
| ConfirmPayment (user_id : Z) (reference : string)
| StartFromCallback.

Inductive dispatch : Type :=
| Calls (h : handler_call)
| NoBranch             (* no branch of the [if] applies *)
| RaisesValueError     (* [int] *)
| RaisesIndexError.    (* [[1]] *)

(** What the draw prints. *)
Inductive draw_report : Type :=
| NoTicketsSold
  (* "No tickets have been sold yet!" *)
| WinnerSelected (total : nat) (winning_ticket winner handle user_id : value)
    (total_revenue total_users : Z).
  (* "Total tickets sold: {total}" ... "Winning Ticket: #{winning_ticket}",
     "Winner: {winner} (@{handle})", "User ID: {user_id}", and the draw
     statistics *)

(** How the start of [PaystackHandler] ends. *)
Inductive validation : Type :=
| Validated
| RaisesValueErrorForKey     (* ValueError: no key, or not a secret key *)
| RaisesBuiltinConnectionError
  (* the built-in ConnectionError, not the one of [requests] *)
| RaisesFromTest (e : exn).  (* what [_test_connection] does not catch *)

Section Queries.

Variable E : Env.

(** [os.environ] *)
Variable environ : string -> option string.

(** The gateway's answer to a POST, by URL and JSON body. *)
Variable session_post : string -> json -> http_result.

(** ** [Database]: the queries *)

(** [.sort(key, 1)]: ascending, by insertion; documents with equal keys
    keep their order. *)
Fixpoint insert_by {A : Type} (key : A -> Z) (x : A) (l : list A) : list A :=
  match l with
  | [] => [x]
  | h :: rest => if key x <=? key h then x :: l else h :: insert_by key x rest
  end.

Definition sort_by {A : Type} (key : A -> Z) (l : list A) : list A :=
  fold_right (insert_by key) [] l.

(** A ticket under the projection
    [{"_id": 0, "user_id": 1, "ticket_number": 1, "payment_reference": 1, "created_at": 1}],
    in the order in which [assign_tickets] wrote the fields. *)
Definition user_ticket_document (t : Ticket) : document :=
  [ ("user_id", t_user_id t);
    ("ticket_number", VInt (ticket_number t));
    ("payment_reference", payment_reference t);
    ("created_at", VInt (t_created_at t)) ].

(** [list(tickets.find({"user_id": user_id}, projection).sort("ticket_number", 1))] *)
Definition get_user_tickets (user_id : value) (w : World) : list document :=
  map user_ticket_document
    (sort_by ticket_number
       (filter (fun t => value_eqb (t_user_id t) user_id) (tickets (db w)))).

(** [tickets.distinct("user_id")] *)
Fixpoint distinct (vs : list value) : list value :=
  match vs with
  | [] => []
  | v :: rest => if existsb (value_eqb v) rest then distinct rest else v :: distinct rest
  end.

(** [int(os.getenv(key, default))] for an integer [default] *)
Definition getenv_int (key : string) (default : Z) : result Z :=
  match environ key with
  | Some s => py_int s
  | None => Ok default
  end.

(** The [try] of [get_stats]; its handler answers with zeros. *)
Definition get_stats (w : World) : Stats :=
  let sold := Z.of_nat (List.length (tickets (db w))) in
  let owners := Z.of_nat (List.length (distinct (map t_user_id (tickets (db w))))) in
  match getenv_int "TICKET_PRICE" 1000 with
  | Ok ticket_price =>
      {| total_tickets := sold;
         total_users := owners;
         total_revenue := sold * ticket_price;
         stats_pending_payments := Z.of_nat (List.length (pending_payments (db w))) |}
  | Err _ =>
      {| total_tickets := 0; total_users := 0; total_revenue := 0;
         stats_pending_payments := 0 |}
  end.

(** [$lookup]: the users whose [user_id] is the ticket's. *)
Definition user_info (t : Ticket) (w : World) : list User :=
  filter (fun u => value_eqb (t_user_id t) (VInt (u_user_id u))) (users (db w)).

Definition optional_text (s : option string) : value :=
  match s with
  | Some x => VStr x
  | None => VNone
  end.

(** [$project]: the fields kept from the ticket come in the order they have
    there, the two fields taken from the user follow. *)
Definition all_tickets_row (joined : Ticket * User) : document :=
  [ ("user_id", t_user_id (fst joined));
    ("ticket_number", VInt (ticket_number (fst joined)));
    ("username", optional_text (username (snd joined)));
    ("first_name", VStr (first_name (snd joined))) ].

(** The pipeline of [get_all_tickets]: [$lookup] and [$unwind] give one
    document per ticket and matching user, none for a ticket without one;
    [$project]; [$sort] by ticket number. *)
Definition get_all_tickets (w : World) : list document :=
  let unwound := flat_map (fun t => map (pair t) (user_info t w)) (tickets (db w)) in
  map all_tickets_row (sort_by (fun joined => ticket_number (fst joined)) unwound).

(** ** [draw_winner.conduct_draw] *)

(** [random.choice] takes the element at a position drawn below the
    length. *)
Definition conduct_draw (w : World) : World * result draw_report :=
  let tickets := get_all_tickets w in
  match tickets with
  | [] => (w, Ok NoTicketsSold)
  | _ =>
      let winner_ticket :=
        nth (rand E (cursor w) mod List.length tickets)%nat tickets [] in
      let w1 := set_cursor (S (cursor w)) w in
      match unpack4 (iter_dict winner_ticket) with
      | Err e => (w1, Err e)
      | Ok (ticket_number, user_id, username, first_name) =>
          let handle :=
            if py_not username then VStr (String.append "user" (py_str user_id))
            else username in
          let stats := get_stats w1 in
          (w1, Ok (WinnerSelected (List.length tickets) ticket_number first_name handle
                     user_id (total_revenue stats) (total_users stats)))
      end
  end.

(** ** [PaystackHandler]: the other calls *)

Definition _test_connection (w : World) : World * result bool :=
  let url := String.append base_url "/bank" in
  let w1 := add_request url w in
  match session_get E url with
  | Response status_code _ => (w1, Ok (status_code =? 200))
  | Raises e => if is_RequestException e then (w1, Ok false) else (w1, Err e)
  end.

(** [self.secret_key] is [os.getenv('PAYSTACK_SECRET_KEY')], as [__init__]
    has read it. *)
Definition _validate_and_test_connection (w : World) : World * validation :=
  match environ "PAYSTACK_SECRET_KEY" with
  | None => (w, RaisesValueErrorForKey)
  | Some secret_key =>
      if String.eqb secret_key EmptyString then (w, RaisesValueErrorForKey)
      else if negb (startswith secret_key "sk_") then (w, RaisesValueErrorForKey)
      else
        match _test_connection w with
        | (w1, Ok true) => (w1, Validated)
        | (w1, Ok false) => (w1, RaisesBuiltinConnectionError)
        | (w1, Err e) => (w1, RaisesFromTest e)
        end
  end.




(** The [try] of [get_transaction] once the answer [r] is there; [None] is
    returned as [JNull]. *)
Definition transaction_response (r : http_result) : result json :=
  match r with
  | Raises e => Err e
  | Response status_code body =>
      if negb (status_code =? 200) then Ok JNull
      else
        match body with
        | None => Err JSONDecodeError
        | Some result =>
            match json_get result "status" JNull with
            | Err e => Err e
            | Ok status =>
                if json_truthy status then json_get result "data" JNull else Ok JNull
            end
        end
  end.

Definition get_transaction (reference : value) (w : World) : World * result json :=
  let url := String.append base_url
               (String.append "/transaction/verify/" (py_str reference)) in
  let w1 := add_request url w in
  match transaction_response (session_get E url) with
  | Ok data => (w1, Ok data)
  | Err e =>
      if is_SSLError e then (w1, Ok JNull)
      else if is_RequestException e then (w1, Ok JNull)
      else (w1, Err e)
  end.

(** ** [RaffleBot]: the menus *)

Definition main_keyboard : InlineKeyboardMarkup :=
  [ [ {| label := Label "Buy Tickets"; callback_data := "buy_tickets" |} ];
    [ {| label := Label "My Tickets"; callback_data := "my_tickets" |} ];
    [ {| label := Label "Raffle Info"; callback_data := "raffle_info" |} ] ].

Definition back_keyboard : InlineKeyboardMarkup :=
  [ [ {| label := Label "Back to Menu"; callback_data := "back_to_menu" |} ] ].

Definition start (self : RaffleBot) (user : TelegramUser) (w : World) : World * menu_call :=
  let w1 := add_user E (tg_id user) (tg_username user) (tg_first_name user)
              (tg_last_name user) w in
  (w1, ReplyText (TextWelcome (tg_first_name user) (TICKET_PRICE self) (MAX_TICKETS self)
                    (get_total_tickets_sold w1))
         (Some main_keyboard)).

(** The routing of [button_handler], after [query.answer()]. *)
Definition button_handler (self : RaffleBot) (query : CallbackQuery) (data : string)
    : dispatch :=
  let user_id := from_user_id query in
  if String.eqb data "buy_tickets" then Calls ShowBuyTickets
  else if String.eqb data "my_tickets" then Calls (ShowMyTickets user_id)
  else if String.eqb data "raffle_info" then Calls ShowRaffleInfo
  else if startswith data "buy_" then
    match py_split "_" data with
    | _ :: piece :: _ =>
        match py_int piece with
        | Ok ticket_count => Calls (InitiatePayment user_id ticket_count)
        | Err _ => RaisesValueError
        end
    | _ => RaisesIndexError
    end
  else if startswith data "confirm_payment_" then
    Calls (ConfirmPayment user_id (py_replace "confirm_payment_" EmptyString data))
  else if String.eqb data "back_to_menu" then Calls StartFromCallback
  else NoBranch.

Definition show_buy_tickets (self : RaffleBot) (query : CallbackQuery) (w : World)
    : menu_call :=
  let sold_tickets := get_total_tickets_sold w in
  let available_tickets := MAX_TICKETS self - sold_tickets in
  if available_tickets <=? 0 then EditMenu query TextSoldOut None
  else
    let keyboard :=
      map (fun count =>
             [ {| label := LabelCount count (count * TICKET_PRICE self);
                  callback_data := String.append "buy_" (py_str (VInt count)) |} ])
        (filter (fun count => count <=? available_tickets) [1; 2; 5; 10]) in
    EditMenu query (TextBuyTickets available_tickets (TICKET_PRICE self))
      (Some (keyboard ++ back_keyboard)).

(** [[f(x) for x in xs]], up to the first [x] on which [f] raises. *)
Fixpoint comprehension {A B : Type} (f : A -> result B) (xs : list A) : result (list B) :=
  match xs with
  | [] => Ok []
  | x :: rest =>
      match f x with
      | Err e => Err e
      | Ok y =>
          match comprehension f rest with
          | Err e => Err e
          | Ok ys => Ok (y :: ys)
          end
      end
  end.

Definition show_my_tickets (self : RaffleBot) (query : CallbackQuery) (user_id : Z)
    (w : World) : result menu_call :=
  let tickets := get_user_tickets (VInt user_id) w in
  match tickets with
  | [] => Ok (EditMenu query TextNoTickets (Some back_keyboard))
  | _ =>
      match comprehension (fun ticket => doc_getitem (VInt 2) ticket) tickets with
      | Err e => Err e
      | Ok picked =>
          Ok (EditMenu query
                (TextYourTickets (List.length tickets) (join ", " (map py_str picked)))
                (Some back_keyboard))
      end
  end.

(** [[int(id.strip()) for id in admin_ids_str.split(',') if id.strip().isdigit()]] *)
Definition ADMIN_IDS : result (list Z) :=
  let admin_ids_str :=
    match environ "ADMIN_IDS" with
    | Some s => s
    | None => EmptyString
    end in
  comprehension (fun id => py_int (strip id))
    (filter (fun id => isdigit (strip id)) (py_split "," admin_ids_str)).


End Queries.

(** ** Vocabulary of the further properties *)

(** The record of a user. *)
Definition find_user (user_id : Z) (w : World) : option User :=
  find (fun u => Z.eqb (u_user_id u) user_id) (users (db w)).

(** The numbers on the tickets of [user_id], in the order of the store. *)
Definition owned_numbers (user_id : value) (w : World) : list Z :=
  map ticket_number (filter (fun t => value_eqb (t_user_id t) user_id) (tickets (db w))).

(** The owner of the ticket has a user record. *)
Definition registered_owner (w : World) (t : Ticket) : bool :=
  existsb (fun u => value_eqb (t_user_id t) (VInt (u_user_id u))) (users (db w)).

(** The ticket numbers in a list of rows. *)
Definition shown_numbers (rows : list document) : list value :=
  map (doc_get "ticket_number") rows.

(** [old] occurs in [s]. *)
Fixpoint occurs (old s : string) : bool :=
  String.prefix old s
  || match s with
     | EmptyString => false
     | String _ s' => occurs old s'
     end.

(** [sep] does not occur in [s]. *)
Fixpoint free_of (sep : ascii) (s : string) : bool :=
  match s with
  | EmptyString => true
  | String c s' => negb (Ascii.eqb c sep) && free_of sep s'
  end.

(** The buttons under a message. *)
Definition buttons_of (c : menu_call) : list InlineKeyboardButton :=
  match c with
  | EditMenu _ _ (Some keyboard) | ReplyText _ (Some keyboard) => List.concat keyboard
  | _ => []
  end.

(** The count on a button of the purchase menu. *)
Definition offered_count (b : InlineKeyboardButton) : option Z :=
  match label b with
  | LabelCount count _ => Some count
  | Label _ => None
  end.

(** ** Worked states of the further properties *)

(** [os.environ] with nothing set, and with the given variables set. *)
Definition environ_unset : string -> option string := fun _ => None.

Definition environ_of (bindings : list (string * string)) : string -> option string :=
  fun key => option_map snd (find (fun kv => String.eqb (fst kv) key) bindings).

(** User 111 has sent [/start], has started the purchase R1 of two tickets
    and has confirmed it once the gateway reported it paid. *)
Definition ada : TelegramUser :=
  {| tg_id := 111; tg_username := Some "ada"; tg_first_name := "Ada"; tg_last_name := None |}.

Definition world_registered : World :=
  fst (start env_paid bot_default ada world_start).

Definition world_registered_R1 : World :=
  fst (add_pending_payment env_paid 111 "R1" 2 2000 world_registered).

Definition world_bought : World :=
  fst (run env_paid (confirm_payment env_paid bot_default (query_of 111) 111 "R1")
         world_registered_R1).

(** The gateway cannot be reached: every request times out. *)
Definition env_down : Env :=
  {| session_get := fun _ => Raises Timeout;
     rand := always 0;
     utcnow := 0;
     delivers := fun _ => true;
     renders := fun _ => true |}.

(** The gateway reports every transaction paid, and the message with the
    ticket numbers is the one chat call that does not go through. *)
Definition env_paid_undelivered : Env :=
  {| session_get := fun _ => Response 200 (Some success_body);
     rand := always 0;
     utcnow := 0;
     delivers := fun c =>
                   match c with
                   | EditMessageText _ (MsgPaymentConfirmed _ _) => false
                   | _ => true
                   end;
     renders := fun _ => true |}.

(** * Allocation *)

Section Allocation.

Variable E : Env.

Lemma In_py_range (lo hi n : Z) : In n (py_range lo hi) <-> lo <= n < hi.
Proof.
  unfold py_range. rewrite in_map_iff. split.
  - intros [i [<- Hi]]. apply in_seq in Hi. lia.
  - intros H. exists (Z.to_nat (n - lo)). split; [lia|]. apply in_seq. lia.
Qed.

Lemma py_range_length (lo hi : Z) : List.length (py_range lo hi) = Z.to_nat (hi - lo).
Proof. unfold py_range. now rewrite length_map, length_seq. Qed.

Lemma NoDup_py_range (lo hi : Z) : NoDup (py_range lo hi).
Proof.
  unfold py_range. apply Injective_map_NoDup; [|apply seq_NoDup].
  intros a b H. lia.
Qed.

(** The available numbers are the numbers from 1 to 1000 that no ticket
    carries. *)
Lemma In_available_numbers (w : World) (n : Z) :
  In n (available_numbers w)
  <-> 1 <= n <= 1000 /\ ~ In n (map ticket_number (tickets (db w))).
Proof.
  unfold available_numbers. rewrite filter_In, In_py_range, negb_true_iff.
  split; intros [H1 H2]; (split; [lia|]).
  - intros Hin. assert (Hex : existsb (Z.eqb n) (map ticket_number (tickets (db w))) = true).
    { apply existsb_exists. exists n. split; [assumption|apply Z.eqb_refl]. }
    congruence.
  - destruct (existsb _ _) eqn:Hex; [|reflexivity].
    apply existsb_exists in Hex. destruct Hex as [m [Hm Heq]].
    apply Z.eqb_eq in Heq. subst m. contradiction.
Qed.

Lemma NoDup_available_numbers (w : World) : NoDup (available_numbers w).
Proof. unfold available_numbers. apply NoDup_filter, NoDup_py_range. Qed.

Lemma replace_nth_length (j : nat) (x : Z) (l : list Z) :
  List.length (replace_nth j x l) = List.length l.
Proof.
  revert j. induction l as [|h t IH]; intros [|j]; simpl; auto.
Qed.

(** One draw splits the pool into the element drawn and the pool that is
    left. *)
Lemma swap_shrink_perm (pool : list Z) (j : nat) :
  (j < List.length pool)%nat ->
  Permutation pool (nth j pool 0 :: removelast (replace_nth j (last pool 0) pool)).
Proof.
  revert j. induction pool as [|h t IH]; intros j Hj; [simpl in Hj; lia|].
  destruct t as [|h' t'].
  - destruct j as [|j]; [simpl; constructor; constructor | simpl in Hj; lia].
  - set (t := h' :: t') in *.
    assert (Ht : t <> []) by (subst t; discriminate).
    assert (Hlast : last (h :: t) 0 = last t 0) by reflexivity.
    rewrite Hlast. destruct j as [|j].
    + change (replace_nth 0 (last t 0) (h :: t)) with (last t 0 :: t).
      change (nth 0 (h :: t) 0) with h.
      change (removelast (last t 0 :: t)) with (last t 0 :: removelast t).
      constructor.
      rewrite (app_removelast_last 0 Ht) at 1.
      rewrite Permutation_app_comm. reflexivity.
    + change (nth (S j) (h :: t) 0) with (nth j t 0).
      change (replace_nth (S j) (last t 0) (h :: t)) with (h :: replace_nth j (last t 0) t).
      assert (Hne : replace_nth j (last t 0) t <> []).
      { intros Heq. apply (f_equal (@List.length Z)) in Heq.
        rewrite replace_nth_length in Heq. subst t. discriminate. }
      assert (Hrl : removelast (h :: replace_nth j (last t 0) t)
                    = h :: removelast (replace_nth j (last t 0) t)).
      { destruct (replace_nth j (last t 0) t); [congruence|reflexivity]. }
      rewrite Hrl.
      etransitivity; [|apply perm_swap].
      constructor. apply IH.
      change (List.length (h :: t)) with (S (List.length t)) in Hj. lia.
Qed.

Lemma sample_pool_length (k : nat) (pool : list Z) (c : nat) :
  List.length (sample_pool E pool k c) = k.
Proof.
  revert pool c. induction k as [|k IH]; intros pool c; simpl; [reflexivity|].
  now rewrite IH.
Qed.

(** A sample of [k] elements is a part of the pool, up to order. *)
Lemma sample_pool_perm (k : nat) (pool : list Z) (c : nat) :
  (k <= List.length pool)%nat ->
  exists rest, Permutation pool (sample_pool E pool k c ++ rest).
Proof.
  revert pool c. induction k as [|k IH]; intros pool c Hk.
  - exists pool. reflexivity.
  - cbn [sample_pool].
    set (j := (rand E c mod List.length pool)%nat).
    assert (Hj : (j < List.length pool)%nat).
    { subst j. apply Nat.mod_upper_bound. lia. }
    pose proof (swap_shrink_perm pool j Hj) as Hperm.
    set (pool' := removelast (replace_nth j (last pool 0) pool)) in *.
    assert (Hlen : List.length pool' = pred (List.length pool)).
    { apply Permutation_length in Hperm. simpl in Hperm. lia. }
    destruct (IH pool' (S c)) as [rest Hrest]; [lia|].
    exists rest. simpl. etransitivity; [exact Hperm|]. constructor. exact Hrest.
Qed.

Lemma sample_pool_NoDup (k : nat) (pool : list Z) (c : nat) :
  (k <= List.length pool)%nat -> NoDup pool -> NoDup (sample_pool E pool k c).
Proof.
  intros Hk Hnd. destruct (sample_pool_perm k pool c Hk) as [rest Hperm].
  apply (Permutation_NoDup Hperm) in Hnd. now apply NoDup_app_remove_r in Hnd.
Qed.

Lemma sample_pool_incl (k : nat) (pool : list Z) (c : nat) :
  (k <= List.length pool)%nat -> incl (sample_pool E pool k c) pool.
Proof.
  intros Hk n Hn. destruct (sample_pool_perm k pool c Hk) as [rest Hperm].
  apply (Permutation_in n (Permutation_sym Hperm)). apply in_or_app. now left.
Qed.

End Allocation.

(** * [assign_tickets] *)

Section AssignTickets.

Variable E : Env.

(** Documents with fresh, distinct numbers are all inserted. *)
Lemma insert_ordered_fresh (docs coll : list Ticket) :
  NoDup (map ticket_number docs) ->
  (forall d, In d docs -> ~ In (ticket_number d) (map ticket_number coll)) ->
  insert_ordered docs coll = (coll ++ docs, None).
Proof.
  revert coll. induction docs as [|d rest IH]; intros coll Hnd Hfresh.
  - simpl. now rewrite app_nil_r.
  - cbn [insert_ordered].
    assert (Hex : existsb (fun t => ticket_number t =? ticket_number d) coll = false).
    { destruct (existsb _ coll) eqn:Hex; [|reflexivity].
      apply existsb_exists in Hex. destruct Hex as [t [Ht Heq]].
      apply Z.eqb_eq in Heq. exfalso. apply (Hfresh d); [now left|].
      rewrite <- Heq. now apply in_map. }
    rewrite Hex. inversion Hnd as [|? ? Hnotin Hnd']; subst.
    rewrite IH; [now rewrite <- app_assoc| assumption |].
    intros d' Hd' Hin. rewrite map_app in Hin. apply in_app_or in Hin.
    destruct Hin as [Hin|[Heq|[]]].
    + apply (Hfresh d'); [now right|assumption].
    + apply Hnotin. rewrite Heq. now apply in_map.
Qed.

Lemma ticket_numbers_of_documents (u r : value) (numbers : list Z) :
  map ticket_number (map (ticket_document E u r) numbers) = numbers.
Proof.
  rewrite map_map. simpl. apply map_id.
Qed.

(** With a count between 1 and the supply the call succeeds. *)
Lemma assign_tickets_enough (u r : value) (k : Z) (w : World) :
  1 <= k <= Z.of_nat (List.length (available_numbers w)) ->
  exists numbers w',
    assign_tickets E u (VInt k) r w = (w', Some numbers) /\ allocated E u r k numbers w w'.
Proof.
  intros Hk. unfold assign_tickets.
  set (avail := available_numbers w).
  assert (Hlt : (Z.of_nat (List.length avail) <? k) = false) by (apply Z.ltb_ge; subst avail; lia).
  assert (Hneg : (k <? 0) = false) by (apply Z.ltb_ge; lia).
  rewrite Hlt, Hneg.
  set (numbers := sample_pool E avail (Z.to_nat k) (cursor w)).
  assert (Hle : (Z.to_nat k <= List.length avail)%nat) by (subst avail; lia).
  assert (Hlen : List.length numbers = Z.to_nat k) by apply sample_pool_length.
  assert (Hnd : NoDup numbers).
  { apply sample_pool_NoDup; [assumption|apply NoDup_available_numbers]. }
  assert (Hincl : incl numbers avail) by (apply sample_pool_incl; assumption).
  assert (Hins : insert_many (map (ticket_document E u r) numbers)
                   (tickets (db (set_cursor (cursor w + Z.to_nat k) w)))
                 = (tickets (db w) ++ map (ticket_document E u r) numbers, None)).
  { unfold insert_many. destruct numbers as [|n ns] eqn:Hnum.
    - simpl in Hlen. lia.
    - rewrite <- Hnum in *. 
      replace (map (ticket_document E u r) (n :: ns)) with (map (ticket_document E u r) numbers)
        by (now rewrite Hnum).
      destruct (map (ticket_document E u r) numbers) eqn:Hmap.
      + rewrite Hnum in Hmap. discriminate.
      + rewrite <- Hmap. apply insert_ordered_fresh.
        * now rewrite ticket_numbers_of_documents.
        * intros d Hd. apply in_map_iff in Hd. destruct Hd as [m [<- Hm]].
          simpl. apply Hincl in Hm. apply In_available_numbers in Hm. tauto. }
  rewrite Hins. eexists. eexists. split; [reflexivity|].
  unfold allocated. simpl. repeat split; try assumption; try lia.
Qed.

(** A success is an allocation. *)
Lemma assign_tickets_some (u tc r : value) (w w' : World) (numbers : list Z) :
  assign_tickets E u tc r w = (w', Some numbers) ->
  exists k, tc = VInt k /\ allocated E u r k numbers w w'.
Proof.
  intros H. destruct tc as [|k|s]; try (unfold assign_tickets in H; discriminate).
  exists k. split; [reflexivity|].
  destruct (Z.ltb (Z.of_nat (List.length (available_numbers w))) k) eqn:Hlt.
  { unfold assign_tickets in H. rewrite Hlt in H. discriminate. }
  destruct (Z.ltb k 0) eqn:Hneg.
  { unfold assign_tickets in H. rewrite Hlt, Hneg in H. discriminate. }
  destruct (Z.eq_dec k 0) as [->|Hk0].
  { unfold assign_tickets in H. rewrite Hlt in H. cbn in H. discriminate. }
  apply Z.ltb_ge in Hlt. apply Z.ltb_ge in Hneg.
  destruct (assign_tickets_enough u r k w) as [numbers' [w'' [Heq Hall]]]; [lia|].
  rewrite Heq in H. inversion H; subst. exact Hall.
Qed.

(** A failure leaves the stores as they were and is written to the log. *)
Lemma assign_tickets_none (u tc r : value) (w w' : World) :
  assign_tickets E u tc r w = (w', None) ->
  db w' = db w /\ requests w' = requests w /\ chat w' = chat w /\
  exists ev, log w' = log w ++ [ev] /\
             match ev with LogNotEnoughTickets _ _ | LogErrorAssigning _ => True | _ => False end.
Proof.
  intros H. destruct tc as [|k|s];
    try (unfold assign_tickets in H; inversion H; subst; simpl;
         repeat split; eexists; split; [reflexivity|exact I]).
  destruct (Z.ltb (Z.of_nat (List.length (available_numbers w))) k) eqn:Hlt.
  { unfold assign_tickets in H. rewrite Hlt in H. inversion H; subst; simpl.
    repeat split; eexists; split; [reflexivity|exact I]. }
  destruct (Z.ltb k 0) eqn:Hneg.
  { unfold assign_tickets in H. rewrite Hlt, Hneg in H. inversion H; subst; simpl.
    repeat split; eexists; split; [reflexivity|exact I]. }
  destruct (Z.eq_dec k 0) as [->|Hk0].
  { unfold assign_tickets in H. rewrite Hlt in H. cbn in H. inversion H; subst; simpl.
    destruct (db w); repeat split; eexists; split; [reflexivity|exact I]. }
  apply Z.ltb_ge in Hlt. apply Z.ltb_ge in Hneg.
  destruct (assign_tickets_enough u r k w) as [numbers' [w'' [Heq Hall]]]; [lia|].
  rewrite Heq in H. discriminate.
Qed.

Lemma assign_tickets_short (u r : value) (k : Z) (w : World) :
  Z.of_nat (List.length (available_numbers w)) < k ->
  snd (assign_tickets E u (VInt k) r w) = None.
Proof.
  intros H. unfold assign_tickets.
  apply Z.ltb_lt in H. now rewrite H.
Qed.

End AssignTickets.

(** * Payment verification *)

Section Verification.

Variable E : Env.

Lemma same_letter_space (c d : ascii) : same_letter c d -> is_space c = is_space d.
Proof.
  intros [->|[[Hu Hl]|[Hu Hl]]]; [reflexivity| |];
    unfold is_space; rewrite Hl;
    repeat match goal with
           | |- context [(?a <=? ?b)%nat] => destruct (Nat.leb_spec a b)
           end; simpl; try reflexivity; lia.
Qed.

Lemma same_letter_lower (c d : ascii) : same_letter c d -> lower_ascii c = lower_ascii d.
Proof.
  assert (Hcap : forall u l, capital_of u l -> lower_ascii u = l /\ lower_ascii l = l).
  { intros u l [Hu Hl]. unfold lower_ascii. rewrite Hl. split.
    - destruct (Nat.leb_spec 65 (nat_of_ascii u)); [|lia].
      destruct (Nat.leb_spec (nat_of_ascii u) 90); [|lia].
      simpl. rewrite <- Hl. apply ascii_nat_embedding.
    - destruct (Nat.leb_spec (nat_of_ascii u + 32) 90); [lia|].
      now rewrite andb_false_r. }
  intros [->|[H|H]]; [reflexivity| |]; destruct (Hcap _ _ H) as [H1 H2]; congruence.
Qed.

Lemma eq_ignoring_case_no_space (s p : string) :
  eq_ignoring_case s p -> no_space p = true -> no_space s = true.
Proof.
  induction 1 as [|c d s t Hcd Hst IH]; [reflexivity|]. simpl.
  rewrite (same_letter_space c d Hcd). intros H. apply andb_true_iff in H.
  destruct H as [H1 H2]. now rewrite H1, IH.
Qed.

Lemma eq_ignoring_case_lower (s p : string) :
  eq_ignoring_case s p -> lower s = lower p.
Proof.
  induction 1 as [|c d s t Hcd Hst IH]; [reflexivity|]. simpl.
  now rewrite (same_letter_lower c d Hcd), IH.
Qed.

Lemma rstrip_no_space (s : string) : no_space s = true -> rstrip s = s.
Proof.
  induction s as [|c s IH]; [reflexivity|]. simpl. intros H.
  apply andb_true_iff in H. destruct H as [Hc Hs]. rewrite (IH Hs).
  apply negb_true_iff in Hc. rewrite Hc. now destruct s.
Qed.

Lemma rstrip_all_space (s : string) : all_space s = true -> rstrip s = EmptyString.
Proof.
  induction s as [|c s IH]; [reflexivity|]. simpl. intros H.
  apply andb_true_iff in H. destruct H as [Hc Hs]. now rewrite (IH Hs), Hc.
Qed.

Lemma rstrip_app_space (s post : string) :
  all_space post = true -> rstrip (String.append s post) = rstrip s.
Proof.
  intros Hpost. induction s as [|c s IH]; simpl.
  - now apply rstrip_all_space.
  - now rewrite IH.
Qed.

Lemma lstrip_app_space (pre s : string) :
  all_space pre = true -> lstrip (String.append pre s) = lstrip s.
Proof.
  induction pre as [|c pre IH]; [reflexivity|]. simpl. intros H.
  apply andb_true_iff in H. destruct H as [Hc Hs]. now rewrite Hc, IH.
Qed.

Lemma strip_padded (pre core post : string) :
  all_space pre = true -> all_space post = true ->
  no_space core = true -> core <> EmptyString ->
  strip (String.append pre (String.append core post)) = core.
Proof.
  intros Hpre Hpost Hcore Hne. unfold strip.
  rewrite (lstrip_app_space pre _ Hpre).
  destruct core as [|c core]; [congruence|].
  assert (Hc : is_space c = false).
  { simpl in Hcore. apply andb_true_iff in Hcore. now apply negb_true_iff. }
  change (String.append (String c core) post) with (String c (String.append core post)).
  cbn [lstrip]. rewrite Hc.
  change (String c (String.append core post)) with (String.append (String c core) post).
  rewrite (rstrip_app_space _ _ Hpost). now apply rstrip_no_space.
Qed.

Lemma placeholder_like_guard (s : string) :
  placeholder_like s -> is_placeholder (lower (strip s)) = true.
Proof.
  intros [pre [core [post [p [-> [Hpre [Hpost [Hp Hci]]]]]]]].
  assert (Hfacts : no_space p = true /\ p <> EmptyString /\ is_placeholder (lower p) = true).
  { destruct Hp as [<-|[<-|[<-|[]]]]; repeat split; try reflexivity; discriminate. }
  destruct Hfacts as [Hns [Hne Hplace]].
  rewrite strip_padded; try assumption.
  - now rewrite (eq_ignoring_case_lower _ _ Hci).
  - now apply (eq_ignoring_case_no_space _ _ Hci).
  - intros ->. inversion Hci. congruence.
Qed.

(** Verification does not touch the stores, the generator or the chat. *)
Lemma verify_response_frame (reference : value) (r : http_result) (w : World) :
  same_stores w (fst (verify_response reference r w)).
Proof.
  unfold verify_response, same_stores.
  repeat match goal with
         | |- context [if ?b then _ else _] => destruct b
         | |- context [match ?x with _ => _ end] => destruct x
         end;
    simpl; repeat split; intros; try reflexivity;
    rewrite filter_app; simpl; now rewrite app_nil_r.
Qed.

Lemma verify_payment_frame (reference : value) (w : World) :
  same_stores w (fst (verify_payment E reference w)).
Proof.
  unfold verify_payment.
  destruct (py_not reference || is_placeholder (lower (strip (py_str reference)))).
  { unfold same_stores. simpl. repeat split; intros; try reflexivity;
      rewrite filter_app; simpl; now rewrite app_nil_r. }
  match goal with
  | |- context [verify_response ?a ?b ?c] =>
      pose proof (verify_response_frame a b c) as Hf;
      destruct (verify_response a b c) as [w1 [b'|e]]
  end; simpl in Hf; [exact Hf|].
  unfold same_stores in *. destruct Hf as [H1 [H4 H5]]. simpl in *.
  destruct (is_SSLError e); [|destruct (is_RequestException e)]; simpl;
    repeat split; intros; try assumption; try apply H5;
    rewrite filter_app; simpl; rewrite app_nil_r; auto.
Qed.

Lemma verify_response_chat (reference : value) (r : http_result) (w : World) :
  chat (fst (verify_response reference r w)) = chat w.
Proof.
  unfold verify_response.
  repeat match goal with
         | |- context [if ?b then _ else _] => destruct b
         | |- context [match ?x with _ => _ end] => destruct x
         end; reflexivity.
Qed.

Lemma verify_payment_chat (reference : value) (w : World) :
  chat (fst (verify_payment E reference w)) = chat w.
Proof.
  unfold verify_payment.
  destruct (py_not reference || is_placeholder (lower (strip (py_str reference))));
    [reflexivity|].
  match goal with
  | |- context [verify_response ?a ?b ?c] =>
      pose proof (verify_response_chat a b c) as Hf;
      destruct (verify_response a b c) as [w1 [b'|e]]
  end; simpl in Hf; [exact Hf|].
  destruct (is_SSLError e); [|destruct (is_RequestException e)]; exact Hf.
Qed.

(** The verdict depends on the reference and on the gateway only. *)
Lemma verify_response_verdict (reference : value) (r : http_result) (w w' : World) :
  snd (verify_response reference r w) = snd (verify_response reference r w').
Proof.
  unfold verify_response.
  repeat match goal with
         | |- context [if ?b then _ else _] => destruct b
         | |- context [match ?x with _ => _ end] => destruct x
         end; reflexivity.
Qed.

Lemma verify_payment_verdict (reference : value) (w w' : World) :
  snd (verify_payment E reference w) = snd (verify_payment E reference w').
Proof.
  unfold verify_payment.
  destruct (py_not reference || is_placeholder (lower (strip (py_str reference))));
    [reflexivity|].
  match goal with
  | |- context [verify_response ?a ?b (add_request ?u w)] =>
      pose proof (verify_response_verdict a b (add_request u w) (add_request u w')) as Hv;
      destruct (verify_response a b (add_request u w)) as [w1 [b1|e1]];
      destruct (verify_response a b (add_request u w')) as [w2 [b2|e2]]
  end; simpl in Hv; try discriminate; inversion Hv; subst; try reflexivity.
  destruct (is_SSLError e2); [|destruct (is_RequestException e2)]; reflexivity.
Qed.

(** A positive verdict comes from a definitive success only. *)
Lemma verify_payment_true (reference : value) (w : World) :
  snd (verify_payment E reference w) = Ok true ->
  reports_success (session_get E (verify_url reference)).
Proof.
  unfold verify_payment, verify_response, reports_success. fold (verify_url reference).
  destruct (py_not reference || is_placeholder (lower (strip (py_str reference)))); [discriminate|].
  destruct (session_get E (verify_url reference)) as [code body|e].
  2:{ simpl. destruct (is_SSLError e); [discriminate|].
      destruct (is_RequestException e); discriminate. }
  destruct (Z.eqb_spec code 200) as [->|Hne]; [|discriminate]. simpl.
  destruct body as [result|]; [|discriminate].
  destruct (json_get result "status" JNull) as [status|e] eqn:Hstatus.
  2:{ destruct (is_SSLError e); [discriminate|].
      destruct (is_RequestException e); discriminate. }
  destruct (json_truthy status) eqn:Htruthy; [|discriminate].
  destruct (json_get result "data" (JDict [])) as [data|e] eqn:Hdata.
  2:{ destruct (is_SSLError e); [discriminate|].
      destruct (is_RequestException e); discriminate. }
  destruct (json_get data "status" JNull) as [s|e] eqn:Hs.
  2:{ destruct (is_SSLError e); [discriminate|].
      destruct (is_RequestException e); discriminate. }
  destruct s as [| | |s| |]; try discriminate. simpl.
  destruct (String.eqb_spec s "success") as [->|]; [|discriminate].
  intros _. exists result, status, data. repeat split; assumption.
Qed.

(** The outcomes the handler is written for are all answered [False]: a
    status code other than 200, a body that is not JSON, and any exception
    of the [requests] family (time-out, TLS and connection failures). *)
Lemma verify_payment_conservative (reference : value) (w : World) :
  (exists code body, session_get E (verify_url reference) = Response code body
                     /\ (code <> 200 \/ body = None))
  \/ (exists e, session_get E (verify_url reference) = Raises e
                /\ is_RequestException e = true) ->
  snd (verify_payment E reference w) = Ok false.
Proof.
  unfold verify_payment, verify_response. fold (verify_url reference).
  destruct (py_not reference || is_placeholder (lower (strip (py_str reference)))); [reflexivity|].
  intros [[code [body [Heq Hcase]]]|[e [Heq He]]]; rewrite Heq.
  - destruct (Z.eqb_spec code 200) as [->|Hne]; [|reflexivity].
    destruct Hcase as [Hc | ->]; [congruence|reflexivity].
  - simpl. rewrite He. now destruct (is_SSLError e).
Qed.

End Verification.

(** * Handlers that leave the stores alone *)

Section Quiet.

Variable E : Env.
Variable r : string.

Lemma same_stores_refl (w : World) : same_stores w w.
Proof. unfold same_stores. repeat split; intros; reflexivity. Qed.

Lemma same_stores_trans (w1 w2 w3 : World) :
  same_stores w1 w2 -> same_stores w2 w3 -> same_stores w1 w3.
Proof.
  unfold same_stores. intros [A1 [A4 A5]] [B1 [B4 B5]].
  repeat split; try congruence; intros r'; now rewrite B5, A5.
Qed.

Lemma same_stores_obs (w w' : World) : same_stores w w' -> obs r w' = obs r w.
Proof.
  unfold same_stores, obs, count_assigned, count_removed.
  intros [H1 [H4 H5]]. now rewrite H1, H4, H5.
Qed.

Lemma same_stores_add_chat (c : chat_call) (w : World) : same_stores w (add_chat c w).
Proof. unfold same_stores. repeat split; intros; reflexivity. Qed.

Lemma same_stores_add_request (u : string) (w : World) : same_stores w (add_request u w).
Proof. unfold same_stores. repeat split; intros; reflexivity. Qed.

Lemma same_stores_add_log (ev : log_event) (w : World) :
  plain_event ev = true -> same_stores w (add_log ev w).
Proof.
  intros Hev. unfold same_stores. simpl. repeat split; intros;
    rewrite filter_app; destruct ev; try discriminate; simpl; now rewrite app_nil_r.
Qed.

Lemma quiet_from_obs {A : Type} (w w1 : World) (x : res A) :
  obs r w = obs r w1 -> quiet_from r w1 x -> quiet_from r w x.
Proof.
  intros Hobs Hq. destruct Hq as [w2 out H|w2 c k H Hk].
  - apply quiet_done. congruence.
  - apply quiet_suspend; [congruence|assumption].
Qed.

Lemma quiet_from_bind {A B : Type} (w : World) (x : res A) (f : A -> coroutine B) :
  quiet_from r w x -> (forall a, quiet r (f a)) -> quiet_from r w (bind_res x f).
Proof.
  intros Hq Hf. induction Hq as [w0 w1 out H|w0 w1 c k H Hk IH].
  - destruct out as [a|e]; simpl.
    + apply (quiet_from_obs w0 w1); [now symmetry|apply Hf].
    + now apply quiet_done.
  - simpl. apply quiet_suspend; [assumption|]. intros o w'. apply IH.
Qed.

Lemma quiet_from_catch {A : Type} (w : World) (x : res A) (h : exn -> coroutine A) :
  quiet_from r w x -> (forall e, quiet r (h e)) -> quiet_from r w (catch_res x h).
Proof.
  intros Hq Hh. induction Hq as [w0 w1 out H|w0 w1 c k H Hk IH].
  - destruct out as [a|e]; simpl.
    + now apply quiet_done.
    + apply (quiet_from_obs w0 w1); [now symmetry|apply Hh].
  - simpl. apply quiet_suspend; [assumption|]. intros o w'. apply IH.
Qed.

Lemma quiet_bind {A B : Type} (m : coroutine A) (f : A -> coroutine B) :
  quiet r m -> (forall a, quiet r (f a)) -> quiet r (bind m f).
Proof. intros Hm Hf w. unfold bind. now apply quiet_from_bind. Qed.

Lemma quiet_try_except {A : Type} (m : coroutine A) (h : exn -> coroutine A) :
  quiet r m -> (forall e, quiet r (h e)) -> quiet r (try_except m h).
Proof. intros Hm Hh w. unfold try_except. now apply quiet_from_catch. Qed.

Lemma quiet_ret {A : Type} (a : A) : quiet r (ret a).
Proof. intros w. now apply quiet_done. Qed.

Lemma quiet_raise {A : Type} (e : exn) : quiet r (@raise A e).
Proof. intros w. now apply quiet_done. Qed.

Lemma quiet_lift_result {A : Type} (x : result A) : quiet r (lift_result x).
Proof. intros w. now apply quiet_done. Qed.

Lemma quiet_read {A : Type} (f : World -> A) : quiet r (read f).
Proof. intros w. now apply quiet_done. Qed.

Lemma quiet_await (c : chat_call) : quiet r (await c).
Proof.
  intros w. unfold await. apply quiet_suspend.
  - apply same_stores_obs, same_stores_add_chat.
  - intros o w'. now apply quiet_done.
Qed.

Lemma quiet_exec_log (ev : log_event) : plain_event ev = true -> quiet r (exec (add_log ev)).
Proof.
  intros Hev w. apply quiet_done. now apply same_stores_obs, same_stores_add_log.
Qed.

Lemma quiet_verify_payment (reference : value) :
  quiet r (call_raising (verify_payment E reference)).
Proof.
  intros w. apply quiet_done. apply same_stores_obs, verify_payment_frame.
Qed.

Lemma quiet_send_ticket_images (chat_id : value) (numbers : list Z) :
  quiet r (_send_ticket_images E chat_id numbers).
Proof.
  induction numbers as [|n ns IH]; [apply quiet_ret|].
  cbn [_send_ticket_images]. apply quiet_bind; [|intros _; exact IH].
  apply quiet_try_except.
  - destruct (renders E n); [apply quiet_await|apply quiet_raise].
  - intros e. now apply quiet_exec_log.
Qed.

Lemma quiet_send_ticket_images_from_query (query : CallbackQuery) (numbers : list Z) :
  quiet r (_send_ticket_images_from_query E query numbers).
Proof.
  induction numbers as [|n ns IH]; [apply quiet_ret|].
  cbn [_send_ticket_images_from_query]. apply quiet_bind; [|intros _; exact IH].
  apply quiet_try_except.
  - destruct (renders E n); [apply quiet_await|apply quiet_raise].
  - intros e. now apply quiet_exec_log.
Qed.

(** A quiet handler run alone leaves what is observed as it was. *)
Lemma run_res_quiet {A : Type} (w : World) (x : res A) :
  quiet_from r w x -> obs r (fst (run_res E x)) = obs r w.
Proof.
  intros Hq. induction Hq as [w0 w1 out H|w0 w1 c k H Hk IH]; simpl.
  - assumption.
  - now rewrite IH.
Qed.

Lemma resume_quiet (t : task) (w : World) :
  quiet_task r t ->
  obs r (fst (resume E t w)) = obs r w /\ quiet_task r (snd (resume E t w)).
Proof.
  destruct t as [f|out]; simpl; [|now split].
  intros Hq. specialize (Hq w). destruct Hq as [w1 out H|w1 c k H Hk]; simpl.
  - now split.
  - split; [assumption|]. intros w'. apply Hk.
Qed.

Lemma complete_quiet (t : task) (w : World) :
  quiet_task r t -> obs r (complete E t w) = obs r w.
Proof.
  destruct t as [f|out]; simpl; [|reflexivity].
  intros Hq. apply run_res_quiet, Hq.
Qed.

(** ** The periodic sweep *)

(** Each [payment] of the sweep is a dict, so the tuple assignment binds
    the four names to its keys, and the reference that is verified is the
    key ["reference"]: a placeholder. *)
Lemma verify_payment_key (w : World) :
  verify_payment E (VStr "reference") w = (add_log LogInvalidReference w, Ok false).
Proof. reflexivity. Qed.

Lemma check_payments_loop_step (p : PendingPayment) (rest : list document) (w : World) :
  check_payments_loop E (pending_document p :: rest) w
  = check_payments_loop E rest (add_log LogInvalidReference w).
Proof. reflexivity. Qed.

(** The sweep runs in one piece, and only writes warnings to the log. *)
Lemma check_payments_loop_done (ps : list PendingPayment) (w : World) :
  exists w',
    check_payments_loop E (map pending_document ps) w = Done w' (Ok tt) /\
    same_stores w w' /\ requests w' = requests w /\
    log w' = log w ++ repeat LogInvalidReference (List.length ps).
Proof.
  revert w. induction ps as [|p ps IH]; intros w.
  - exists w. simpl. rewrite app_nil_r. repeat split; apply same_stores_refl.
  - change (map pending_document (p :: ps)) with (pending_document p :: map pending_document ps).
    rewrite check_payments_loop_step.
    destruct (IH (add_log LogInvalidReference w)) as [w' [Heq [Hsame [Hreq Hlog]]]].
    exists w'. split; [exact Heq|]. split; [|split].
    + eapply same_stores_trans; [|exact Hsame]. now apply same_stores_add_log.
    + exact Hreq.
    + rewrite Hlog. simpl. now rewrite <- app_assoc.
Qed.

Lemma check_payments_done (self : RaffleBot) (w : World) :
  exists w',
    check_payments E self w = Done w' (Ok tt) /\
    same_stores w w' /\ requests w' = requests w /\
    log w' = log w ++ repeat LogInvalidReference (List.length (pending_payments (db w))).
Proof.
  unfold check_payments, bind, read. cbn [bind_res]. unfold get_pending_payments.
  apply check_payments_loop_done.
Qed.

Lemma quiet_check_payments (self : RaffleBot) : quiet r (check_payments E self).
Proof.
  intros w. destruct (check_payments_done self w) as [w' [Heq [Hsame _]]].
  rewrite Heq. apply quiet_done. now apply same_stores_obs.
Qed.

End Quiet.

(** * The user-initiated confirmation *)

Section Confirmation.

Variable E : Env.

Lemma find_pending_first (r : string) (ps : list PendingPayment) (p : PendingPayment) :
  NoDup (map p_reference ps) -> In p ps -> p_reference p = r ->
  find (fun q => value_eqb (VStr (p_reference q)) (VStr r)) ps = Some p.
Proof.
  intros Hnd Hin Hr. induction ps as [|q ps IH]; [destruct Hin|].
  simpl. inversion Hnd as [|? ? Hnotin Hnd']; subst.
  destruct Hin as [->|Hin].
  - now rewrite String.eqb_refl.
  - destruct (String.eqb_spec (p_reference q) (p_reference p)) as [Heq|Hne].
    + exfalso. apply Hnotin. rewrite Heq. now apply in_map.
    + now apply IH.
Qed.

Lemma find_pending_none (r : string) (ps : list PendingPayment) :
  ~ In r (map p_reference ps) ->
  find (fun q => value_eqb (VStr (p_reference q)) (VStr r)) ps = None.
Proof.
  induction ps as [|q ps IH]; [reflexivity|]. simpl. intros Hnotin.
  destruct (String.eqb_spec (p_reference q) r) as [Heq|Hne].
  - exfalso. apply Hnotin. now left.
  - apply IH. intros Hin. apply Hnotin. now right.
Qed.

Lemma get_pending_payment_found (w : World) (p : PendingPayment) :
  unique_references w -> In p (pending_payments (db w)) ->
  get_pending_payment_by_reference (VStr (p_reference p)) w
  = Some (VInt (p_user_id p), VStr (p_reference p), VInt (p_ticket_count p), VInt (p_amount p)).
Proof.
  intros Hu Hin. unfold get_pending_payment_by_reference.
  now rewrite (find_pending_first (p_reference p) _ p Hu Hin eq_refl).
Qed.

Lemma get_pending_payment_absent (w : World) (r : string) :
  ~ is_pending r w -> get_pending_payment_by_reference (VStr r) w = None.
Proof.
  intros Hn. unfold get_pending_payment_by_reference.
  now rewrite (find_pending_none r _ Hn).
Qed.

Lemma get_pending_payment_db (reference : value) (w w' : World) :
  db w' = db w ->
  get_pending_payment_by_reference reference w' = get_pending_payment_by_reference reference w.
Proof. intros H. unfold get_pending_payment_by_reference. now rewrite H. Qed.

Lemma available_numbers_db (w w' : World) :
  db w' = db w -> available_numbers w' = available_numbers w.
Proof. intros H. unfold available_numbers. now rewrite H. Qed.

Lemma delete_one_absent (r : string) (ps : list PendingPayment) :
  NoDup (map p_reference ps) -> ~ In r (map p_reference (delete_one (VStr r) ps)).
Proof.
  induction ps as [|q ps IH]; intros Hnd; [intros []|].
  inversion Hnd as [|? ? Hnotin Hnd']; subst. simpl.
  destruct (String.eqb_spec (p_reference q) r) as [Heq|Hne].
  - now rewrite <- Heq.
  - simpl. intros [Hq|Hin]; [contradiction|]. now apply (IH Hnd').
Qed.

Lemma delete_one_subset (v : value) (ps : list PendingPayment) :
  incl (delete_one v ps) ps.
Proof.
  induction ps as [|q ps IH]; [intros x []|]. cbn [delete_one].
  destruct (value_eqb (VStr (p_reference q)) v).
  - intros x Hx. now right.
  - intros x [<-|Hx]; [now left|right; now apply IH].
Qed.

Lemma delete_one_NoDup (v : value) (ps : list PendingPayment) :
  NoDup (map p_reference ps) -> NoDup (map p_reference (delete_one v ps)).
Proof.
  induction ps as [|q ps IH]; intros Hnd; [constructor|].
  inversion Hnd as [|? ? Hnotin Hnd']; subst. cbn [delete_one].
  destruct (value_eqb (VStr (p_reference q)) v); [assumption|].
  simpl. constructor; [|now apply IH].
  intros Hin. apply Hnotin. apply in_map_iff in Hin. destruct Hin as [x [Hx Hin]].
  rewrite <- Hx. apply in_map. now apply (delete_one_subset v ps).
Qed.

Lemma remove_pending_payment_present (r : string) (w : World) :
  is_pending r w ->
  remove_pending_payment (VStr r) w
  = add_log (LogPendingRemoved (VStr r))
      (set_db (set_pending_payments (delete_one (VStr r) (pending_payments (db w))) (db w)) w).
Proof.
  intros Hin. unfold remove_pending_payment.
  assert (Hex : existsb (fun p => value_eqb (VStr (p_reference p)) (VStr r))
                  (pending_payments (db w)) = true).
  { apply existsb_exists. apply in_map_iff in Hin. destruct Hin as [p [Hp Hin]].
    exists p. split; [assumption|]. simpl. rewrite Hp. apply String.eqb_refl. }
  now rewrite Hex.
Qed.

(** The handler whose [except] branch answers the user. *)
Lemma quiet_confirmation_error (r' : string) (query : CallbackQuery) (e : exn) :
  quiet r' (bind (exec (add_log (LogConfirmationError e)))
              (fun _ => await (EditMessageText query MsgErrorConfirming))).
Proof.
  apply quiet_bind; [now apply quiet_exec_log|]. intros _. apply quiet_await.
Qed.

(** Without a positive verdict the confirmation changes nothing. *)
Lemma confirm_payment_unverified (r' : string) (self : RaffleBot) (query : CallbackQuery)
    (user_id : Z) (reference : string) (w : World) :
  snd (verify_payment E (VStr reference) w) <> Ok true ->
  quiet_from r' w (confirm_payment E self query user_id reference w).
Proof.
  intros Hv. unfold confirm_payment, try_except.
  apply quiet_from_catch; [|intros e; apply quiet_confirmation_error].
  unfold bind at 1. unfold call_raising.
  pose proof (verify_payment_frame E (VStr reference) w) as Hf.
  apply (same_stores_obs r') in Hf.
  set (w1 := fst (verify_payment E (VStr reference) w)) in *.
  destruct (snd (verify_payment E (VStr reference) w)) as [[|]|e]; [congruence| |].
  - cbn [bind_res]. apply (quiet_from_obs r' w w1); [now symmetry|]. apply quiet_await.
  - cbn [bind_res]. now apply quiet_done.
Qed.

(** Nor does it when the reference has no pending payment. *)
Lemma confirm_payment_absent (r' : string) (self : RaffleBot) (query : CallbackQuery)
    (user_id : Z) (reference : string) (w : World) :
  ~ is_pending reference w ->
  quiet_from r' w (confirm_payment E self query user_id reference w).
Proof.
  intros Hn.
  destruct (snd (verify_payment E (VStr reference) w)) as [[|]|e] eqn:Hv;
    try (apply confirm_payment_unverified; rewrite Hv; discriminate).
  unfold confirm_payment, try_except.
  apply quiet_from_catch; [|intros e; apply quiet_confirmation_error].
  unfold bind at 1. unfold call_raising. rewrite Hv. cbn [bind_res].
  pose proof (verify_payment_frame E (VStr reference) w) as Hf.
  set (w1 := fst (verify_payment E (VStr reference) w)) in *.
  unfold bind at 1. unfold read. cbn [bind_res].
  rewrite (get_pending_payment_db _ w w1) by apply Hf.
  rewrite (get_pending_payment_absent w reference Hn).
  apply (quiet_from_obs r' w w1); [symmetry; now apply same_stores_obs|]. apply quiet_await.
Qed.

Lemma assign_tickets_none_frame (u tc r : value) (w w' : World) :
  assign_tickets E u tc r w = (w', None) -> same_stores w w' /\ chat w' = chat w.
Proof.
  intros H.
  apply assign_tickets_none in H. destruct H as [Hdb [_ [Hchat [ev [Hlog Hev]]]]].
  split; [|assumption]. unfold same_stores. rewrite Hdb, Hlog.
  repeat split; intros;
    rewrite filter_app; destruct ev; try contradiction; simpl; now rewrite app_nil_r.
Qed.

Lemma assign_tickets_refused (u r : value) (k : Z) (w : World) :
  k < 1 \/ Z.of_nat (List.length (available_numbers w)) < k ->
  snd (assign_tickets E u (VInt k) r w) = None.
Proof.
  intros Hk. destruct (assign_tickets E u (VInt k) r w) as [w' [numbers|]] eqn:Heq;
    [|reflexivity].
  apply assign_tickets_some in Heq. destruct Heq as [k' [Hk' Hall]].
  inversion Hk'; subst k'. destruct Hall as [Hlen [Hpos [Hnd [Hincl _]]]].
  exfalso. destruct Hk as [Hk|Hk]; [lia|].
  assert (Hle : (List.length numbers <= List.length (available_numbers w))%nat).
  { apply NoDup_incl_length; [exact Hnd|exact Hincl]. }
  lia.
Qed.

(** A confirmed payment that cannot be served keeps its record. *)
Lemma confirm_payment_refused (r' : string) (self : RaffleBot) (query : CallbackQuery)
    (user_id : Z) (p : PendingPayment) (w : World) :
  unique_references w -> In p (pending_payments (db w)) ->
  p_ticket_count p < 1 \/ Z.of_nat (List.length (available_numbers w)) < p_ticket_count p ->
  quiet_from r' w (confirm_payment E self query user_id (p_reference p) w).
Proof.
  intros Hu Hin Hk.
  destruct (snd (verify_payment E (VStr (p_reference p)) w)) as [[|]|e] eqn:Hv;
    try (apply confirm_payment_unverified; rewrite Hv; discriminate).
  unfold confirm_payment, try_except.
  apply quiet_from_catch; [|intros e; apply quiet_confirmation_error].
  unfold bind at 1. unfold call_raising. rewrite Hv. cbn [bind_res].
  pose proof (verify_payment_frame E (VStr (p_reference p)) w) as Hf.
  set (w1 := fst (verify_payment E (VStr (p_reference p)) w)) in *.
  unfold bind at 1. unfold read. cbn [bind_res].
  rewrite (get_pending_payment_db _ w w1) by apply Hf.
  rewrite (get_pending_payment_found w p Hu Hin).
  unfold bind at 1. unfold call. cbn [bind_res].
  assert (Hnone : snd (assign_tickets E (VInt user_id) (VInt (p_ticket_count p))
                         (VStr (p_reference p)) w1) = None).
  { apply assign_tickets_refused. rewrite (available_numbers_db w w1) by apply Hf. exact Hk. }
  destruct (assign_tickets E (VInt user_id) (VInt (p_ticket_count p)) (VStr (p_reference p)) w1)
    as [w2 out] eqn:Hassign.
  simpl in Hnone. subst out. cbn [fst snd].
  apply assign_tickets_none_frame in Hassign. destruct Hassign as [Hsame _].
  apply (quiet_from_obs r' w w2); [|apply quiet_await].
  symmetry. apply same_stores_obs. eapply same_stores_trans; eassumption.
Qed.

(** A confirmed payment that can be served is settled before the handler
    first suspends. *)
Lemma confirm_payment_settles (self : RaffleBot) (query : CallbackQuery)
    (user_id : Z) (p : PendingPayment) (w : World) :
  unique_references w -> In p (pending_payments (db w)) ->
  snd (verify_payment E (VStr (p_reference p)) w) = Ok true ->
  1 <= p_ticket_count p <= Z.of_nat (List.length (available_numbers w)) ->
  exists numbers w1,
    confirm_payment E self query user_id (p_reference p) w
    = Suspend w1 (EditMessageText query (MsgPaymentConfirmed numbers (p_amount p)))
        (confirmation_tail E query numbers)
    /\ resolved E query user_id p numbers w w1.
Proof.
  intros Hu Hin Hv Hk.
  pose proof (verify_payment_frame E (VStr (p_reference p)) w) as Hf.
  pose proof (verify_payment_chat E (VStr (p_reference p)) w) as Hfc.
  unfold confirm_payment, try_except.
  unfold bind at 1. unfold call_raising. rewrite Hv. cbn [bind_res].
  set (w1 := fst (verify_payment E (VStr (p_reference p)) w)) in *.
  unfold bind at 1. unfold read. cbn [bind_res].
  rewrite (get_pending_payment_db _ w w1) by apply Hf.
  rewrite (get_pending_payment_found w p Hu Hin).
  unfold bind at 1. unfold call. cbn [bind_res].
  destruct (assign_tickets_enough E (VInt user_id) (VStr (p_reference p)) (p_ticket_count p) w1)
    as [numbers [w2 [Hassign Hall]]].
  { now rewrite (available_numbers_db w w1) by apply Hf. }
  rewrite Hassign. cbn [fst snd].
  destruct Hall as [Hlen [Hpos [Hnd [Hincl [Hdb [Hlog [Hreq Hchat]]]]]]].
  destruct numbers as [|n ns]; [simpl in Hlen; lia|].
  set (numbers := n :: ns) in *.
  exists numbers.
  exists (add_chat (EditMessageText query (MsgPaymentConfirmed numbers (p_amount p)))
            (remove_pending_payment (VStr (p_reference p)) w2)).
  split; [reflexivity|].
  destruct Hf as [Hdb1 [Hassigned1 Hremoved1]].
  assert (Hpend2 : pending_payments (db w2) = pending_payments (db w)).
  { rewrite Hdb. simpl. now rewrite Hdb1. }
  assert (Hp2 : is_pending (p_reference p) w2).
  { unfold is_pending. rewrite Hpend2. now apply in_map. }
  rewrite (remove_pending_payment_present (p_reference p) w2 Hp2).
  unfold resolved. cbn [db log chat add_chat add_log set_db set_pending_payments
                          tickets pending_payments users].
  rewrite Hdb, Hlog, Hchat, Hfc. cbn [tickets users pending_payments set_tickets].
  rewrite Hdb1. rewrite <- (available_numbers_db w w1 Hdb1).
  unfold count_assigned, count_removed.
  rewrite !filter_app, Hassigned1, Hremoved1. cbn [filter is_assigned is_removed value_eqb].
  rewrite String.eqb_refl. rewrite !length_app. simpl.
  repeat split; try assumption; try lia.
Qed.

End Confirmation.

(** * Running handlers to their end, alone or interleaved *)

Section Runs.

Variable E : Env.

Lemma run_res_bind {A B : Type} (x : res A) (f : A -> coroutine B) :
  run_res E (bind_res x f)
  = match run_res E x with
    | (w, Ok a) => run_res E (f a w)
    | (w, Err e) => (w, Err e)
    end.
Proof.
  induction x as [w [a|e]|w c k IH]; simpl; try reflexivity. apply IH.
Qed.

Lemma run_res_catch {A : Type} (x : res A) (h : exn -> coroutine A) :
  run_res E (catch_res x h)
  = match run_res E x with
    | (w, Ok a) => (w, Ok a)
    | (w, Err e) => run_res E (h e w)
    end.
Proof.
  induction x as [w [a|e]|w c k IH]; simpl; try reflexivity. apply IH.
Qed.

(** The images never fail the handler: a photo that cannot be built or
    sent is logged and skipped. *)
Lemma run_send_ticket_images_from_query (query : CallbackQuery) (numbers : list Z) (w : World) :
  exists w',
    run E (_send_ticket_images_from_query E query numbers) w = (w', Ok tt) /\
    db w' = db w /\
    chat w' = chat w ++ map (ReplyPhoto query) (filter (renders E) numbers).
Proof.
  revert w. induction numbers as [|n ns IH]; intros w.
  - exists w. simpl. now rewrite app_nil_r.
  - unfold run. cbn [_send_ticket_images_from_query]. unfold bind at 1.
    rewrite run_res_bind. unfold try_except. rewrite run_res_catch.
    cbn [filter]. destruct (renders E n).
    + unfold await at 1. cbn [run_res].
      destruct (outcome E (ReplyPhoto query n)) as [[]|e]; cbn [run_res exec].
      * destruct (IH (add_chat (ReplyPhoto query n) w)) as [w' [Hrun [Hdb Hchat]]].
        unfold run in Hrun. rewrite Hrun. exists w'. repeat split; [exact Hdb|].
        rewrite Hchat. simpl. now rewrite <- app_assoc.
      * destruct (IH (add_log (LogImageFailed n e) (add_chat (ReplyPhoto query n) w)))
          as [w' [Hrun [Hdb Hchat]]].
        unfold run in Hrun. rewrite Hrun. exists w'. repeat split; [exact Hdb|].
        rewrite Hchat. simpl. now rewrite <- app_assoc.
    + unfold raise at 1. cbn [run_res exec].
      destruct (IH (add_log (LogImageFailed n RenderError) w)) as [w' [Hrun [Hdb Hchat]]].
      unfold run in Hrun. rewrite Hrun. exists w'. repeat split; assumption.
Qed.

Lemma quiet_confirmation_tail (r' : string) (query : CallbackQuery) (numbers : list Z)
    (o : result unit) (w : World) :
  quiet_from r' w (confirmation_tail E query numbers o w).
Proof.
  unfold confirmation_tail. apply quiet_from_catch.
  - apply quiet_from_bind; [now apply quiet_done|].
    intros _. apply quiet_send_ticket_images_from_query.
  - intros e. apply quiet_confirmation_error.
Qed.

(** ** One confirmation, run alone *)

(** What the user-initiated path does for a payment the gateway confirms
    and the supply can serve: the tickets are written for the caller and the
    reference, the record is removed, and the one message that carries the
    numbers is followed by the ticket images, or by the error text when
    that message could not be delivered. *)
Lemma confirm_payment_resolves (self : RaffleBot) (query : CallbackQuery)
    (user_id : Z) (p : PendingPayment) (w : World) :
  unique_references w -> In p (pending_payments (db w)) ->
  snd (verify_payment E (VStr (p_reference p)) w) = Ok true ->
  1 <= p_ticket_count p <= Z.of_nat (List.length (available_numbers w)) ->
  exists numbers w1,
    resolved E query user_id p numbers w w1 /\
    let w' := fst (run E (confirm_payment E self query user_id (p_reference p)) w) in
    let summary := EditMessageText query (MsgPaymentConfirmed numbers (p_amount p)) in
    db w' = db w1 /\
    chat w' = chat w ++ summary ::
                (if delivers E summary
                 then map (ReplyPhoto query) (filter (renders E) numbers)
                 else [EditMessageText query MsgErrorConfirming]).
Proof.
  intros Hu Hin Hv Hk.
  destruct (confirm_payment_settles E self query user_id p w Hu Hin Hv Hk)
    as [numbers [w1 [Heq Hres]]].
  exists numbers, w1. split; [exact Hres|].
  unfold run. rewrite Heq. cbn [run_res]. unfold confirmation_tail.
  rewrite run_res_catch, run_res_bind. unfold outcome.
  destruct Hres as [_ [_ [_ [_ [_ [_ [_ [_ Hchat]]]]]]]].
  destruct (delivers E (EditMessageText query (MsgPaymentConfirmed numbers (p_amount p)))).
  - cbn [run_res].
    destruct (run_send_ticket_images_from_query query numbers w1) as [w' [Hrun [Hdb Hc]]].
    unfold run in Hrun. rewrite Hrun. cbn [fst]. split; [exact Hdb|].
    rewrite Hc, Hchat. now rewrite <- app_assoc.
  - cbn [run_res]. unfold bind, exec, await. cbn [bind_res run_res fst].
    split; [reflexivity|]. cbn [chat add_chat add_log]. rewrite Hchat.
    now rewrite <- app_assoc.
Qed.

End Runs.

(** * Two handlers for one confirmed reference *)

Section Interleaving.

Variable E : Env.
Variable self : RaffleBot.
Variable p : PendingPayment.
Variable w0 : World.

Hypothesis Hunique : unique_references w0.
Hypothesis Hpending : In p (pending_payments (db w0)).
Hypothesis Hconfirmed : snd (verify_payment E (VStr (p_reference p)) w0) = Ok true.
Hypothesis Hsupply :
  1 <= p_ticket_count p <= Z.of_nat (List.length (available_numbers w0)).

Lemma obs_db (r : string) (w w' : World) : obs r w = obs r w' -> db w = db w'.
Proof. unfold obs. intros H. now inversion H. Qed.

Lemma settled_once_obs (r : string) (n : Z) (w w1 w2 : World) :
  settled_once r n w w1 -> obs r w2 = obs r w1 -> settled_once r n w w2.
Proof.
  intros [new H] Hobs. unfold obs in Hobs. inversion Hobs as [[Hdb Ha Hr]].
  exists new. unfold is_pending in *. now rewrite Hdb, Ha, Hr.
Qed.

Lemma settled_once_from (r : string) (n : Z) (w w' w1 : World) :
  settled_once r n w w1 -> obs r w' = obs r w -> settled_once r n w' w1.
Proof.
  intros [new H] Hobs. unfold obs in Hobs. inversion Hobs as [[Hdb Ha Hr]].
  exists new. now rewrite Hdb, Ha, Hr.
Qed.

Lemma resolved_settled_once (query : CallbackQuery) (user_id : Z) (numbers : list Z)
    (w w1 : World) :
  unique_references w ->
  resolved E query user_id p numbers w w1 ->
  settled_once (p_reference p) (p_ticket_count p) w w1.
Proof.
  intros Hu [Hlen [Hnd [Hincl [Ht [Hp [_ [Ha [Hr _]]]]]]]].
  exists (map (ticket_document E (VInt user_id) (VStr (p_reference p))) numbers).
  repeat split; try assumption.
  - now rewrite length_map.
  - apply Forall_forall. intros t Ht'. apply in_map_iff in Ht'.
    destruct Ht' as [m [<- _]]. reflexivity.
  - now rewrite ticket_numbers_of_documents.
  - intros t Ht' Hsold. apply in_map_iff in Ht'. destruct Ht' as [m [<- Hm]].
    apply Hincl in Hm. apply In_available_numbers in Hm. simpl in Hsold. tauto.
  - unfold is_pending. rewrite Hp. now apply delete_one_absent.
Qed.

(** The first confirmation to run settles the payment in its first piece. *)
Lemma confirmation_first (t : task) (w : World) :
  obs (p_reference p) w = obs (p_reference p) w0 ->
  confirming E self (p_reference p) t ->
  (settled_once (p_reference p) (p_ticket_count p) w0 (fst (resume E t w))
   /\ quiet_task (p_reference p) (snd (resume E t w)))
  /\ settled_once (p_reference p) (p_ticket_count p) w0 (complete E t w).
Proof.
  intros Hobs [query [user_id ->]].
  pose proof (obs_db _ _ _ Hobs) as Hdb.
  assert (Hu : unique_references w) by (unfold unique_references; now rewrite Hdb).
  assert (Hin : In p (pending_payments (db w))) by now rewrite Hdb.
  assert (Hv : snd (verify_payment E (VStr (p_reference p)) w) = Ok true).
  { now rewrite (verify_payment_verdict E _ w w0). }
  assert (Hk : 1 <= p_ticket_count p <= Z.of_nat (List.length (available_numbers w))).
  { now rewrite (available_numbers_db w0 w Hdb). }
  destruct (confirm_payment_settles E self query user_id p w Hu Hin Hv Hk)
    as [numbers [w1 [Heq Hres]]].
  apply resolved_settled_once in Hres; [|exact Hu].
  apply (settled_once_from _ _ w w0) in Hres; [|now symmetry].
  simpl. rewrite Heq. cbn [fst snd run_res]. repeat split.
  - exact Hres.
  - intros w'. apply quiet_confirmation_tail.
  - apply (settled_once_obs _ _ w0 w1); [exact Hres|].
    apply run_res_quiet, quiet_confirmation_tail.
Qed.

(** Any handler that runs after the settlement leaves it as it is. *)
Lemma handler_after (t : task) (w : World) :
  settled_once (p_reference p) (p_ticket_count p) w0 w ->
  confirming E self (p_reference p) t \/ quiet_task (p_reference p) t ->
  obs (p_reference p) (fst (resume E t w)) = obs (p_reference p) w
  /\ quiet_task (p_reference p) (snd (resume E t w))
  /\ obs (p_reference p) (complete E t w) = obs (p_reference p) w.
Proof.
  intros Hset [[query [user_id ->]]|Hq].
  - assert (Hn : ~ is_pending (p_reference p) w).
    { destruct Hset as [new H]. tauto. }
    pose proof (confirm_payment_absent E (p_reference p) self query user_id _ w Hn) as Hq.
    simpl. destruct Hq as [w1 out H|w1 c k H Hk]; cbn [fst snd run_res].
    + now repeat split.
    + repeat split; [exact H|intros w'; apply Hk|].
      rewrite (run_res_quiet E (p_reference p) w1 (k (outcome E c) w1) (Hk _ _)). exact H.
  - destruct (resume_quiet E (p_reference p) t w Hq) as [H1 H2].
    repeat split; [exact H1|exact H2|]. now apply complete_quiet.
Qed.

Lemma interleave_phases (schedule : list bool) (w : World) (t1 t2 : task) :
  before_settlement E self (p_reference p) w0 w t1 t2
  \/ after_settlement E self (p_reference p) (p_ticket_count p) w0 w t1 t2 ->
  let '(w', t1', t2') := interleave E schedule w t1 t2 in
  before_settlement E self (p_reference p) w0 w' t1' t2'
  \/ after_settlement E self (p_reference p) (p_ticket_count p) w0 w' t1' t2'.
Proof.
  revert w t1 t2. induction schedule as [|first rest IH]; intros w t1 t2 Hphase.
  - exact Hphase.
  - cbn [interleave]. destruct first.
    + destruct (resume E t1 w) as [w' t1'] eqn:Hres. apply IH.
      destruct Hphase as [[Hobs [[Hc|Hq] H2]]|[Hset [H1 H2]]].
      * right. destruct (confirmation_first t1 w Hobs Hc) as [[Hs Hq] _].
        rewrite Hres in Hs, Hq. repeat split; [exact Hs|now right|now left].
      * left. destruct (resume_quiet E (p_reference p) t1 w Hq) as [Ho Hq'].
        rewrite Hres in Ho, Hq'. simpl in Ho, Hq'.
        repeat split; [congruence|now right|exact H2].
      * right. destruct (handler_after t1 w Hset H1) as [Ho [Hq' _]].
        rewrite Hres in Ho, Hq'. simpl in Ho, Hq'.
        repeat split; [now apply (settled_once_obs _ _ w0 w)|now right|exact H2].
    + destruct (resume E t2 w) as [w' t2'] eqn:Hres. apply IH.
      destruct Hphase as [[Hobs [H1 Hc]]|[Hset [H1 H2]]].
      * right. destruct (confirmation_first t2 w Hobs Hc) as [[Hs Hq] _].
        rewrite Hres in Hs, Hq. repeat split; [exact Hs|exact H1|now right].
      * right. destruct (handler_after t2 w Hset H2) as [Ho [Hq' _]].
        rewrite Hres in Ho, Hq'. simpl in Ho, Hq'.
        repeat split; [now apply (settled_once_obs _ _ w0 w)|exact H1|now right].
Qed.

Lemma run_both_settles_once (schedule : list bool) (c1 : coroutine unit)
    (query : CallbackQuery) (user_id : Z) :
  confirming E self (p_reference p) (Ready c1) \/ quiet (p_reference p) c1 ->
  settled_once (p_reference p) (p_ticket_count p) w0
    (run_both E schedule c1 (confirm_payment E self query user_id (p_reference p)) w0).
Proof.
  intros Hc1. unfold run_both.
  pose proof (interleave_phases schedule w0 (Ready c1)
                (Ready (confirm_payment E self query user_id (p_reference p)))) as Hinv.
  destruct (interleave E schedule w0 (Ready c1)
              (Ready (confirm_payment E self query user_id (p_reference p))))
    as [[w' t1] t2].
  destruct Hinv as [[Hobs [H1 H2]]|[Hset [H1 H2]]].
  { left. repeat split; [exact Hc1|]. now exists query, user_id. }
  - destruct H1 as [Hc|Hq].
    + destruct (confirmation_first t1 w' Hobs Hc) as [_ Hs].
      destruct (handler_after t2 _ Hs (or_introl H2)) as [_ [_ Ho]].
      now apply (settled_once_obs _ _ w0 (complete E t1 w')).
    + pose proof (complete_quiet E (p_reference p) t1 w' Hq) as Ho.
      apply confirmation_first; [congruence|exact H2].
  - destruct (handler_after t1 w' Hset H1) as [_ [_ Ho1]].
    pose proof (settled_once_obs _ _ w0 w' _ Hset Ho1) as Hs1.
    destruct (handler_after t2 _ Hs1 H2) as [_ [_ Ho2]].
    now apply (settled_once_obs _ _ w0 (complete E t1 w')).
Qed.

End Interleaving.

(** * What every run preserves *)

Section StoreEffects.

Variable E : Env.

Lemma check_payments_db (self : RaffleBot) (w : World) :
  db (fst (run E (check_payments E self) w)) = db w.
Proof.
  unfold run. destruct (check_payments_done E self w) as [w' [Heq [Hsame _]]].
  rewrite Heq. simpl. apply Hsame.
Qed.

(** A confirmation run alone either leaves the stores as they are or
    settles the pending payment of its reference. *)
Lemma confirm_payment_db (self : RaffleBot) (query : CallbackQuery) (user_id : Z)
    (reference : string) (w : World) :
  unique_references w ->
  let w' := fst (run E (confirm_payment E self query user_id reference) w) in
  db w' = db w
  \/ exists p numbers w1,
       In p (pending_payments (db w)) /\ p_reference p = reference /\
       resolved E query user_id p numbers w w1 /\ db w' = db w1.
Proof.
  intros Hu. cbv zeta.
  assert (Hquiet : quiet_from reference w (confirm_payment E self query user_id reference w) ->
                   db (fst (run E (confirm_payment E self query user_id reference) w)) = db w).
  { intros Hq. apply (run_res_quiet E) in Hq. now apply obs_db in Hq. }
  destruct (snd (verify_payment E (VStr reference) w)) as [[|]|e] eqn:Hv.
  2,3: left; apply Hquiet, confirm_payment_unverified; rewrite Hv; discriminate.
  destruct (in_dec string_dec reference (map p_reference (pending_payments (db w))))
    as [Hin|Hn].
  2: left; apply Hquiet; now apply confirm_payment_absent.
  apply in_map_iff in Hin. destruct Hin as [p [Hp Hin]]. subst reference.
  destruct (Z_lt_dec (p_ticket_count p) 1) as [Hlow|Hpos].
  { left. apply Hquiet. apply confirm_payment_refused; auto. }
  destruct (Z_lt_dec (Z.of_nat (List.length (available_numbers w))) (p_ticket_count p))
    as [Hshort|Henough].
  { left. apply Hquiet. apply confirm_payment_refused; auto. }
  right.
  destruct (confirm_payment_resolves E self query user_id p w Hu Hin Hv)
    as [numbers [w1 [Hres [Hdb _]]]]; [lia|].
  exists p, numbers, w1. auto.
Qed.

(** The tickets a confirmation writes: as many as the record asks for, all
    for the caller and the reference. *)
Lemma confirm_payment_tickets (self : RaffleBot) (query : CallbackQuery) (user_id : Z)
    (p : PendingPayment) (w : World) :
  unique_references w -> In p (pending_payments (db w)) ->
  snd (verify_payment E (VStr (p_reference p)) w) = Ok true ->
  1 <= p_ticket_count p <= Z.of_nat (List.length (available_numbers w)) ->
  exists new,
    let w' := fst (run E (confirm_payment E self query user_id (p_reference p)) w) in
    tickets (db w') = tickets (db w) ++ new /\
    Z.of_nat (List.length new) = p_ticket_count p /\
    Forall (fun t => t_user_id t = VInt user_id
                     /\ payment_reference t = VStr (p_reference p)) new /\
    pending_payments (db w') = delete_one (VStr (p_reference p)) (pending_payments (db w)).
Proof.
  intros Hu Hin Hv Hk.
  destruct (confirm_payment_resolves E self query user_id p w Hu Hin Hv Hk)
    as [numbers [w1 [Hres [Hdb _]]]].
  destruct Hres as [Hlen [_ [_ [Ht [Hp _]]]]].
  exists (map (ticket_document E (VInt user_id) (VStr (p_reference p))) numbers).
  cbv zeta. rewrite Hdb, Ht, Hp, length_map. repeat split; try assumption.
  apply Forall_forall. intros t Hin'. apply in_map_iff in Hin'.
  destruct Hin' as [n [<- _]]. now split.
Qed.

(** The supply left is at least the thousand minus the tickets sold. *)
Lemma available_numbers_length (w : World) :
  (1000 - List.length (tickets (db w)) <= List.length (available_numbers w))%nat.
Proof.
  unfold available_numbers.
  set (existing := map ticket_number (tickets (db w))).
  set (free := fun n => negb (existsb (Z.eqb n) existing)).
  pose proof (filter_length free (py_range 1 1001)) as Hsplit.
  rewrite py_range_length in Hsplit.
  assert (Htaken : (List.length (filter (fun n => negb (free n)) (py_range 1 1001))
                    <= List.length existing)%nat).
  { apply NoDup_incl_length; [apply NoDup_filter, NoDup_py_range|].
    intros n Hn. apply filter_In in Hn. destruct Hn as [_ Hn].
    unfold free in Hn. rewrite negb_involutive in Hn.
    apply existsb_exists in Hn. destruct Hn as [m [Hm Heq]].
    apply Z.eqb_eq in Heq. now subst m. }
  subst existing. rewrite length_map in Htaken.
  change (Z.to_nat (1001 - 1)) with 1000%nat in Hsplit. lia.
Qed.

Lemma delete_one_other (r : string) (q : PendingPayment) (ps : list PendingPayment) :
  In q ps -> p_reference q <> r -> In q (delete_one (VStr r) ps).
Proof.
  intros Hin Hne. induction ps as [|x ps IH]; [destruct Hin|]. cbn [delete_one value_eqb].
  destruct (String.eqb_spec (p_reference x) r) as [Heq|Hx].
  - destruct Hin as [->|Hin]; [congruence|assumption].
  - destruct Hin as [->|Hin]; [now left|right; now apply IH].
Qed.

(** Two confirmed payments, confirmed one after the other, add up: the
    allocation looks at the thousand numbers only. *)
Lemma two_confirmations_total (self : RaffleBot) (query1 query2 : CallbackQuery)
    (user1 user2 : Z) (p1 p2 : PendingPayment) (w : World) :
  unique_references w ->
  In p1 (pending_payments (db w)) -> In p2 (pending_payments (db w)) ->
  p_reference p2 <> p_reference p1 ->
  snd (verify_payment E (VStr (p_reference p1)) w) = Ok true ->
  snd (verify_payment E (VStr (p_reference p2)) w) = Ok true ->
  1 <= p_ticket_count p1 -> 1 <= p_ticket_count p2 ->
  get_total_tickets_sold w + p_ticket_count p1 + p_ticket_count p2 <= 1000 ->
  let w1 := fst (run E (confirm_payment E self query1 user1 (p_reference p1)) w) in
  let w2 := fst (run E (confirm_payment E self query2 user2 (p_reference p2)) w1) in
  get_total_tickets_sold w2
  = get_total_tickets_sold w + p_ticket_count p1 + p_ticket_count p2.
Proof.
  intros Hu Hin1 Hin2 Hne Hv1 Hv2 Hk1 Hk2 Hsum. cbv zeta.
  unfold get_total_tickets_sold in *.
  pose proof (available_numbers_length w) as Hav.
  destruct (confirm_payment_tickets self query1 user1 p1 w Hu Hin1 Hv1) as [new1 H1]; [lia|].
  cbv zeta in H1. destruct H1 as [Ht1 [Hlen1 [_ Hp1]]].
  set (w1 := fst (run E (confirm_payment E self query1 user1 (p_reference p1)) w)) in *.
  pose proof (available_numbers_length w1) as Hav1.
  assert (Hl1 : List.length (tickets (db w1))
                = (List.length (tickets (db w)) + List.length new1)%nat).
  { now rewrite Ht1, length_app. }
  destruct (confirm_payment_tickets self query2 user2 p2 w1) as [new2 H2].
  - unfold unique_references. rewrite Hp1. now apply delete_one_NoDup.
  - rewrite Hp1. now apply delete_one_other.
  - now rewrite (verify_payment_verdict E _ w1 w).
  - lia.
  - cbv zeta in H2. destruct H2 as [Ht2 [Hlen2 _]].
    rewrite Ht2, length_app, Hl1. lia.
Qed.

End StoreEffects.

Section Invariant.

Lemma store_invariant_same (w w' : World) :
  tickets (db w') = tickets (db w) ->
  pending_payments (db w') = pending_payments (db w) ->
  store_invariant w -> store_invariant w'.
Proof.
  unfold store_invariant, sold_numbers, unique_references. intros -> ->. auto.
Qed.

Lemma store_invariant_pending (w w' : World) :
  tickets (db w') = tickets (db w) ->
  NoDup (map p_reference (pending_payments (db w'))) ->
  store_invariant w -> store_invariant w'.
Proof.
  unfold store_invariant, sold_numbers, unique_references. intros -> Hp [H1 [H2 _]]. auto.
Qed.

Lemma store_invariant_db (w w' : World) :
  db w' = db w -> store_invariant w -> store_invariant w'.
Proof. intros H. apply store_invariant_same; now rewrite H. Qed.

Lemma store_invariant_tickets (w w' : World) (new : list Ticket) :
  store_invariant w ->
  NoDup (map ticket_number new) -> incl (map ticket_number new) (available_numbers w) ->
  tickets (db w') = tickets (db w) ++ new ->
  NoDup (map p_reference (pending_payments (db w'))) ->
  store_invariant w'.
Proof.
  intros [Hnd [Hrange Hu]] Hnew Hincl Ht Hp.
  unfold store_invariant, sold_numbers, unique_references in *.
  rewrite Ht, map_app.
  split; [|split; [|exact Hp]].
  - apply NoDup_app; try assumption.
    intros n Hold Hn. apply Hincl in Hn. apply In_available_numbers in Hn. tauto.
  - intros n Hn. apply in_app_or in Hn. destruct Hn as [Hn|Hn]; [now apply Hrange|].
    apply Hincl in Hn. apply In_available_numbers in Hn. tauto.
Qed.

Lemma store_invariant_step (self : RaffleBot) (w w' : World) :
  step self w w' -> store_invariant w -> store_invariant w'.
Proof.
  intros Hstep Hinv.
  destruct Hstep as [E0 uid un fn ln w|E0 uid ref tc am w|ref w|E0 uid tc ref w|E0 w
                    |E0 query uid ref w].
  - revert Hinv. apply store_invariant_same; reflexivity.
  - unfold add_pending_payment, insert_one_pending.
    destruct (existsb _ _) eqn:Hex; [revert Hinv; now apply store_invariant_db|].
    apply (store_invariant_pending w); [reflexivity| |exact Hinv].
    cbn [fst]. simpl. rewrite map_app. simpl.
    apply NoDup_app; [apply Hinv|repeat constructor; intros []|].
    intros r Hr [<-|[]]. apply in_map_iff in Hr. destruct Hr as [q [Hq Hin]].
    assert (Htrue : existsb (fun q0 => (p_reference q0 =? ref)%string)
                      (pending_payments (db w)) = true).
    { apply existsb_exists. exists q. split; [assumption|].
      rewrite Hq. apply String.eqb_refl. }
    simpl in Hex. congruence.
  - unfold remove_pending_payment.
    destruct (existsb _ _); [|revert Hinv; now apply store_invariant_db].
    apply (store_invariant_pending w); [reflexivity| |exact Hinv].
    simpl. apply delete_one_NoDup, Hinv.
  - destruct (assign_tickets E0 uid tc ref w) as [w1 [numbers|]] eqn:Heq; simpl.
    + apply assign_tickets_some in Heq. destruct Heq as [k [_ Hall]].
      destruct Hall as [_ [_ [Hnd [Hincl [Hdb _]]]]].
      apply (store_invariant_tickets w w1 (map (ticket_document E0 uid ref) numbers));
        rewrite ?ticket_numbers_of_documents; try assumption;
        rewrite Hdb; [reflexivity|apply Hinv].
    + apply assign_tickets_none in Heq. revert Hinv. apply store_invariant_db. apply Heq.
  - revert Hinv. apply store_invariant_db. apply (check_payments_db E0).
  - destruct (confirm_payment_db E0 self query uid ref w) as [Hdb|Hres];
      [apply Hinv|revert Hinv; now apply store_invariant_db|].
    destruct Hres as [p [numbers [w1 [Hin [Hr [Hres Hdb]]]]]].
    destruct Hres as [_ [Hnd [Hincl [Ht [Hp _]]]]].
    apply (store_invariant_tickets w _
             (map (ticket_document E0 (VInt uid) (VStr (p_reference p))) numbers));
      rewrite ?ticket_numbers_of_documents; try assumption.
    + now rewrite Hdb.
    + rewrite Hdb, Hp. apply delete_one_NoDup, Hinv.
Qed.

(** Every reachable state has distinct ticket numbers, all of them between
    1 and 1000, and distinct pending references. *)
Lemma reachable_store_invariant (self : RaffleBot) (w : World) :
  reachable self w -> store_invariant w.
Proof.
  induction 1 as [w Hdb|w w' _ IH Hstep].
  - unfold store_invariant, sold_numbers, unique_references. rewrite Hdb. simpl.
    split; [constructor|split; [intros n []|constructor]].
  - now apply (store_invariant_step self w w').
Qed.

(** Hence at most 1000 tickets are ever sold. *)
Lemma reachable_at_most_1000 (self : RaffleBot) (w : World) :
  reachable self w -> get_total_tickets_sold w <= 1000.
Proof.
  intros Hr. apply reachable_store_invariant in Hr. destruct Hr as [Hnd [Hrange _]].
  unfold get_total_tickets_sold.
  assert (Hle : (List.length (sold_numbers w) <= List.length (py_range 1 1001))%nat).
  { apply NoDup_incl_length; [exact Hnd|]. intros n Hn. apply In_py_range.
    specialize (Hrange n Hn). lia. }
  rewrite py_range_length in Hle. unfold sold_numbers in Hle. rewrite length_map in Hle. lia.
Qed.

(** Under a configuration whose cap is not below the thousand numbers of
    [assign_tickets], the cap is respected. *)
Lemma reachable_within_MAX_TICKETS (self : RaffleBot) (w : World) :
  1000 <= MAX_TICKETS self ->
  reachable self w ->
  get_total_tickets_sold w <= MAX_TICKETS self
  /\ forall n, In n (sold_numbers w) -> 1 <= n <= MAX_TICKETS self.
Proof.
  intros Hcap Hr. split.
  - pose proof (reachable_at_most_1000 self w Hr). lia.
  - intros n Hn. apply reachable_store_invariant in Hr. destruct Hr as [_ [Hrange _]].
    specialize (Hrange n Hn). lia.
Qed.

End Invariant.

(** * The claims *)

(** The contract of a successful allocation, as the code has it: as many
    numbers as requested, pairwise distinct, each between 1 and 1000 and
    none of them on a ticket sold before. *)
Lemma assign_tickets_contract (E : Env) (u tc r : value) (w w' : World) (numbers : list Z) :
  assign_tickets E u tc r w = (w', Some numbers) ->
  tc = VInt (Z.of_nat (List.length numbers)) /\
  NoDup numbers /\
  forall n, In n numbers -> 1 <= n <= 1000 /\ ~ In n (sold_numbers w).
Proof.
  intros H. apply assign_tickets_some in H. destruct H as [k [-> Hall]].
  destruct Hall as [Hlen [_ [Hnd [Hincl _]]]]. repeat split; try assumption.
  - now rewrite Hlen.
  - apply Hincl in H. apply In_available_numbers in H. lia.
  - apply Hincl in H. apply In_available_numbers in H. lia.
  - apply Hincl in H. apply In_available_numbers in H. tauto.
Qed.

(** C1, at the failing input.  The bot is configured with
    [MAX_TICKETS = 3] and one ticket is requested from an empty store;
    [assign_tickets] draws from the numbers 1 to 1000 whatever the
    configuration, and when the generator picks position 499 the call
    succeeds with number 500, which is not in [[1, MAX_TICKETS]]. *)
Theorem C1_allocation_ignores_MAX_TICKETS :
  snd (assign_tickets (env_answering success_body (always 499)) (VInt 111) (VInt 1) (VStr "R1")
         world_start) = Some [500]
  /\ MAX_TICKETS bot_of_three < 500.
Proof. split; [vm_compute; reflexivity|vm_compute; reflexivity]. Qed.

(** C2.  A pending payment that the gateway confirms and the supply cannot
    serve is left as it is by both paths: the stores after the periodic
    sweep and after the user-initiated confirmation are the stores before,
    so no ticket is written and the record stays. *)
Theorem C2_insufficient_supply_keeps_pending (E : Env) (self : RaffleBot)
    (query : CallbackQuery) (user_id : Z) (p : PendingPayment) (w : World) :
  unique_references w ->
  In p (pending_payments (db w)) ->
  snd (verify_payment E (VStr (p_reference p)) w) = Ok true ->
  Z.of_nat (List.length (available_numbers w)) < p_ticket_count p ->
  db (fst (run E (check_payments E self) w)) = db w
  /\ db (fst (run E (confirm_payment E self query user_id (p_reference p)) w)) = db w.
Proof.
  intros Hu Hin Hv Hshort. split; [apply check_payments_db|].
  assert (Hq : quiet_from (p_reference p) w
                 (confirm_payment E self query user_id (p_reference p) w)).
  { apply confirm_payment_refused; auto. }
  apply (run_res_quiet E) in Hq. now apply obs_db in Hq.
Qed.

(** All thousand numbers are sold, R9 is paid for one ticket. *)
Lemma C2_witness :
  db (fst (run env_paid (check_payments env_paid bot_default) world_sold_out))
    = db world_sold_out
  /\ db (fst (run env_paid
                (confirm_payment env_paid bot_default (query_of 111) 111 "R9")
                world_sold_out))
    = db world_sold_out.
Proof.
  apply (C2_insufficient_supply_keeps_pending env_paid bot_default (query_of 111) 111
           payment_R9 world_sold_out).
  - unfold unique_references. vm_compute. repeat constructor. intros [].
  - vm_compute. left. reflexivity.
  - vm_compute. reflexivity.
  - vm_compute. reflexivity.
Defined.

(** C3.  Two handlers run on the event loop for a reference that is
    pending, confirmed by the gateway and within the supply: the second is a
    user-initiated confirmation, the first is the periodic sweep or another
    confirmation.  Whatever the order in which the loop resumes them at
    their suspension points, once both are over the payment has been
    settled exactly once: one allocation of its tickets and one removal of
    its record. *)
Theorem C3_concurrent_resolve_settles_once (E : Env) (self : RaffleBot)
    (schedule : list bool) (c1 : coroutine unit)
    (query1 query2 : CallbackQuery) (user1 user2 : Z) (p : PendingPayment) (w : World) :
  unique_references w ->
  In p (pending_payments (db w)) ->
  snd (verify_payment E (VStr (p_reference p)) w) = Ok true ->
  1 <= p_ticket_count p <= Z.of_nat (List.length (available_numbers w)) ->
  c1 = check_payments E self \/ c1 = confirm_payment E self query1 user1 (p_reference p) ->
  settled_once (p_reference p) (p_ticket_count p) w
    (run_both E schedule c1 (confirm_payment E self query2 user2 (p_reference p)) w).
Proof.
  intros Hu Hin Hv Hk Hc1. apply run_both_settles_once; try assumption.
  destruct Hc1 as [->| ->].
  - right. apply quiet_check_payments.
  - left. now exists query1, user1.
Qed.

(** The sweep and the confirmation of R1, resumed in turn. *)
Lemma C3_witness :
  settled_once "R1" 2 world_R1
    (run_both env_paid [true; false; false; true]
       (check_payments env_paid bot_default)
       (confirm_payment env_paid bot_default (query_of 111) 111 "R1") world_R1).
Proof.
  apply (C3_concurrent_resolve_settles_once env_paid bot_default
           [true; false; false; true] (check_payments env_paid bot_default)
           (query_of 111) (query_of 111) 111 111 payment_R1 world_R1).
  - unfold unique_references. vm_compute. repeat constructor. intros [].
  - vm_compute. left. reflexivity.
  - vm_compute. reflexivity.
  - vm_compute. split; discriminate.
  - left. reflexivity.
Defined.

(** C4, at the failing input.  R1 is pending for two tickets, no ticket is
    sold, and the periodic sweep runs; the gateway may confirm R1 or not, it
    is not asked.  The sweep takes each pending payment as the dict that
    [get_pending_payments] returns, so its tuple assignment binds
    [reference] to the key ["reference"]; [verify_payment] refuses that
    placeholder at once.  Nothing is allocated, R1 stays pending and no
    message is sent. *)
Theorem C4_sweep_does_not_resolve (E : Env) :
  run E (check_payments E bot_default) world_R1
  = (add_log LogInvalidReference world_R1, Ok tt)
  /\ tickets (db (add_log LogInvalidReference world_R1)) = []
  /\ pending_payments (db (add_log LogInvalidReference world_R1)) = [payment_R1]
  /\ requests (add_log LogInvalidReference world_R1) = []
  /\ chat (add_log LogInvalidReference world_R1) = [].
Proof. repeat split. Qed.

(** C5, at the failing input.  The bot is configured with
    [MAX_TICKETS = 3]; two users each start a purchase of two tickets while
    nothing is sold, the gateway confirms both and each user confirms.
    Whatever the generator draws, the state reached holds four tickets. *)
Theorem C5_sales_exceed_MAX_TICKETS (stream : nat -> nat) :
  let E := env_answering success_body stream in
  reachable bot_of_three (world_after_R1_R2 E)
  /\ get_total_tickets_sold (world_after_R1_R2 E) = 4
  /\ MAX_TICKETS bot_of_three = 3.
Proof.
  intros E. split; [|split; [|reflexivity]].
  { apply (reachable_step bot_of_three (world_after_R1 E)); [|apply step_confirm_payment].
    apply (reachable_step bot_of_three world_R1_R2); [|apply step_confirm_payment].
    apply (reachable_step bot_of_three world_R1); [|apply step_add_pending_payment].
    apply (reachable_step bot_of_three world_start); [|apply step_add_pending_payment].
    apply reachable_start. reflexivity. }
  apply (two_confirmations_total E bot_of_three (query_of 111) (query_of 222) 111 222
           payment_R1 payment_R2 world_R1_R2).
  - unfold unique_references. vm_compute. repeat constructor.
    + intros [H|[]]. discriminate.
    + intros [].
  - vm_compute. left. reflexivity.
  - vm_compute. right. left. reflexivity.
  - discriminate.
  - vm_compute. reflexivity.
  - vm_compute. reflexivity.
  - vm_compute. discriminate.
  - vm_compute. discriminate.
  - vm_compute. discriminate.
Qed.

(** C6, at the failing input.  The pending payment R1 was created by user
    111 and the gateway confirms it; user 222 presses the confirm button for
    R1.  Whatever the generator draws, the two tickets are written for 222,
    the caller of [confirm_payment], not for the user stored in the
    record. *)
Theorem C6_tickets_go_to_the_caller (stream : nat -> nat) :
  let E := env_answering success_body stream in
  map p_user_id (pending_payments (db world_R1)) = [111]
  /\ map t_user_id
       (tickets (db (fst (run E (confirm_payment E bot_default (query_of 222) 222 "R1")
                            world_R1))))
     = [VInt 222; VInt 222].
Proof.
  intros E. split; [reflexivity|].
  destruct (confirm_payment_tickets E bot_default (query_of 222) 222 payment_R1 world_R1)
    as [new H].
  - unfold unique_references. vm_compute. repeat constructor. intros [].
  - vm_compute. left. reflexivity.
  - vm_compute. reflexivity.
  - vm_compute. split; discriminate.
  - cbv zeta in H. destruct H as [Ht [Hlen [Hall _]]].
    change (p_reference payment_R1) with "R1" in Ht.
    change (p_ticket_count payment_R1) with 2 in Hlen.
    change (tickets (db world_R1)) with (@nil Ticket) in Ht.
    rewrite Ht. cbn [app].
    destruct new as [|t1 [|t2 [|t3 ns]]]; cbn [List.length] in Hlen; try lia.
    inversion Hall as [|? ? [H1 _] Hall']; subst.
    inversion Hall' as [|? ? [H2 _] _]; subst.
    cbn [map]. now rewrite H1, H2.
Qed.

(** C7.  When the gateway does not confirm a reference, neither the
    periodic sweep nor the user-initiated confirmation changes the stores:
    users, tickets and pending payments are what they were. *)
Theorem C7_unconfirmed_changes_nothing (E : Env) (self : RaffleBot)
    (query : CallbackQuery) (user_id : Z) (reference : string) (w : World) :
  snd (verify_payment E (VStr reference) w) = Ok false ->
  db (fst (run E (check_payments E self) w)) = db w
  /\ db (fst (run E (confirm_payment E self query user_id reference) w)) = db w.
Proof.
  intros Hv. split; [apply check_payments_db|].
  assert (Hq : quiet_from reference w (confirm_payment E self query user_id reference w)).
  { apply confirm_payment_unverified. rewrite Hv. discriminate. }
  apply (run_res_quiet E) in Hq. now apply obs_db in Hq.
Qed.

(** R1 is pending and the gateway reports it abandoned. *)
Lemma C7_witness :
  db (fst (run env_unpaid (check_payments env_unpaid bot_default) world_R1)) = db world_R1
  /\ db (fst (run env_unpaid
                (confirm_payment env_unpaid bot_default (query_of 111) 111 "R1") world_R1))
     = db world_R1.
Proof.
  apply (C7_unconfirmed_changes_nothing env_unpaid bot_default (query_of 111) 111 "R1"
           world_R1).
  vm_compute. reflexivity.
Defined.

(** C8, at the failing input.  The gateway answers HTTP 200 with the JSON
    object [{"status": true, "data": null}].  [result.get("data", {})] is
    then [None], the call of [get] on it raises [AttributeError], and
    neither [except] clause of [verify_payment] catches it: the call ends
    with the exception, not with [False]. *)
Theorem C8_verify_payment_raises_on_null_data :
  session_get env_null_data (verify_url (VStr "R1")) = Response 200 (Some null_data_body)
  /\ snd (verify_payment env_null_data (VStr "R1") world_R1) = Err AttributeError.
Proof. split; vm_compute; reflexivity. Qed.

(** C9 as stated fails: with R1 pending, a second [add_pending_payment] for
    R1 does not end in a failure.  It returns normally, with the value a
    first call returns, and no exception reaches the caller. *)
Lemma C9_duplicate_returns_normally :
  is_pending "R1" world_R1
  /\ snd (add_pending_payment env_paid 222 "R1" 5 5000 world_R1) = Ok tt
  /\ snd (add_pending_payment env_paid 222 "R1" 5 5000 world_R1)
     = snd (add_pending_payment env_paid 111 "R1" 2 2000 world_start)
  /\ forall e, snd (add_pending_payment env_paid 222 "R1" 5 5000 world_R1) <> Err e.
Proof.
  split; [vm_compute; left; reflexivity|].
  split; [reflexivity|]. split; [reflexivity|]. intros e. discriminate.
Qed.

(** C9, amended.  When a pending payment with reference [r] exists, the
    insert of a second one is refused by the unique index with
    [DuplicateKeyError]; [add_pending_payment] catches it, writes a warning
    to the log and returns normally.  The stores are unchanged, so the
    record of [r] is not modified, and in every state the system can reach
    there is still at most one pending payment per reference. *)
Theorem C9_duplicate_reference_is_logged (E : Env) (user_id : Z) (r : string)
    (ticket_count amount : Z) (w : World) :
  is_pending r w ->
  insert_one_pending
    {| p_user_id := user_id; p_reference := r; p_ticket_count := ticket_count;
       p_amount := amount; p_created_at := utcnow E |}
    (pending_payments (db w)) = Err DuplicateKeyError
  /\ add_pending_payment E user_id r ticket_count amount w
     = (add_log (LogPendingExists r) w, Ok tt)
  /\ db (fst (add_pending_payment E user_id r ticket_count amount w)) = db w
  /\ (forall self, reachable self w ->
      unique_references (fst (add_pending_payment E user_id r ticket_count amount w))).
Proof.
  intros Hin.
  assert (Hins : insert_one_pending
                   {| p_user_id := user_id; p_reference := r; p_ticket_count := ticket_count;
                      p_amount := amount; p_created_at := utcnow E |}
                   (pending_payments (db w)) = Err DuplicateKeyError).
  { unfold insert_one_pending.
    assert (Hex : existsb (fun q => (p_reference q =? r)%string) (pending_payments (db w)) = true).
    { apply existsb_exists. apply in_map_iff in Hin. destruct Hin as [q [Hq Hin]].
      exists q. split; [assumption|]. rewrite Hq. apply String.eqb_refl. }
    simpl. now rewrite Hex. }
  split; [exact Hins|]. unfold add_pending_payment. rewrite Hins.
  repeat split. intros self Hr.
  apply (reachable_store_invariant self) in Hr. destruct Hr as [_ [_ Hu]]. exact Hu.
Qed.

(** With R1 pending, a second purchase that comes back with reference R1. *)
Lemma C9_witness :
  add_pending_payment env_paid 222 "R1" 5 5000 world_R1
  = (add_log (LogPendingExists "R1") world_R1, Ok tt).
Proof.
  apply (C9_duplicate_reference_is_logged env_paid 222 "R1" 5 5000 world_R1).
  vm_compute. left. reflexivity.
Defined.

(** C10.  A reference that is empty, or that is one of the placeholders
    [reference], [<reference>] and [ref] once the whitespace around it is
    taken off and the case of its letters ignored, is answered [False] at
    once: no request to the gateway is issued. *)
Theorem C10_placeholder_reference_is_refused (E : Env) (s : string) (w : World) :
  s = EmptyString \/ placeholder_like s ->
  snd (verify_payment E (VStr s) w) = Ok false
  /\ requests (fst (verify_payment E (VStr s) w)) = requests w.
Proof.
  intros H.
  assert (Hguard : py_not (VStr s) || is_placeholder (lower (strip (py_str (VStr s)))) = true).
  { destruct H as [->|H]; [reflexivity|].
    apply orb_true_iff. right. now apply placeholder_like_guard. }
  unfold verify_payment. rewrite Hguard. split; reflexivity.
Qed.

(** A padded placeholder in mixed case. *)
Lemma C10_witness :
  snd (verify_payment env_paid (VStr "  <ReFeRence>  ") world_R1) = Ok false
  /\ requests (fst (verify_payment env_paid (VStr "  <ReFeRence>  ") world_R1))
     = requests world_R1.
Proof.
  apply (C10_placeholder_reference_is_refused env_paid "  <ReFeRence>  " world_R1).
  right. exists "  ", "<ReFeRence>", "  ", "<reference>".
  repeat split; [simpl; tauto|].
  repeat (constructor;
          [first [left; reflexivity | right; left; vm_compute; lia | right; right; vm_compute; lia]|]).
  constructor.
Defined.

(** * Further properties: lemmas *)

From Stdlib Require Import Sorted DecimalPos.

Section Text.

Lemma lstrip_no_space (s : string) : no_space s = true -> lstrip s = s.
Proof.
  destruct s as [|c s]; [reflexivity|]. simpl. intros H.
  apply andb_true_iff in H. destruct H as [H _].
  apply negb_true_iff in H. now rewrite H.
Qed.

Lemma strip_no_space (s : string) : no_space s = true -> strip s = s.
Proof.
  intros H. unfold strip. rewrite (lstrip_no_space s H). now apply rstrip_no_space.
Qed.

Lemma is_digit_cases (c : ascii) :
  is_digit c = true ->
  is_space c = false /\ Ascii.eqb c "_" = false /\ Ascii.eqb c "-" = false
  /\ Ascii.eqb c "+" = false /\ Ascii.eqb c "," = false.
Proof.
  destruct c as [[] [] [] [] [] [] [] []]; vm_compute; intros H;
    try discriminate H; repeat split.
Qed.

Lemma all_digits_no_space (s : string) : all_digits s = true -> no_space s = true.
Proof.
  induction s as [|c s IH]; [reflexivity|]. simpl. intros H.
  apply andb_true_iff in H. destruct H as [Hc Hs].
  apply is_digit_cases in Hc. destruct Hc as [Hc _]. rewrite Hc. simpl. now apply IH.
Qed.

Lemma all_digits_without_underscores (s : string) :
  all_digits s = true -> without_underscores s = s.
Proof.
  induction s as [|c s IH]; [reflexivity|]. simpl. intros H.
  apply andb_true_iff in H. destruct H as [Hc Hs].
  apply is_digit_cases in Hc. destruct Hc as [_ [Hc _]]. rewrite Hc. now rewrite IH.
Qed.

Lemma all_digits_underscores_ok (s : string) (after_digit : bool) :
  all_digits s = true -> s <> EmptyString \/ after_digit = true ->
  underscores_ok after_digit s = true.
Proof.
  revert after_digit. induction s as [|c s IH]; intros b H Hne.
  - destruct Hne as [Hne|Hne]; [now elim Hne|exact Hne].
  - simpl in *. apply andb_true_iff in H. destruct H as [Hc Hs].
    apply is_digit_cases in Hc. destruct Hc as [_ [Hc _]]. rewrite Hc.
    apply IH; [assumption|now right].
Qed.


Lemma string_of_uint_digits (d : Decimal.uint) :
  all_digits (NilEmpty.string_of_uint d) = true.
Proof. induction d; simpl; auto. Qed.


(** [int(str(n))] is [n]. *)
Lemma py_int_py_str (n : Z) : py_int (py_str (VInt n)) = Ok n.
Proof.
  assert (Hpos : forall p,
             py_int (NilEmpty.string_of_uint (Pos.to_uint p)) = Ok (Z.pos p)).
  { intros p.
    pose proof (string_of_uint_digits (Pos.to_uint p)) as Hd.
    pose proof (DecimalPos.Unsigned.to_uint_nonnil p) as Hnn.
    assert (Hne : NilEmpty.string_of_uint (Pos.to_uint p) <> EmptyString).
    { destruct (Pos.to_uint p); [now elim Hnn|discriminate..]. }
    unfold py_int. rewrite (strip_no_space _ (all_digits_no_space _ Hd)).
    destruct (NilEmpty.string_of_uint (Pos.to_uint p)) as [|c s] eqn:Hs; [now elim Hne|].
    assert (Hc : Ascii.eqb c "-" = false /\ Ascii.eqb c "+" = false).
    { simpl in Hd. apply andb_true_iff in Hd. destruct Hd as [Hc _].
      apply is_digit_cases in Hc. tauto. }
    destruct Hc as [Hm Hp]. rewrite Hm, Hp.
    rewrite all_digits_underscores_ok; [|assumption|left; discriminate].
    rewrite (all_digits_without_underscores _ Hd).
    unfold NilZero.uint_of_string. rewrite <- Hs. rewrite NilEmpty.usu.
    unfold Z.of_uint. now rewrite DecimalPos.Unsigned.of_to. }
  destruct n as [|p|p].
  - reflexivity.
  - unfold py_str, Z.to_int, NilZero.string_of_int, NilZero.string_of_uint.
    pose proof (DecimalPos.Unsigned.to_uint_nonnil p) as Hnn.
    destruct (Pos.to_uint p) eqn:Hp; [now elim Hnn|rewrite <- Hp; apply Hpos..].
  - unfold py_str, Z.to_int, NilZero.string_of_int, NilZero.string_of_uint.
    pose proof (DecimalPos.Unsigned.to_uint_nonnil p) as Hnn.
    assert (Hs : (match Pos.to_uint p with
                  | Decimal.Nil => "0"
                  | _ => NilEmpty.string_of_uint (Pos.to_uint p)
                  end) = NilEmpty.string_of_uint (Pos.to_uint p)).
    { destruct (Pos.to_uint p); [now elim Hnn|reflexivity..]. }
    rewrite Hs. clear Hs.
    pose proof (string_of_uint_digits (Pos.to_uint p)) as Hd.
    assert (Hne : NilEmpty.string_of_uint (Pos.to_uint p) <> EmptyString).
    { destruct (Pos.to_uint p); [now elim Hnn|discriminate..]. }
    unfold py_int.
    assert (Hns : no_space (String "-" (NilEmpty.string_of_uint (Pos.to_uint p))) = true).
    { simpl. now apply all_digits_no_space. }
    rewrite (strip_no_space _ Hns).
    change (Ascii.eqb "-" "-") with true. cbv iota beta.
    rewrite all_digits_underscores_ok; [|assumption|now left].
    rewrite (all_digits_without_underscores _ Hd).
    unfold NilZero.uint_of_string.
    destruct (NilEmpty.string_of_uint (Pos.to_uint p)) as [|c s] eqn:Hs; [now elim Hne|].
    rewrite <- Hs. rewrite NilEmpty.usu.
    unfold Z.of_uint. now rewrite DecimalPos.Unsigned.of_to.
Qed.

End Text.

Section Registry.

Variable E : Env.

Lemma update_first_ids (user_data : User) (us : list User) :
  map u_user_id (update_first user_data us) = map u_user_id us.
Proof.
  induction us as [|u us IH]; [reflexivity|]. simpl.
  destruct (Z.eqb_spec (u_user_id u) (u_user_id user_data)) as [Heq|Hne]; simpl.
  - now rewrite Heq.
  - now rewrite IH.
Qed.

Lemma find_update_first (user_data : User) (us : list User) :
  existsb (fun u => Z.eqb (u_user_id u) (u_user_id user_data)) us = true ->
  find (fun u => Z.eqb (u_user_id u) (u_user_id user_data)) (update_first user_data us)
  = Some user_data.
Proof.
  induction us as [|u us IH]; [discriminate|]. simpl.
  destruct (Z.eqb_spec (u_user_id u) (u_user_id user_data)) as [Heq|Hne]; simpl.
  - intros _. now rewrite Z.eqb_refl.
  - intros H. destruct (Z.eqb_spec (u_user_id u) (u_user_id user_data)); [contradiction|].
    now apply IH.
Qed.

Lemma find_update_first_other (user_data : User) (other : Z) (us : list User) :
  other <> u_user_id user_data ->
  find (fun u => Z.eqb (u_user_id u) other) (update_first user_data us)
  = find (fun u => Z.eqb (u_user_id u) other) us.
Proof.
  intros Hne. induction us as [|u us IH]; [reflexivity|]. simpl.
  destruct (Z.eqb_spec (u_user_id u) (u_user_id user_data)) as [Heq|Hu]; simpl.
  - destruct (Z.eqb_spec (u_user_id user_data) other) as [H1|H1]; [congruence|].
    destruct (Z.eqb_spec (u_user_id u) other) as [H2|H2]; [congruence|reflexivity].
  - now rewrite IH.
Qed.

Lemma find_app_last {A : Type} (f : A -> bool) (l : list A) (x : A) :
  find f (l ++ [x])
  = match find f l with
    | Some y => Some y
    | None => if f x then Some x else None
    end.
Proof.
  induction l as [|h l IH]; [reflexivity|]. simpl. now destruct (f h).
Qed.

Lemma existsb_find_none {A : Type} (f : A -> bool) (l : list A) :
  existsb f l = false -> find f l = None.
Proof.
  induction l as [|h l IH]; [reflexivity|]. simpl. destruct (f h); [discriminate|exact IH].
Qed.

Lemma add_user_users (user_id : Z) (un : option string) (fn : string) (ln : option string)
    (w : World) :
  map u_user_id (users (db (add_user E user_id un fn ln w)))
  = if existsb (fun u => Z.eqb (u_user_id u) user_id) (users (db w))
    then map u_user_id (users (db w))
    else map u_user_id (users (db w)) ++ [user_id].
Proof.
  unfold add_user. cbn [db add_log set_db users set_users].
  destruct (existsb _ _).
  - apply update_first_ids.
  - now rewrite map_app.
Qed.

Lemma add_user_NoDup (user_id : Z) (un : option string) (fn : string) (ln : option string)
    (w : World) :
  NoDup (map u_user_id (users (db w))) ->
  NoDup (map u_user_id (users (db (add_user E user_id un fn ln w)))).
Proof.
  intros Hnd. rewrite add_user_users.
  destruct (existsb _ _) eqn:Hex; [exact Hnd|].
  apply NoDup_app; [exact Hnd|repeat constructor; intros []|].
  intros n Hn [<-|[]]. apply in_map_iff in Hn. destruct Hn as [u [Hu Hin]].
  assert (Htrue : existsb (fun u0 => Z.eqb (u_user_id u0) (u_user_id u)) (users (db w)) = true).
  { apply existsb_exists. exists u. split; [assumption|apply Z.eqb_refl]. }
  rewrite Hu in Htrue. congruence.
Qed.

End Registry.

Section Reachable.

(** What one operation does to the users and to the tickets: users are
    added or updated by [add_user] alone, tickets are only appended. *)
Lemma step_users (self : RaffleBot) (w w' : World) :
  step self w w' -> unique_references w ->
  users (db w') = users (db w)
  \/ exists E user_id un fn ln, w' = add_user E user_id un fn ln w.
Proof.
  intros Hstep Hu.
  destruct Hstep as [E0 uid un fn ln w|E0 uid ref tc am w|ref w|E0 uid tc ref w|E0 w
                    |E0 query uid ref w].
  - right. now exists E0, uid, un, fn, ln.
  - left. unfold add_pending_payment.
    destruct (insert_one_pending _ _) as [ps|[]]; reflexivity.
  - left. unfold remove_pending_payment. destruct (existsb _ _); reflexivity.
  - left. destruct (assign_tickets E0 uid tc ref w) as [w1 [numbers|]] eqn:Heq; simpl.
    + apply assign_tickets_some in Heq. destruct Heq as [k [_ Hall]].
      destruct Hall as [_ [_ [_ [_ [Hdb _]]]]]. now rewrite Hdb.
    + apply assign_tickets_none in Heq. destruct Heq as [Hdb _]. now rewrite Hdb.
  - left. now rewrite (check_payments_db E0).
  - left. destruct (confirm_payment_db E0 self query uid ref w Hu) as [Hdb|Hres].
    + now rewrite Hdb.
    + destruct Hres as [p [numbers [w1 [_ [_ [Hres Hdb]]]]]].
      destruct Hres as [_ [_ [_ [_ [_ [Hus _]]]]]]. now rewrite Hdb.
Qed.

Lemma step_tickets (self : RaffleBot) (w w' : World) :
  step self w w' -> unique_references w ->
  exists new, tickets (db w') = tickets (db w) ++ new.
Proof.
  intros Hstep Hu.
  destruct Hstep as [E0 uid un fn ln w|E0 uid ref tc am w|ref w|E0 uid tc ref w|E0 w
                    |E0 query uid ref w].
  - exists []. now rewrite List.app_nil_r.
  - exists []. rewrite List.app_nil_r. unfold add_pending_payment.
    destruct (insert_one_pending _ _) as [ps|[]]; reflexivity.
  - exists []. rewrite List.app_nil_r. unfold remove_pending_payment.
    destruct (existsb _ _); reflexivity.
  - destruct (assign_tickets E0 uid tc ref w) as [w1 [numbers|]] eqn:Heq; simpl.
    + apply assign_tickets_some in Heq. destruct Heq as [k [_ Hall]].
      destruct Hall as [_ [_ [_ [_ [Hdb _]]]]].
      exists (map (ticket_document E0 uid ref) numbers). now rewrite Hdb.
    + apply assign_tickets_none in Heq. destruct Heq as [Hdb _].
      exists []. now rewrite List.app_nil_r, Hdb.
  - exists []. now rewrite List.app_nil_r, (check_payments_db E0).
  - destruct (confirm_payment_db E0 self query uid ref w Hu) as [Hdb|Hres].
    + exists []. now rewrite List.app_nil_r, Hdb.
    + destruct Hres as [p [numbers [w1 [_ [_ [Hres Hdb]]]]]].
      destruct Hres as [_ [_ [_ [Ht _]]]].
      exists (map (ticket_document E0 (VInt uid) (VStr (p_reference p))) numbers).
      now rewrite Hdb.
Qed.

Lemma reachable_users_NoDup (self : RaffleBot) (w : World) :
  reachable self w -> NoDup (map u_user_id (users (db w))).
Proof.
  induction 1 as [w Hdb|w w' Hr IH Hstep].
  - rewrite Hdb. constructor.
  - apply reachable_store_invariant in Hr. destruct Hr as [_ [_ Hu]].
    destruct (step_users self w w' Hstep Hu) as [Heq|[E0 [uid [un [fn [ln ->]]]]]].
    + now rewrite Heq.
    + now apply add_user_NoDup.
Qed.

(** The supply in a state that satisfies the invariant of the stores. *)
Lemma available_numbers_exact (w : World) :
  store_invariant w ->
  Z.of_nat (List.length (available_numbers w)) = 1000 - get_total_tickets_sold w.
Proof.
  intros [Hnd [Hrange _]]. unfold available_numbers, get_total_tickets_sold.
  unfold sold_numbers in Hnd, Hrange.
  set (existing := map ticket_number (tickets (db w))) in *.
  set (free := fun n => negb (existsb (Z.eqb n) existing)).
  pose proof (filter_length free (py_range 1 1001)) as Hsplit.
  rewrite py_range_length in Hsplit.
  assert (Htaken : Permutation (filter (fun n => negb (free n)) (py_range 1 1001)) existing).
  { apply NoDup_Permutation; [apply NoDup_filter, NoDup_py_range|exact Hnd|].
    intros n. rewrite filter_In, In_py_range. unfold free. rewrite negb_involutive.
    rewrite existsb_exists. split.
    - intros [_ [m [Hm Heq]]]. apply Z.eqb_eq in Heq. now subst m.
    - intros Hn. split; [specialize (Hrange n Hn); lia|].
      exists n. split; [assumption|apply Z.eqb_refl]. }
  apply Permutation_length in Htaken. subst existing. rewrite length_map in Htaken.
  change (Z.to_nat (1001 - 1)) with 1000%nat in Hsplit. lia.
Qed.

End Reachable.

Section Sorting.

Context {A : Type}.
Variable key : A -> Z.

Lemma insert_by_perm (x : A) (l : list A) : Permutation (insert_by key x l) (x :: l).
Proof.
  induction l as [|h l IH]; [reflexivity|]. simpl.
  destruct (key x <=? key h); [reflexivity|].
  etransitivity; [apply perm_skip, IH|apply perm_swap].
Qed.

Lemma sort_by_perm (l : list A) : Permutation (sort_by key l) l.
Proof.
  induction l as [|h l IH]; [reflexivity|]. simpl.
  etransitivity; [apply insert_by_perm|now apply perm_skip].
Qed.

Lemma insert_by_sorted (x : A) (l : list A) :
  StronglySorted (fun a b => key a <= key b) l -> StronglySorted (fun a b => key a <= key b) (insert_by key x l).
Proof.
  induction l as [|h l IH]; intros Hs; simpl.
  - repeat constructor.
  - inversion Hs as [|? ? Hl Hh]; subst.
    destruct (Z.leb_spec (key x) (key h)) as [Hle|Hgt].
    + constructor; [exact Hs|]. constructor; [exact Hle|].
      apply Forall_forall. intros y Hy. rewrite Forall_forall in Hh.
      specialize (Hh y Hy). simpl in *. lia.
    + constructor; [now apply IH|].
      apply Forall_forall. intros y Hy.
      apply (Permutation_in _ (insert_by_perm x l)) in Hy. destruct Hy as [<-|Hy].
      * lia.
      * rewrite Forall_forall in Hh. now apply Hh.
Qed.

Lemma sort_by_sorted (l : list A) : StronglySorted (fun a b => key a <= key b) (sort_by key l).
Proof.
  induction l as [|h l IH]; [constructor|]. simpl. now apply insert_by_sorted.
Qed.

Lemma sorted_keys (l : list A) :
  StronglySorted (fun a b => key a <= key b) l -> StronglySorted Z.le (map key l).
Proof.
  induction 1 as [|h l Hs IH Hh]; [constructor|]. simpl. constructor; [exact IH|].
  apply Forall_forall. intros n Hn. apply in_map_iff in Hn. destruct Hn as [y [<- Hy]].
  rewrite Forall_forall in Hh. now apply Hh.
Qed.

(** The keys of a sorted list: in ascending order, and the keys of the
    list up to their order. *)
Lemma sort_by_keys (l : list A) :
  StronglySorted Z.le (map key (sort_by key l))
  /\ Permutation (map key (sort_by key l)) (map key l).
Proof.
  split; [apply sorted_keys, sort_by_sorted|apply Permutation_map, sort_by_perm].
Qed.

End Sorting.

Section StoreQueries.

Variable E : Env.

Lemma value_eqb_eq (a b : value) : value_eqb a b = true <-> a = b.
Proof.
  destruct a as [|m|s], b as [|n|t]; simpl; split; intros H;
    try discriminate; try reflexivity.
  - apply Z.eqb_eq in H. now subst.
  - inversion H. apply Z.eqb_refl.
  - apply String.eqb_eq in H. now subst.
  - inversion H. apply String.eqb_refl.
Qed.

Lemma shown_user_tickets (l : list Ticket) :
  shown_numbers (map user_ticket_document l) = map VInt (map ticket_number l).
Proof. unfold shown_numbers. rewrite !map_map. reflexivity. Qed.

Lemma get_user_tickets_numbers (user_id : value) (w : World) :
  exists ns,
    shown_numbers (get_user_tickets user_id w) = map VInt ns
    /\ StronglySorted Z.le ns
    /\ Permutation ns (owned_numbers user_id w).
Proof.
  unfold get_user_tickets, owned_numbers.
  set (mine := filter (fun t => value_eqb (t_user_id t) user_id) (tickets (db w))).
  exists (map ticket_number (sort_by ticket_number mine)).
  split; [apply shown_user_tickets|]. apply sort_by_keys.
Qed.

Lemma owned_numbers_app (user_id : value) (w w' : World) (new : list Ticket) :
  tickets (db w') = tickets (db w) ++ new ->
  Forall (fun t => t_user_id t = user_id) new ->
  owned_numbers user_id w' = owned_numbers user_id w ++ map ticket_number new.
Proof.
  intros Ht Hall. unfold owned_numbers. rewrite Ht, filter_app, map_app. f_equal. f_equal.
  clear Ht. induction Hall as [|t new Ht' _ IH]; [reflexivity|]. simpl.
  assert (Heq : value_eqb (t_user_id t) user_id = true) by now apply value_eqb_eq.
  now rewrite Heq, IH.
Qed.

Lemma find_delete_other (r r' : string) (ps : list PendingPayment) :
  r' <> r ->
  find (fun p => value_eqb (VStr (p_reference p)) (VStr r')) (delete_one (VStr r) ps)
  = find (fun p => value_eqb (VStr (p_reference p)) (VStr r')) ps.
Proof.
  intros Hne. induction ps as [|p ps IH]; [reflexivity|].
  cbn [delete_one find value_eqb] in IH |- *.
  destruct (String.eqb_spec (p_reference p) r) as [Heq|Hp].
  - destruct (String.eqb_spec (p_reference p) r') as [Heq'|_]; [congruence|reflexivity].
  - cbn [find value_eqb]. now rewrite IH.
Qed.

Lemma delete_one_last (p : PendingPayment) (ps : list PendingPayment) :
  ~ In (p_reference p) (map p_reference ps) ->
  delete_one (VStr (p_reference p)) (ps ++ [p]) = ps.
Proof.
  induction ps as [|q ps IH]; intros Hnot; cbn [app delete_one value_eqb].
  - now rewrite String.eqb_refl.
  - destruct (String.eqb_spec (p_reference q) (p_reference p)) as [Heq|Hne].
    + elim Hnot. left. exact Heq.
    + f_equal. apply IH. intros Hin. apply Hnot. now right.
Qed.

Lemma delete_one_length (r : string) (ps : list PendingPayment) :
  In r (map p_reference ps) ->
  S (List.length (delete_one (VStr r) ps)) = List.length ps.
Proof.
  induction ps as [|q ps IH]; [intros []|]. cbn [delete_one value_eqb map In].
  destruct (String.eqb_spec (p_reference q) r) as [Heq|Hne]; [reflexivity|].
  intros [H|H]; [contradiction|]. cbn [List.length]. now rewrite IH.
Qed.

Lemma pending_absent_existsb (r : string) (ps : list PendingPayment) :
  ~ In r (map p_reference ps) ->
  existsb (fun q => String.eqb (p_reference q) r) ps = false.
Proof.
  intros Hnot. destruct (existsb _ ps) eqn:Hex; [|reflexivity].
  apply existsb_exists in Hex. destruct Hex as [q [Hin Heq]].
  apply String.eqb_eq in Heq. elim Hnot. apply in_map_iff. now exists q.
Qed.

(** A fresh reference is inserted at the end. *)
Lemma add_pending_payment_fresh (user_id : Z) (r : string) (k a : Z) (w : World) :
  ~ is_pending r w ->
  db (fst (add_pending_payment E user_id r k a w))
  = set_pending_payments
      (pending_payments (db w)
       ++ [{| p_user_id := user_id; p_reference := r; p_ticket_count := k; p_amount := a;
              p_created_at := utcnow E |}])
      (db w).
Proof.
  intros Hnot. unfold add_pending_payment, insert_one_pending.
  cbn [p_reference]. now rewrite (pending_absent_existsb r _ Hnot).
Qed.

(** A failed allocation has drawn nothing from the generator. *)
Lemma assign_tickets_none_cursor (u tc r : value) (w w' : World) :
  assign_tickets E u tc r w = (w', None) -> cursor w' = cursor w.
Proof.
  intros H. destruct tc as [|k|s];
    try (unfold assign_tickets in H; inversion H; subst; reflexivity).
  destruct (Z.ltb (Z.of_nat (List.length (available_numbers w))) k) eqn:Hlt.
  { unfold assign_tickets in H. rewrite Hlt in H. inversion H; subst. reflexivity. }
  destruct (Z.ltb k 0) eqn:Hneg.
  { unfold assign_tickets in H. rewrite Hlt, Hneg in H. inversion H; subst. reflexivity. }
  destruct (Z.eq_dec k 0) as [->|Hk0].
  { unfold assign_tickets in H. rewrite Hlt in H. cbn in H. inversion H; subst; simpl.
    apply Nat.add_0_r. }
  apply Z.ltb_ge in Hlt. apply Z.ltb_ge in Hneg.
  destruct (assign_tickets_enough E u r k w) as [numbers' [w'' [Heq Hall]]]; [lia|].
  rewrite Heq in H. discriminate.
Qed.

End StoreQueries.

Section Reports.

Variable E : Env.
Variable environ : string -> option string.

Lemma distinct_In (v : value) (vs : list value) : In v (distinct vs) <-> In v vs.
Proof.
  induction vs as [|x vs IH]; [reflexivity|]. simpl.
  destruct (existsb (value_eqb x) vs) eqn:Hex.
  - rewrite IH. split; [now right|]. intros [<-|H]; [|exact H].
    apply existsb_exists in Hex. destruct Hex as [y [Hy Heq]].
    apply value_eqb_eq in Heq. now subst y.
  - simpl. now rewrite IH.
Qed.

Lemma distinct_NoDup (vs : list value) : NoDup (distinct vs).
Proof.
  induction vs as [|x vs IH]; [constructor|]. simpl.
  destruct (existsb (value_eqb x) vs) eqn:Hex; [exact IH|].
  constructor; [|exact IH]. rewrite distinct_In. intros Hin.
  assert (Htrue : existsb (value_eqb x) vs = true).
  { apply existsb_exists. exists x. split; [exact Hin|now apply value_eqb_eq]. }
  congruence.
Qed.

Lemma distinct_length (vs : list value) :
  (List.length (distinct vs) <= List.length vs)%nat.
Proof.
  induction vs as [|x vs IH]; [reflexivity|]. simpl.
  destruct (existsb (value_eqb x) vs); simpl; lia.
Qed.

(** The statistics are read from the stores alone. *)
Lemma get_stats_db (w w' : World) : db w' = db w -> get_stats environ w' = get_stats environ w.
Proof. intros H. unfold get_stats. now rewrite H. Qed.

(** Under the unique index on the users, a ticket is joined with the record
    of its owner, if there is one. *)
Lemma user_info_cases (t : Ticket) (w : World) :
  NoDup (map u_user_id (users (db w))) ->
  (registered_owner w t = false /\ user_info t w = [])
  \/ (registered_owner w t = true /\ exists u, user_info t w = [u]).
Proof.
  unfold registered_owner, user_info. induction (users (db w)) as [|h us IH]; intros Hnd.
  - left. split; reflexivity.
  - simpl in Hnd. inversion Hnd as [|? ? Hnot Hnd']; subst. specialize (IH Hnd').
    cbn [existsb filter].
    destruct (value_eqb (t_user_id t) (VInt (u_user_id h))) eqn:Hh.
    + right. split; [reflexivity|]. exists h. f_equal.
      destruct IH as [[_ Hnil]|[Hreg _]]; [exact Hnil|].
      apply existsb_exists in Hreg. destruct Hreg as [u [Hin Hu]].
      apply value_eqb_eq in Hh. apply value_eqb_eq in Hu. rewrite Hh in Hu.
      inversion Hu as [Hid]. elim Hnot. rewrite Hid. now apply in_map.
    + exact IH.
Qed.

Lemma unwound_tickets (w : World) :
  NoDup (map u_user_id (users (db w))) ->
  map fst (flat_map (fun t => map (pair t) (user_info t w)) (tickets (db w)))
  = filter (registered_owner w) (tickets (db w)).
Proof.
  intros Hnd. induction (tickets (db w)) as [|t ts IH]; [reflexivity|].
  cbn [flat_map filter]. rewrite map_app, IH.
  destruct (user_info_cases t w Hnd) as [[Hreg Hnil]|[Hreg [u Hu]]]; rewrite Hreg.
  - now rewrite Hnil.
  - now rewrite Hu.
Qed.

Lemma shown_all_tickets (l : list (Ticket * User)) :
  shown_numbers (map all_tickets_row l) = map VInt (map (fun j => ticket_number (fst j)) l).
Proof. unfold shown_numbers. rewrite !map_map. reflexivity. Qed.

Lemma get_all_tickets_keys (w : World) :
  Forall (fun row => iter_dict row
                     = [VStr "user_id"; VStr "ticket_number"; VStr "username";
                        VStr "first_name"])
    (get_all_tickets w).
Proof.
  unfold get_all_tickets. apply Forall_forall. intros row Hrow.
  apply in_map_iff in Hrow. now destruct Hrow as [j [<- _]].
Qed.

End Reports.

Section Gateway.

Variable E : Env.

(** [get_transaction] asks for the URL that [verify_payment] asks for. *)
Lemma get_transaction_success (reference : value) (w : World) (data : json) :
  snd (get_transaction E reference w) = Ok data ->
  json_get data "status" JNull = Ok (JStr "success") ->
  reports_success (session_get E (verify_url reference)).
Proof.
  unfold get_transaction. fold (verify_url reference).
  destruct (session_get E (verify_url reference)) as [code [result|]|e]; cbn [transaction_response].
  - destruct (code =? 200) eqn:Hcode; cbn [negb].
    + apply Z.eqb_eq in Hcode. subst code.
      destruct (json_get result "status" JNull) as [status|e] eqn:Hstatus.
      * destruct (json_truthy status) eqn:Htruthy.
        -- destruct result as [| | | | |fields]; try discriminate Hstatus.
           cbn [json_get]. destruct (fields_get "data" fields) as [d|] eqn:Hd.
           ++ cbn [snd]. intros Hdata Hs. inversion Hdata; subst d.
              exists (JDict fields), status, data. repeat split; try assumption.
              cbn [json_get]. now rewrite Hd.
           ++ cbn [snd]. intros Hdata Hs. inversion Hdata; subst data. discriminate Hs.
        -- cbn [snd]. intros Hdata Hs. inversion Hdata; subst data. discriminate Hs.
      * destruct (is_SSLError e); [|destruct (is_RequestException e)]; cbn [snd];
          intros Hdata Hs; inversion Hdata; subst data; discriminate Hs.
    + cbn [snd]. intros Hdata Hs. inversion Hdata; subst data. discriminate Hs.
  - destruct (code =? 200); cbn [negb snd]; intros Hdata Hs;
      inversion Hdata; subst data; discriminate Hs.
  - destruct (is_SSLError e); [|destruct (is_RequestException e)]; cbn [snd];
      intros Hdata Hs; inversion Hdata; subst data; discriminate Hs.
Qed.

Lemma reports_success_transaction (reference : value) (w : World) :
  reports_success (session_get E (verify_url reference)) ->
  exists data,
    snd (get_transaction E reference w) = Ok data
    /\ json_get data "status" JNull = Ok (JStr "success").
Proof.
  intros [result [status [data [Hr [Hstatus [Htruthy [Hdata Hs]]]]]]].
  exists data. split; [|exact Hs].
  unfold get_transaction. fold (verify_url reference). rewrite Hr.
  cbn [transaction_response Z.eqb Pos.eqb negb]. rewrite Hstatus, Htruthy.
  destruct result as [| | | | |fields]; try discriminate Hstatus.
  cbn [json_get] in Hdata |- *. destruct (fields_get "data" fields) as [d|].
  - now rewrite Hdata.
  - inversion Hdata; subst data. discriminate Hs.
Qed.

Lemma reports_success_verify (reference : value) (w : World) :
  py_not reference || is_placeholder (lower (strip (py_str reference))) = false ->
  reports_success (session_get E (verify_url reference)) ->
  snd (verify_payment E reference w) = Ok true.
Proof.
  intros Hguard [result [status [data [Hr [Hstatus [Htruthy [Hdata Hs]]]]]]].
  unfold verify_payment. rewrite Hguard. fold (verify_url reference). rewrite Hr.
  cbn [verify_response Z.eqb Pos.eqb negb]. rewrite Hstatus, Htruthy, Hdata, Hs.
  reflexivity.
Qed.

End Gateway.

Section Routing.

(** ** [replace] *)

Lemma replace_from_skip (old new s1 s2 : string) :
  replace_from old new (String.length s1) (String.append s1 s2) = replace_from old new 0 s2.
Proof.
  induction s1 as [|c s1 IH]; [|exact IH]. simpl. now destruct s2.
Qed.

Lemma replace_absent (old new s : string) :
  occurs old s = false -> replace_from old new 0 s = s.
Proof.
  induction s as [|c s IH]; [reflexivity|]. cbn [occurs replace_from]. intros H.
  apply orb_false_iff in H. destruct H as [Hp Hs]. rewrite Hp. now rewrite IH.
Qed.

Lemma replace_length_le (old : string) (skip : nat) (s : string) :
  (String.length (replace_from old EmptyString skip s) <= String.length s)%nat.
Proof.
  revert skip. induction s as [|c s IH]; intros skip; [reflexivity|]. cbn [replace_from].
  destruct skip as [|n].
  - destruct (String.prefix old (String c s)); cbn [String.append String.length].
    + specialize (IH (String.length old - 1)%nat). lia.
    + specialize (IH 0%nat). lia.
  - specialize (IH n). cbn [String.length]. lia.
Qed.

Lemma replace_shrinks (old s : string) :
  old <> EmptyString -> occurs old s = true ->
  (String.length (replace_from old EmptyString 0 s) < String.length s)%nat.
Proof.
  intros Hold. induction s as [|c s IH]; cbn [occurs replace_from].
  - destruct old; [now elim Hold|discriminate].
  - destruct (String.prefix old (String c s)) eqn:Hp; cbn [orb String.append String.length].
    + intros _. pose proof (replace_length_le old (String.length old - 1) s). lia.
    + intros H. specialize (IH H). lia.
Qed.

Lemma prefix_append (s1 s2 : string) : String.prefix s1 (String.append s1 s2) = true.
Proof.
  induction s1 as [|c s1 IH]; [now destruct s2|].
  cbn [String.append String.prefix]. destruct (ascii_dec c c) as [_|Hne]; [exact IH|].
  now elim Hne.
Qed.

(** An occurrence at the start is replaced, and the scan goes on behind
    it. *)
Lemma replace_prefix (old new s : string) :
  old <> EmptyString ->
  py_replace old new (String.append old s) = String.append new (py_replace old new s).
Proof.
  intros Hold. unfold py_replace. destruct old as [|c old]; [now elim Hold|].
  pose proof (prefix_append (String c old) s) as Hp.
  cbn [String.append] in Hp |- *. cbn [replace_from]. rewrite Hp.
  cbn [String.length]. rewrite Nat.sub_1_r. cbn [Nat.pred].
  now rewrite replace_from_skip.
Qed.

(** ** [split] *)

Lemma split_free (sep : ascii) (s : string) : free_of sep s = true -> py_split sep s = [s].
Proof.
  induction s as [|c s IH]; [reflexivity|]. cbn [free_of py_split]. intros H.
  apply andb_true_iff in H. destruct H as [Hc Hs]. apply negb_true_iff in Hc.
  now rewrite Hc, (IH Hs).
Qed.

Lemma split_app_sep (sep : ascii) (s1 s2 : string) :
  free_of sep s1 = true ->
  py_split sep (String.append s1 (String sep s2)) = s1 :: py_split sep s2.
Proof.
  induction s1 as [|c s1 IH]; cbn [free_of String.append py_split]; intros H.
  - now rewrite Ascii.eqb_refl.
  - apply andb_true_iff in H. destruct H as [Hc Hs]. apply negb_true_iff in Hc.
    now rewrite Hc, (IH Hs).
Qed.

Lemma all_digits_free (sep : ascii) (s : string) :
  is_digit sep = false -> all_digits s = true -> free_of sep s = true.
Proof.
  intros Hsep. induction s as [|c s IH]; [reflexivity|]. cbn [all_digits free_of]. intros H.
  apply andb_true_iff in H. destruct H as [Hc Hs]. rewrite (IH Hs), andb_true_r.
  apply negb_true_iff. destruct (Ascii.eqb_spec c sep) as [->|_]; [congruence|reflexivity].
Qed.

(** [str(n)] is made of digits, behind a minus sign when [n] is negative. *)
Lemma py_str_int_form (n : Z) :
  exists ds,
    isdigit ds = true
    /\ py_str (VInt n) = (if n <? 0 then String "-" ds else ds).
Proof.
  assert (Hpos : forall p, isdigit (NilEmpty.string_of_uint (Pos.to_uint p)) = true).
  { intros p. pose proof (string_of_uint_digits (Pos.to_uint p)) as Hd.
    pose proof (DecimalPos.Unsigned.to_uint_nonnil p) as Hnn.
    destruct (Pos.to_uint p); [now elim Hnn|exact Hd..]. }
  assert (Hnz : forall p, NilZero.string_of_uint (Pos.to_uint p)
                          = NilEmpty.string_of_uint (Pos.to_uint p)).
  { intros p. pose proof (DecimalPos.Unsigned.to_uint_nonnil p) as Hnn.
    unfold NilZero.string_of_uint. destruct (Pos.to_uint p); [now elim Hnn|reflexivity..]. }
  destruct n as [|p|p].
  - exists "0". split; reflexivity.
  - exists (NilEmpty.string_of_uint (Pos.to_uint p)). split; [apply Hpos|].
    cbn [py_str Z.to_int NilZero.string_of_int Z.ltb Z.compare]. apply Hnz.
  - exists (NilEmpty.string_of_uint (Pos.to_uint p)). split; [apply Hpos|].
    cbn [py_str Z.to_int NilZero.string_of_int Z.ltb Z.compare]. now rewrite Hnz.
Qed.

Lemma isdigit_all_digits (s : string) : isdigit s = true -> all_digits s = true.
Proof. destruct s; [discriminate|trivial]. Qed.

Lemma py_str_free (sep : ascii) (n : Z) :
  is_digit sep = false -> Ascii.eqb "-" sep = false -> free_of sep (py_str (VInt n)) = true.
Proof.
  intros Hsep Hminus. destruct (py_str_int_form n) as [ds [Hd ->]].
  apply isdigit_all_digits in Hd. pose proof (all_digits_free sep ds Hsep Hd) as Hfree.
  destruct (n <? 0); [|exact Hfree]. cbn [free_of]. now rewrite Hminus, Hfree.
Qed.

(** The branch of [button_handler] for the callback data [buy_<piece>]. *)
Lemma button_handler_buy_piece (self : RaffleBot) (query : CallbackQuery) (piece : string)
    (n : Z) :
  free_of "_" piece = true -> py_int piece = Ok n ->
  String.eqb (String.append "buy_" piece) "buy_tickets" = false ->
  button_handler self query (String.append "buy_" piece)
  = Calls (InitiatePayment (from_user_id query) n).
Proof.
  intros Hfree Hint Hne. unfold button_handler. rewrite Hne.
  change (String.eqb (String.append "buy_" piece) "my_tickets") with false.
  change (String.eqb (String.append "buy_" piece) "raffle_info") with false.
  assert (Hstart : startswith (String.append "buy_" piece) "buy_" = true).
  { unfold startswith. cbn. now destruct piece. }
  rewrite Hstart.
  change (String.append "buy_" piece) with (String.append "buy" (String "_" piece)).
  rewrite (split_app_sep "_" "buy" piece eq_refl).
  rewrite (split_free "_" piece Hfree). now rewrite Hint.
Qed.

(** The callback data of a count button is no other button's, and its
    count is read back. *)
Lemma button_handler_buy (self : RaffleBot) (query : CallbackQuery) (n : Z) :
  button_handler self query (String.append "buy_" (py_str (VInt n)))
  = Calls (InitiatePayment (from_user_id query) n).
Proof.
  apply button_handler_buy_piece.
  - apply py_str_free; reflexivity.
  - apply py_int_py_str.
  - destruct (py_str_int_form n) as [ds [Hd ->]].
    destruct ds as [|c ds]; [discriminate|]. cbn [isdigit all_digits] in Hd.
    apply andb_true_iff in Hd. destruct Hd as [Hc _].
    destruct (n <? 0); [reflexivity|]. cbn.
    destruct (Ascii.eqb_spec c "t") as [->|_]; [discriminate Hc|reflexivity].
Qed.

Lemma concat_singletons {A B : Type} (f : A -> B) (l : list A) :
  List.concat (map (fun x => [f x]) l) = map f l.
Proof. induction l as [|x l IH]; [reflexivity|]. simpl. now rewrite IH. Qed.

(** ** [ADMIN_IDS] *)


Lemma strip_space_digits (ds : string) :
  isdigit ds = true -> strip (String " " ds) = ds /\ strip ds = ds.
Proof.
  intros Hd. apply isdigit_all_digits in Hd. apply all_digits_no_space in Hd.
  split; [|now apply strip_no_space].
  unfold strip. cbn [lstrip]. change (is_space " ") with true. cbv iota.
  now apply strip_no_space.
Qed.

Lemma py_str_nonneg (n : Z) :
  0 <= n -> isdigit (py_str (VInt n)) = true.
Proof.
  intros Hn. destruct (py_str_int_form n) as [ds [Hd Heq]]. rewrite Heq.
  destruct (Z.ltb_spec n 0); [lia|exact Hd].
Qed.

(** The pieces of a list of ids written with [", "] between them. *)
Lemma split_joined_ids (n : Z) (ids : list Z) :
  py_split "," (join ", " (map (fun i => py_str (VInt i)) (n :: ids)))
  = py_str (VInt n) :: map (fun i => String " " (py_str (VInt i))) ids.
Proof.
  revert n. induction ids as [|m ids IH]; intros n.
  - cbn [map join]. apply split_free. apply py_str_free; reflexivity.
  - change (join ", " (map (fun i => py_str (VInt i)) (n :: m :: ids)))
      with (String.append (py_str (VInt n))
              (String "," (String " " (join ", " (map (fun i => py_str (VInt i)) (m :: ids)))))).
    rewrite split_app_sep by (apply py_str_free; reflexivity).
    f_equal. cbn [py_split]. change (Ascii.eqb " " ",") with false. cbv iota.
    rewrite IH. reflexivity.
Qed.

End Routing.

Section AdminIds.



Lemma comprehension_padded_ids (ids : list Z) :
  Forall (fun n => 0 <= n) ids ->
  comprehension (fun id => py_int (strip id))
    (filter (fun id => isdigit (strip id))
       (map (fun i => String " " (py_str (VInt i))) ids))
  = Ok ids.
Proof.
  induction 1 as [|n ids Hn _ IH]; [reflexivity|]. cbn [map filter].
  destruct (strip_space_digits _ (py_str_nonneg n Hn)) as [Hstrip _].
  rewrite Hstrip, (py_str_nonneg n Hn). cbn [comprehension].
  now rewrite Hstrip, py_int_py_str, IH.
Qed.

End AdminIds.

Section Menus.

(** The rows of [get_user_tickets] have no key [2]. *)
Lemma show_my_tickets_shape (self : RaffleBot) (query : CallbackQuery) (user_id : Z)
    (w : World) :
  show_my_tickets self query user_id w
  = match owned_numbers (VInt user_id) w with
    | [] => Ok (EditMenu query TextNoTickets (Some back_keyboard))
    | _ :: _ => Err KeyError
    end.
Proof.
  unfold show_my_tickets, get_user_tickets, owned_numbers.
  set (mine := filter (fun t => value_eqb (t_user_id t) (VInt user_id)) (tickets (db w))).
  pose proof (sort_by_perm ticket_number mine) as Hperm.
  destruct mine as [|t ts]; [reflexivity|].
  destruct (sort_by ticket_number (t :: ts)) as [|t0 ts0] eqn:Hs.
  - apply Permutation_nil in Hperm. discriminate Hperm.
  - reflexivity.
Qed.

(** The counts on the buttons of the purchase menu. *)
Lemma offered_counts (self : RaffleBot) (query : CallbackQuery) (w : World) (count : Z) :
  (exists b, In b (buttons_of (show_buy_tickets self query w))
             /\ offered_count b = Some count)
  <-> In count [1; 2; 5; 10] /\ count <= MAX_TICKETS self - get_total_tickets_sold w.
Proof.
  unfold show_buy_tickets.
  set (available_tickets := MAX_TICKETS self - get_total_tickets_sold w).
  split.
  - intros [b [Hb Hcount]]. destruct (available_tickets <=? 0); [destruct Hb|].
    cbn [buttons_of] in Hb. rewrite concat_app, concat_singletons in Hb.
    apply in_app_or in Hb. destruct Hb as [Hb|Hb].
    + apply in_map_iff in Hb. destruct Hb as [c [<- Hc]].
      cbn [offered_count label] in Hcount. inversion Hcount; subst c.
      apply filter_In in Hc. destruct Hc as [Hin Hle]. apply Z.leb_le in Hle. now split.
    + cbn in Hb. destruct Hb as [<-|[]]. discriminate Hcount.
  - intros [Hin Hle].
    assert (Hpos : 1 <= count) by (cbn in Hin; lia).
    destruct (Z.leb_spec available_tickets 0) as [Hsold|_]; [lia|].
    cbn [buttons_of]. rewrite concat_app, concat_singletons.
    eexists. split.
    + apply in_or_app. left. apply in_map_iff. exists count. split; [reflexivity|].
      apply filter_In. split; [exact Hin|]. now apply Z.leb_le.
    + reflexivity.
Qed.

End Menus.

Section Images.

Variable E : Env.

(** The images sent by chat id never fail the handler either. *)
Lemma run_send_ticket_images (chat_id : value) (numbers : list Z) (w : World) :
  exists w',
    run E (_send_ticket_images E chat_id numbers) w = (w', Ok tt) /\
    db w' = db w /\
    chat w' = chat w ++ map (SendPhoto chat_id) (filter (renders E) numbers).
Proof.
  revert w. induction numbers as [|n ns IH]; intros w.
  - exists w. simpl. now rewrite List.app_nil_r.
  - unfold run. cbn [_send_ticket_images]. unfold bind at 1.
    rewrite run_res_bind. unfold try_except. rewrite run_res_catch.
    cbn [filter]. destruct (renders E n).
    + unfold await at 1. cbn [run_res].
      destruct (outcome E (SendPhoto chat_id n)) as [[]|e]; cbn [run_res exec].
      * destruct (IH (add_chat (SendPhoto chat_id n) w)) as [w' [Hrun [Hdb Hchat]]].
        unfold run in Hrun. rewrite Hrun. exists w'. repeat split; [exact Hdb|].
        rewrite Hchat. simpl. now rewrite <- List.app_assoc.
      * destruct (IH (add_log (LogImageFailed n e) (add_chat (SendPhoto chat_id n) w)))
          as [w' [Hrun [Hdb Hchat]]].
        unfold run in Hrun. rewrite Hrun. exists w'. repeat split; [exact Hdb|].
        rewrite Hchat. simpl. now rewrite <- List.app_assoc.
    + unfold raise at 1. cbn [run_res exec].
      destruct (IH (add_log (LogImageFailed n RenderError) w)) as [w' [Hrun [Hdb Hchat]]].
      unfold run in Hrun. rewrite Hrun. exists w'. repeat split; assumption.
Qed.

End Images.

(** * The further properties *)

(** X1.  [add_user], then the lookup of the user: the record found carries the
    data just given, whether the user was known or not; the records of the
    other users, the tickets and the pending payments are what they
    were. *)
Theorem add_user_then_find (E : Env) (user_id : Z) (un : option string) (fn : string)
    (ln : option string) (w : World) :
  let w' := add_user E user_id un fn ln w in
  find_user user_id w'
  = Some {| u_user_id := user_id; username := un; first_name := fn; last_name := ln;
            u_created_at := utcnow E |}
  /\ (forall other, other <> user_id -> find_user other w' = find_user other w)
  /\ tickets (db w') = tickets (db w)
  /\ pending_payments (db w') = pending_payments (db w).
Proof.
  cbv zeta. unfold find_user, add_user.
  cbn [db add_log set_db users set_users tickets pending_payments].
  set (user_data := {| u_user_id := user_id; username := un; first_name := fn;
                       last_name := ln; u_created_at := utcnow E |}).
  change user_id with (u_user_id user_data) at 1 2.
  split; [|split; [|split; reflexivity]].
  - destruct (existsb _ _) eqn:Hex.
    + now apply find_update_first.
    + rewrite find_app_last, (existsb_find_none _ _ Hex). now rewrite Z.eqb_refl.
  - intros other Hne. destruct (existsb _ _) eqn:Hex.
    + now apply find_update_first_other.
    + rewrite find_app_last. destruct (find _ _); [reflexivity|].
      cbn [u_user_id user_data]. destruct (Z.eqb_spec user_id other); [congruence|reflexivity].
Qed.

(** X2.  In every state the system can reach there is one record per user: no
    two records share a user id, and the lookup of a stored user's id finds
    that record. *)
Theorem reachable_one_record_per_user (self : RaffleBot) (w : World) :
  reachable self w ->
  NoDup (map u_user_id (users (db w)))
  /\ forall u, In u (users (db w)) -> find_user (u_user_id u) w = Some u.
Proof.
  intros Hr. apply reachable_users_NoDup in Hr. split; [exact Hr|].
  unfold find_user. induction (users (db w)) as [|h us IH]; [intros u []|].
  simpl in Hr. inversion Hr as [|? ? Hnot Hnd]; subst.
  intros u [->|Hin]; simpl.
  - now rewrite Z.eqb_refl.
  - destruct (Z.eqb_spec (u_user_id h) (u_user_id u)) as [Heq|Hne].
    + elim Hnot. rewrite Heq. now apply in_map.
    + now apply IH.
Qed.

Lemma reachable_one_record_per_user_witness :
  NoDup (map u_user_id (users (db world_registered)))
  /\ forall u, In u (users (db world_registered)) ->
               find_user (u_user_id u) world_registered = Some u.
Proof.
  apply (reachable_one_record_per_user bot_default world_registered).
  apply (reachable_step bot_default world_start); [|apply step_add_user].
  apply reachable_start. reflexivity.
Defined.

(** X3.  [add_pending_payment] with a reference that is not pending, then
    [get_pending_payment_by_reference]: the tuple read back is the one
    written, and the lookup of any other reference is what it was. *)
Theorem add_pending_payment_then_get (E : Env) (user_id : Z) (r : string) (k a : Z)
    (w : World) :
  ~ is_pending r w ->
  let w' := fst (add_pending_payment E user_id r k a w) in
  get_pending_payment_by_reference (VStr r) w' = Some (VInt user_id, VStr r, VInt k, VInt a)
  /\ forall r', r' <> r ->
       get_pending_payment_by_reference (VStr r') w'
       = get_pending_payment_by_reference (VStr r') w.
Proof.
  intros Hnot w'. unfold get_pending_payment_by_reference. subst w'.
  rewrite (add_pending_payment_fresh E user_id r k a w Hnot).
  cbn [pending_payments set_pending_payments]. split.
  - rewrite find_app_last, (find_pending_none r _ Hnot).
    cbn [value_eqb p_reference]. now rewrite String.eqb_refl.
  - intros r' Hne. rewrite find_app_last.
    destruct (find _ (pending_payments (db w))); [reflexivity|].
    cbn [value_eqb p_reference]. destruct (String.eqb_spec r r'); [congruence|reflexivity].
Qed.

Lemma add_pending_payment_then_get_witness :
  get_pending_payment_by_reference (VStr "R2")
    (fst (add_pending_payment env_paid 222 "R2" 2 2000 world_R1))
  = Some (VInt 222, VStr "R2", VInt 2, VInt 2000).
Proof.
  apply (add_pending_payment_then_get env_paid 222 "R2" 2 2000 world_R1).
  vm_compute. intros [H|[]]. discriminate H.
Defined.

(** X4.  [remove_pending_payment], then [get_pending_payment_by_reference]:
    under the unique index the reference removed is not found any more,
    the lookup of any other reference is what it was, and users and
    tickets are untouched. *)
Theorem remove_pending_payment_then_get (r : string) (w : World) :
  unique_references w ->
  let w' := remove_pending_payment (VStr r) w in
  get_pending_payment_by_reference (VStr r) w' = None
  /\ (forall r', r' <> r ->
        get_pending_payment_by_reference (VStr r') w'
        = get_pending_payment_by_reference (VStr r') w)
  /\ users (db w') = users (db w) /\ tickets (db w') = tickets (db w).
Proof.
  intros Hu w'. subst w'. unfold remove_pending_payment.
  destruct (existsb _ _) eqn:Hex.
  - split; [|split; [|split; reflexivity]].
    + apply get_pending_payment_absent. unfold is_pending.
      cbn [db add_log set_db pending_payments set_pending_payments].
      now apply delete_one_absent.
    + intros r' Hne. unfold get_pending_payment_by_reference.
      cbn [db add_log set_db pending_payments set_pending_payments].
      now rewrite find_delete_other.
  - split; [|split; [|split; reflexivity]].
    + unfold get_pending_payment_by_reference. cbn [db add_log].
      now rewrite (existsb_find_none _ _ Hex).
    + intros r' _. reflexivity.
Qed.

Lemma remove_pending_payment_then_get_witness :
  get_pending_payment_by_reference (VStr "R1") (remove_pending_payment (VStr "R1") world_R1_R2)
  = None.
Proof.
  apply (remove_pending_payment_then_get "R1" world_R1_R2).
  unfold unique_references. vm_compute. repeat constructor.
  - intros [H|[]]. discriminate H.
  - intros [].
Defined.

(** X5.  A pending payment added under a fresh reference and removed again
    leaves the three stores as they were. *)
Theorem add_then_remove_pending_payment (E : Env) (user_id : Z) (r : string) (k a : Z)
    (w : World) :
  ~ is_pending r w ->
  db (remove_pending_payment (VStr r) (fst (add_pending_payment E user_id r k a w))) = db w.
Proof.
  intros Hnot.
  set (p := {| p_user_id := user_id; p_reference := r; p_ticket_count := k; p_amount := a;
               p_created_at := utcnow E |}).
  pose proof (add_pending_payment_fresh E user_id r k a w Hnot) as Hdb. fold p in Hdb.
  assert (Hpend : is_pending r (fst (add_pending_payment E user_id r k a w))).
  { unfold is_pending. rewrite Hdb. cbn [pending_payments set_pending_payments].
    rewrite map_app. apply in_or_app. right. now left. }
  rewrite (remove_pending_payment_present r _ Hpend).
  cbn [db add_log set_db]. rewrite Hdb. cbn [pending_payments set_pending_payments].
  change r with (p_reference p) at 1. rewrite (delete_one_last p _ Hnot).
  now destruct (db w).
Qed.

Lemma add_then_remove_pending_payment_witness :
  db (remove_pending_payment (VStr "R2")
        (fst (add_pending_payment env_paid 222 "R2" 2 2000 world_R1)))
  = db world_R1.
Proof.
  apply (add_then_remove_pending_payment env_paid 222 "R2" 2 2000 world_R1).
  vm_compute. intros [H|[]]. discriminate H.
Defined.

(** X6.  [assign_tickets] returns numbers exactly when the count is an integer
    between 1 and the number of free numbers: a count that is no integer,
    a count of zero or below and a count above the supply all end in
    [None]. *)
Theorem assign_tickets_succeeds_iff (E : Env) (u tc r : value) (w : World) :
  (exists numbers, snd (assign_tickets E u tc r w) = Some numbers)
  <-> exists k, tc = VInt k /\ 1 <= k <= Z.of_nat (List.length (available_numbers w)).
Proof.
  split.
  - intros [numbers H].
    destruct (assign_tickets E u tc r w) as [w' res] eqn:Heq. simpl in H. subst res.
    apply assign_tickets_some in Heq. destruct Heq as [k [-> Hall]].
    destruct Hall as [Hlen [Hk [Hnd [Hincl _]]]].
    exists k. split; [reflexivity|]. split; [exact Hk|].
    rewrite <- Hlen. apply Nat2Z.inj_le. now apply NoDup_incl_length.
  - intros [k [-> Hk]].
    destruct (assign_tickets_enough E u r k w Hk) as [numbers [w' [Heq _]]].
    exists numbers. now rewrite Heq.
Qed.

(** X7.  A call of [assign_tickets] that returns [None] has changed nothing but
    the log: the stores are the same, nothing was drawn from the generator,
    no request and no chat call was made. *)
Theorem assign_tickets_failure_changes_nothing (E : Env) (u tc r : value) (w : World) :
  snd (assign_tickets E u tc r w) = None ->
  let w' := fst (assign_tickets E u tc r w) in
  db w' = db w /\ cursor w' = cursor w /\ requests w' = requests w /\ chat w' = chat w.
Proof.
  intros H w'. subst w'.
  destruct (assign_tickets E u tc r w) as [w' res] eqn:Heq. simpl in H. subst res.
  pose proof (assign_tickets_none_cursor E u tc r w w' Heq) as Hc.
  apply assign_tickets_none in Heq. simpl. tauto.
Qed.

(** Zero tickets for R1. *)
Lemma assign_tickets_failure_changes_nothing_witness :
  let w' := fst (assign_tickets env_paid (VInt 111) (VInt 0) (VStr "R1") world_R1) in
  db w' = db world_R1 /\ cursor w' = cursor world_R1
  /\ requests w' = requests world_R1 /\ chat w' = chat world_R1.
Proof.
  apply (assign_tickets_failure_changes_nothing env_paid (VInt 111) (VInt 0) (VStr "R1")
           world_R1).
  vm_compute. reflexivity.
Defined.

(** X8.  In every state the system can reach, the numbers still free are 1000
    less the tickets sold, and a request for [k] tickets is served exactly
    when [k] is between 1 and that difference. *)
Theorem reachable_supply (self : RaffleBot) (E : Env) (u r : value) (k : Z) (w : World) :
  reachable self w ->
  Z.of_nat (List.length (available_numbers w)) = 1000 - get_total_tickets_sold w
  /\ ((exists numbers, snd (assign_tickets E u (VInt k) r w) = Some numbers)
      <-> 1 <= k <= 1000 - get_total_tickets_sold w).
Proof.
  intros Hr. apply reachable_store_invariant in Hr.
  pose proof (available_numbers_exact w Hr) as Hcount. split; [exact Hcount|].
  rewrite <- Hcount. split.
  - intros [numbers H].
    destruct (assign_tickets E u (VInt k) r w) as [w' res] eqn:Heq. simpl in H. subst res.
    apply assign_tickets_some in Heq. destruct Heq as [k' [Hk' Hall]].
    inversion Hk'; subst k'.
    destruct Hall as [Hlen [Hk [Hnd [Hincl _]]]]. split; [exact Hk|].
    rewrite <- Hlen. apply Nat2Z.inj_le. now apply NoDup_incl_length.
  - intros Hk. destruct (assign_tickets_enough E u r k w Hk) as [numbers [w' [Heq _]]].
    exists numbers. now rewrite Heq.
Qed.

Lemma reachable_supply_witness :
  Z.of_nat (List.length (available_numbers world_R1)) = 1000 - get_total_tickets_sold world_R1
  /\ ((exists numbers,
         snd (assign_tickets env_paid (VInt 111) (VInt 2) (VStr "R1") world_R1) = Some numbers)
      <-> 1 <= 2 <= 1000 - get_total_tickets_sold world_R1).
Proof.
  apply (reachable_supply bot_default env_paid (VInt 111) (VStr "R1") 2 world_R1).
  apply (reachable_step bot_default world_start); [|apply step_add_pending_payment].
  apply reachable_start. reflexivity.
Defined.

(** X9.  No operation takes a ticket back or changes one, and none removes a
    user: after a step from a reachable state the tickets are the tickets
    before, followed by the new ones, and every user id stored before is
    still stored. *)
Theorem step_keeps_tickets_and_users (self : RaffleBot) (w w' : World) :
  reachable self w -> step self w w' ->
  (exists new, tickets (db w') = tickets (db w) ++ new)
  /\ incl (map u_user_id (users (db w))) (map u_user_id (users (db w'))).
Proof.
  intros Hr Hstep. apply reachable_store_invariant in Hr. destruct Hr as [_ [_ Hu]].
  split; [now apply (step_tickets self)|].
  destruct (step_users self w w' Hstep Hu) as [Heq|[E0 [uid [un [fn [ln ->]]]]]].
  - rewrite Heq. apply incl_refl.
  - rewrite add_user_users. destruct (existsb _ _); [apply incl_refl|].
    apply incl_appl, incl_refl.
Qed.

(** The confirmation of R1 by its buyer. *)
Lemma step_keeps_tickets_and_users_witness :
  (exists new, tickets (db world_bought) = tickets (db world_registered_R1) ++ new)
  /\ incl (map u_user_id (users (db world_registered_R1)))
       (map u_user_id (users (db world_bought))).
Proof.
  apply (step_keeps_tickets_and_users bot_default world_registered_R1 world_bought).
  - apply (reachable_step bot_default world_registered); [|apply step_add_pending_payment].
    apply (reachable_step bot_default world_start); [|apply step_add_user].
    apply reachable_start. reflexivity.
  - apply step_confirm_payment.
Defined.

(** X10.  [get_user_tickets] returns the tickets of the user and no other, each
    once, in ascending order of their numbers. *)
Theorem get_user_tickets_sorted (user_id : value) (w : World) :
  exists ns,
    shown_numbers (get_user_tickets user_id w) = map VInt ns
    /\ StronglySorted Z.le ns
    /\ Permutation ns (owned_numbers user_id w)
    /\ Forall (fun row => doc_get "user_id" row = user_id) (get_user_tickets user_id w).
Proof.
  destruct (get_user_tickets_numbers user_id w) as [ns [Hs [Hsorted Hperm]]].
  exists ns. repeat split; try assumption.
  unfold get_user_tickets. apply Forall_forall. intros row Hrow.
  apply in_map_iff in Hrow. destruct Hrow as [t [<- Ht]].
  apply (Permutation_in _ (sort_by_perm ticket_number _)) in Ht.
  apply filter_In in Ht. destruct Ht as [_ Ht]. now apply value_eqb_eq in Ht.
Qed.

(** X11.  After a confirmation that the gateway accepts and the supply can
    serve, the buyer finds the tickets just bought: [get_user_tickets]
    shows, in ascending order, the numbers the buyer had and as many new
    numbers as were paid for. *)
Theorem confirm_payment_then_get_user_tickets (E : Env) (self : RaffleBot)
    (query : CallbackQuery) (user_id : Z) (p : PendingPayment) (w : World) :
  unique_references w -> In p (pending_payments (db w)) ->
  snd (verify_payment E (VStr (p_reference p)) w) = Ok true ->
  1 <= p_ticket_count p <= Z.of_nat (List.length (available_numbers w)) ->
  let w' := fst (run E (confirm_payment E self query user_id (p_reference p)) w) in
  exists numbers ns,
    Z.of_nat (List.length numbers) = p_ticket_count p
    /\ shown_numbers (get_user_tickets (VInt user_id) w') = map VInt ns
    /\ StronglySorted Z.le ns
    /\ Permutation ns (owned_numbers (VInt user_id) w ++ numbers).
Proof.
  intros Hu Hin Hv Hk w'.
  destruct (confirm_payment_tickets E self query user_id p w Hu Hin Hv Hk) as [new Hnew].
  cbv zeta in Hnew. fold w' in Hnew. destruct Hnew as [Ht [Hlen [Hall _]]].
  destruct (get_user_tickets_numbers (VInt user_id) w') as [ns [Hs [Hsorted Hperm]]].
  exists (map ticket_number new), ns. rewrite length_map.
  repeat split; try assumption.
  rewrite (owned_numbers_app (VInt user_id) w w' new Ht) in Hperm; [exact Hperm|].
  revert Hall. apply Forall_impl. tauto.
Qed.

Lemma confirm_payment_then_get_user_tickets_witness :
  exists numbers ns,
    Z.of_nat (List.length numbers) = 2
    /\ shown_numbers (get_user_tickets (VInt 111) world_bought) = map VInt ns
    /\ StronglySorted Z.le ns
    /\ Permutation ns (owned_numbers (VInt 111) world_registered_R1 ++ numbers).
Proof.
  apply (confirm_payment_then_get_user_tickets env_paid bot_default (query_of 111) 111
           payment_R1 world_registered_R1).
  - unfold unique_references. vm_compute. repeat constructor. intros [].
  - vm_compute. left. reflexivity.
  - vm_compute. reflexivity.
  - vm_compute. split; discriminate.
Defined.

(** X12.  [show_my_tickets] answers a user without tickets with the notice that
    none were purchased.  For a user with a ticket it raises [KeyError]
    before anything is sent: the rows of [get_user_tickets] are dicts, and
    [ticket[2]] looks up a key they do not have. *)
Theorem show_my_tickets_raises_for_owners (self : RaffleBot) (query : CallbackQuery)
    (user_id : Z) (w : World) :
  show_my_tickets self query user_id w
  = match owned_numbers (VInt user_id) w with
    | [] => Ok (EditMenu query TextNoTickets (Some back_keyboard))
    | _ :: _ => Err KeyError
    end.
Proof. apply show_my_tickets_shape. Qed.

(** X13.  The figures of [get_stats].  With a ticket price that reads as an
    integer (1000 when [TICKET_PRICE] is not set): the tickets sold, the
    number of different owners, which is at most the number of tickets,
    the revenue as tickets times price, and the pending payments.  With a
    [TICKET_PRICE] that does not read as an integer every figure is 0,
    whatever the stores hold. *)
Theorem get_stats_figures (environ : string -> option string) (w : World) :
  let stats := get_stats environ w in
  match getenv_int environ "TICKET_PRICE" 1000 with
  | Ok ticket_price =>
      total_tickets stats = get_total_tickets_sold w
      /\ total_revenue stats = get_total_tickets_sold w * ticket_price
      /\ stats_pending_payments stats = Z.of_nat (List.length (pending_payments (db w)))
      /\ total_users stats <= total_tickets stats
      /\ exists owners,
           total_users stats = Z.of_nat (List.length owners) /\ NoDup owners
           /\ forall v, In v owners <-> exists t, In t (tickets (db w)) /\ t_user_id t = v
  | Err _ =>
      stats = {| total_tickets := 0; total_users := 0; total_revenue := 0;
                 stats_pending_payments := 0 |}
  end.
Proof.
  cbv zeta. unfold get_stats, get_total_tickets_sold.
  destruct (getenv_int environ "TICKET_PRICE" 1000) as [price|e]; [|reflexivity].
  cbn [total_tickets total_users total_revenue stats_pending_payments].
  repeat split.
  - pose proof (distinct_length (map t_user_id (tickets (db w)))) as H.
    rewrite length_map in H. lia.
  - exists (distinct (map t_user_id (tickets (db w)))).
    split; [reflexivity|]. split; [apply distinct_NoDup|].
    intros v. rewrite distinct_In, in_map_iff. split; intros [t Ht]; exists t; tauto.
Qed.

(** X14.  A confirmation that the gateway accepts and the supply can serve shows
    in the statistics: the tickets sold grow by the count paid for, the
    revenue by that count times the price, and one pending payment less is
    reported. *)
Theorem confirm_payment_then_get_stats (E : Env) (environ : string -> option string)
    (self : RaffleBot) (query : CallbackQuery) (user_id : Z) (p : PendingPayment)
    (ticket_price : Z) (w : World) :
  unique_references w -> In p (pending_payments (db w)) ->
  snd (verify_payment E (VStr (p_reference p)) w) = Ok true ->
  1 <= p_ticket_count p <= Z.of_nat (List.length (available_numbers w)) ->
  getenv_int environ "TICKET_PRICE" 1000 = Ok ticket_price ->
  let w' := fst (run E (confirm_payment E self query user_id (p_reference p)) w) in
  let before := get_stats environ w in
  let after := get_stats environ w' in
  total_tickets after = total_tickets before + p_ticket_count p
  /\ total_revenue after = total_revenue before + p_ticket_count p * ticket_price
  /\ stats_pending_payments after = stats_pending_payments before - 1.
Proof.
  intros Hu Hin Hv Hk Hprice w'.
  destruct (confirm_payment_tickets E self query user_id p w Hu Hin Hv Hk) as [new Hnew].
  cbv zeta in Hnew. fold w' in Hnew. destruct Hnew as [Ht [Hlen [_ Hp]]].
  cbv zeta. unfold get_stats. rewrite Hprice.
  cbn [total_tickets total_users total_revenue stats_pending_payments].
  rewrite Ht, Hp, length_app.
  assert (Hr : In (p_reference p) (map p_reference (pending_payments (db w))))
    by now apply in_map.
  pose proof (delete_one_length _ _ Hr) as Hd.
  repeat split; lia.
Qed.

Lemma confirm_payment_then_get_stats_witness :
  let before := get_stats environ_unset world_registered_R1 in
  let after := get_stats environ_unset world_bought in
  total_tickets after = total_tickets before + 2
  /\ total_revenue after = total_revenue before + 2 * 1000
  /\ stats_pending_payments after = stats_pending_payments before - 1.
Proof.
  apply (confirm_payment_then_get_stats env_paid environ_unset bot_default (query_of 111) 111
           payment_R1 1000 world_registered_R1).
  - unfold unique_references. vm_compute. repeat constructor. intros [].
  - vm_compute. left. reflexivity.
  - vm_compute. reflexivity.
  - vm_compute. split; discriminate.
  - reflexivity.
Defined.

(** X15.  In every state the system can reach, [get_all_tickets] returns one row
    for each ticket whose owner has a user record and none for the other
    tickets, in ascending order of the ticket numbers, and each row
    carries the names of a stored user with the row's user id. *)
Theorem get_all_tickets_rows (self : RaffleBot) (w : World) :
  reachable self w ->
  exists ns,
    shown_numbers (get_all_tickets w) = map VInt ns
    /\ StronglySorted Z.le ns
    /\ Permutation ns (map ticket_number (filter (registered_owner w) (tickets (db w))))
    /\ Forall (fun row =>
                 exists u, In u (users (db w))
                           /\ doc_get "user_id" row = VInt (u_user_id u)
                           /\ doc_get "username" row = optional_text (username u)
                           /\ doc_get "first_name" row = VStr (first_name u))
         (get_all_tickets w).
Proof.
  intros Hr. apply reachable_users_NoDup in Hr. unfold get_all_tickets.
  set (unwound := flat_map (fun t => map (pair t) (user_info t w)) (tickets (db w))).
  exists (map (fun j => ticket_number (fst j))
            (sort_by (fun j => ticket_number (fst j)) unwound)).
  split; [apply shown_all_tickets|].
  destruct (sort_by_keys (fun j : Ticket * User => ticket_number (fst j)) unwound)
    as [Hsorted Hperm].
  split; [exact Hsorted|]. split.
  - etransitivity; [exact Hperm|]. rewrite <- (unwound_tickets w Hr).
    fold unwound. now rewrite map_map.
  - apply Forall_forall. intros row Hrow.
    apply in_map_iff in Hrow. destruct Hrow as [[t u] [<- Hj]].
    apply (Permutation_in _ (sort_by_perm _ _)) in Hj.
    apply in_flat_map in Hj. destruct Hj as [t' [_ Hj]].
    apply in_map_iff in Hj. destruct Hj as [u' [Heq Hu]]. inversion Heq; subst t' u'.
    apply filter_In in Hu. destruct Hu as [Hin Hmatch]. apply value_eqb_eq in Hmatch.
    exists u. repeat split; assumption.
Qed.

(** The buyer sent [/start] before buying: both tickets take part. *)
Lemma get_all_tickets_rows_witness :
  exists ns,
    shown_numbers (get_all_tickets world_bought) = map VInt ns
    /\ StronglySorted Z.le ns
    /\ Permutation ns
         (map ticket_number
            (filter (registered_owner world_bought) (tickets (db world_bought))))
    /\ Forall (fun row =>
                 exists u, In u (users (db world_bought))
                           /\ doc_get "user_id" row = VInt (u_user_id u)
                           /\ doc_get "username" row = optional_text (username u)
                           /\ doc_get "first_name" row = VStr (first_name u))
         (get_all_tickets world_bought).
Proof.
  apply (get_all_tickets_rows bot_default world_bought).
  apply (reachable_step bot_default world_registered_R1); [|apply step_confirm_payment].
  apply (reachable_step bot_default world_registered); [|apply step_add_pending_payment].
  apply (reachable_step bot_default world_start); [|apply step_add_user].
  apply reachable_start. reflexivity.
Defined.

(** X16.  What [conduct_draw] announces.  Without a row of [get_all_tickets] it
    reports that no tickets were sold.  Otherwise the winner it announces
    is made of the names of the row's fields, taken by the tuple
    assignment from the dict drawn: the announcement shows neither a
    ticket number nor a user, and it is the same whatever the generator
    draws. *)
Theorem conduct_draw_announces_field_names (E : Env) (environ : string -> option string)
    (w : World) :
  snd (conduct_draw E environ w)
  = match get_all_tickets w with
    | [] => Ok NoTicketsSold
    | _ :: _ =>
        Ok (WinnerSelected (List.length (get_all_tickets w))
              (VStr "user_id") (VStr "first_name") (VStr "username") (VStr "ticket_number")
              (total_revenue (get_stats environ w)) (total_users (get_stats environ w)))
    end.
Proof.
  unfold conduct_draw. pose proof (get_all_tickets_keys w) as Hkeys.
  destruct (get_all_tickets w) as [|row rows] eqn:Hrows; [reflexivity|].
  set (j := (rand E (cursor w) mod List.length (row :: rows))%nat).
  assert (Hin : In (nth j (row :: rows) []) (row :: rows)).
  { apply nth_In. apply Nat.mod_upper_bound. discriminate. }
  rewrite Forall_forall in Hkeys. rewrite (Hkeys _ Hin). reflexivity.
Qed.

(** X17.  For a reference that passes the guard of [verify_payment], the two
    readings of a transaction agree: [verify_payment] returns [True]
    exactly when [get_transaction] returns a transaction whose status is
    ["success"]. *)
Theorem verify_payment_iff_get_transaction (E : Env) (reference : value) (w w' : World) :
  py_not reference || is_placeholder (lower (strip (py_str reference))) = false ->
  snd (verify_payment E reference w) = Ok true
  <-> exists data,
        snd (get_transaction E reference w') = Ok data
        /\ json_get data "status" JNull = Ok (JStr "success").
Proof.
  intros Hguard. split.
  - intros Hv. apply reports_success_transaction. now apply (verify_payment_true E reference w).
  - intros [data [Hdata Hs]]. apply reports_success_verify; [exact Hguard|].
    now apply (get_transaction_success E reference w' data).
Qed.

Lemma verify_payment_iff_get_transaction_witness :
  snd (verify_payment env_paid (VStr "R1") world_R1) = Ok true
  <-> exists data,
        snd (get_transaction env_paid (VStr "R1") world_R1) = Ok data
        /\ json_get data "status" JNull = Ok (JStr "success").
Proof.
  apply (verify_payment_iff_get_transaction env_paid (VStr "R1") world_R1 world_R1).
  vm_compute. reflexivity.
Defined.

(** X18.  [_validate_and_test_connection] accepts exactly when the secret key
    starts with [sk_] and the test request to [/bank] is answered with
    status 200; a key that is missing, empty or of another form is refused
    before any request is made. *)
Theorem validate_and_test_connection_accepts_iff (E : Env)
    (environ : string -> option string) (w : World) :
  (snd (_validate_and_test_connection E environ w) = Validated
   <-> exists secret_key body,
         environ "PAYSTACK_SECRET_KEY" = Some secret_key
         /\ startswith secret_key "sk_" = true
         /\ session_get E (String.append base_url "/bank") = Response 200 body)
  /\ (snd (_validate_and_test_connection E environ w) = RaisesValueErrorForKey ->
      fst (_validate_and_test_connection E environ w) = w).
Proof.
  unfold _validate_and_test_connection, _test_connection.
  destruct (environ "PAYSTACK_SECRET_KEY") as [key|].
  2:{ split; [split; [discriminate|]|reflexivity]. intros [k [b [H _]]]. discriminate H. }
  destruct (String.eqb_spec key EmptyString) as [->|Hne].
  { split; [split; [discriminate|]|reflexivity].
    intros [k [b [H [Hs _]]]]. inversion H; subst k. discriminate Hs. }
  destruct (startswith key "sk_") eqn:Hsk; cbn [negb].
  2:{ split; [split; [discriminate|]|reflexivity].
      intros [k [b [H [Hs _]]]]. inversion H; subst k. congruence. }
  destruct (session_get E (String.append base_url "/bank")) as [code body|e].
  - destruct (Z.eqb_spec code 200) as [->|Hcode]; cbn [fst snd].
    + split; [split; [|reflexivity]|discriminate]. intros _. now exists key, body.
    + split; [split; [discriminate|]|discriminate].
      intros [k [b [_ [_ H]]]]. inversion H. contradiction.
  - destruct (is_RequestException e); cbn [fst snd];
      (split; [split; [discriminate|]|discriminate]);
      intros [k [b [_ [_ H]]]]; discriminate H.
Qed.


(** X20.  The callback data of a count button, [buy_] followed by the count in
    decimal, is taken by [button_handler] to [initiate_payment] with that
    count, whatever the count. *)
Theorem button_handler_reads_buy_count (self : RaffleBot) (query : CallbackQuery) (n : Z) :
  button_handler self query (String.append "buy_" (py_str (VInt n)))
  = Calls (InitiatePayment (from_user_id query) n).
Proof. apply button_handler_buy. Qed.

(** X21.  The callback data of the confirm button, [confirm_payment_] followed
    by the reference, is taken by [button_handler] to [confirm_payment];
    the reference passed on is the one behind the prefix exactly when
    [confirm_payment_] does not occur in it, since [replace] removes every
    occurrence. *)
Theorem button_handler_confirm_reference (self : RaffleBot) (query : CallbackQuery)
    (reference : string) :
  button_handler self query (String.append "confirm_payment_" reference)
  = Calls (ConfirmPayment (from_user_id query)
             (py_replace "confirm_payment_" EmptyString reference))
  /\ (py_replace "confirm_payment_" EmptyString reference = reference
      <-> occurs "confirm_payment_" reference = false).
Proof.
  split.
  - unfold button_handler.
    change (String.eqb (String.append "confirm_payment_" reference) "buy_tickets") with false.
    change (String.eqb (String.append "confirm_payment_" reference) "my_tickets") with false.
    change (String.eqb (String.append "confirm_payment_" reference) "raffle_info") with false.
    change (startswith (String.append "confirm_payment_" reference) "buy_") with false.
    unfold startswith. rewrite prefix_append. cbv iota.
    rewrite replace_prefix by discriminate. reflexivity.
  - split.
    + intros Heq. destruct (occurs "confirm_payment_" reference) eqn:Hocc; [|reflexivity].
      pose proof (replace_shrinks "confirm_payment_" reference) as Hlt.
      unfold py_replace in Heq. rewrite Heq in Hlt.
      specialize (Hlt ltac:(discriminate) Hocc). lia.
    + apply replace_absent.
Qed.

(** X22.  Every button that [start], [show_buy_tickets] and [show_my_tickets]
    put under a message has a branch in [button_handler]: a press is
    neither ignored nor does it end in an exception of the routing. *)
Theorem menu_buttons_have_handlers (E : Env) (self : RaffleBot) (query : CallbackQuery)
    (user : TelegramUser) (user_id : Z) (w : World) :
  let routed := fun b => exists h, button_handler self query (callback_data b) = Calls h in
  Forall routed (buttons_of (snd (start E self user w)))
  /\ Forall routed (buttons_of (show_buy_tickets self query w))
  /\ forall c, show_my_tickets self query user_id w = Ok c -> Forall routed (buttons_of c).
Proof.
  cbv zeta. split; [|split].
  - cbn [start snd buttons_of main_keyboard List.concat app].
    repeat constructor; eexists; reflexivity.
  - unfold show_buy_tickets. destruct (_ <=? 0); [constructor|].
    cbn [buttons_of]. rewrite concat_app, concat_singletons.
    apply Forall_app. split.
    + apply Forall_forall. intros b Hb. apply in_map_iff in Hb.
      destruct Hb as [count [<- _]]. cbn [callback_data].
      eexists. apply button_handler_buy.
    + cbn [back_keyboard List.concat app]. repeat constructor. eexists. reflexivity.
  - intros c Hc. rewrite show_my_tickets_shape in Hc.
    destruct (owned_numbers (VInt user_id) w); [|discriminate Hc].
    inversion Hc; subst c. cbn [buttons_of back_keyboard List.concat app].
    repeat constructor. eexists. reflexivity.
Qed.

(** X23.  [show_buy_tickets] offers exactly those of the counts 1, 2, 5 and 10
    that do not exceed [MAX_TICKETS] less the tickets sold. *)
Theorem show_buy_tickets_offers (self : RaffleBot) (query : CallbackQuery) (w : World)
    (count : Z) :
  (exists b, In b (buttons_of (show_buy_tickets self query w))
             /\ offered_count b = Some count)
  <-> In count [1; 2; 5; 10] /\ count <= MAX_TICKETS self - get_total_tickets_sold w.
Proof. apply offered_counts. Qed.

(** X24.  With [MAX_TICKETS] at most 1000, every count that [show_buy_tickets]
    offers in a state the system can reach is one that [assign_tickets]
    can serve in that state. *)
Theorem offered_counts_can_be_allocated (E : Env) (self : RaffleBot) (query : CallbackQuery)
    (u r : value) (w : World) :
  reachable self w -> MAX_TICKETS self <= 1000 ->
  Forall (fun b => forall count, offered_count b = Some count ->
                   exists numbers, snd (assign_tickets E u (VInt count) r w) = Some numbers)
    (buttons_of (show_buy_tickets self query w)).
Proof.
  intros Hr Hmax. apply Forall_forall. intros b Hb count Hcount.
  destruct (proj1 (offered_counts self query w count)) as [Hin Hle]; [now exists b|].
  apply reachable_store_invariant in Hr. pose proof (available_numbers_exact w Hr) as Hfree.
  assert (Hpos : 1 <= count) by (cbn in Hin; lia).
  destruct (assign_tickets_enough E u r count w) as [numbers [w' [Heq _]]]; [lia|].
  exists numbers. now rewrite Heq.
Qed.

Lemma offered_counts_can_be_allocated_witness :
  Forall (fun b => forall count, offered_count b = Some count ->
                   exists numbers,
                     snd (assign_tickets env_paid (VInt 111) (VInt count) (VStr "R1")
                            world_registered_R1) = Some numbers)
    (buttons_of (show_buy_tickets bot_of_three (query_of 111) world_registered_R1)).
Proof.
  apply (offered_counts_can_be_allocated env_paid bot_of_three (query_of 111) (VInt 111)
           (VStr "R1") world_registered_R1).
  - apply (reachable_step bot_of_three world_registered); [|apply step_add_pending_payment].
    apply (reachable_step bot_of_three world_start); [|apply step_add_user].
    apply reachable_start. reflexivity.
  - vm_compute. discriminate.
Defined.


(** X26.  A list of ids that are not negative, written in decimal with a comma
    and a blank between them, is read back by [admin_stats] as
    [ADMIN_IDS]. *)
Theorem ADMIN_IDS_round_trip (environ : string -> option string) (ids : list Z) :
  Forall (fun n => 0 <= n) ids ->
  environ "ADMIN_IDS" = Some (join ", " (map (fun n => py_str (VInt n)) ids)) ->
  ADMIN_IDS environ = Ok ids.
Proof.
  intros Hpos Henv. unfold ADMIN_IDS. rewrite Henv.
  destruct ids as [|n ids]; [reflexivity|].
  rewrite split_joined_ids. inversion Hpos as [|? ? Hn Hrest]; subst.
  cbn [filter]. destruct (strip_space_digits _ (py_str_nonneg n Hn)) as [_ Hstrip].
  rewrite Hstrip, (py_str_nonneg n Hn). cbn [comprehension].
  now rewrite Hstrip, py_int_py_str, (comprehension_padded_ids ids Hrest).
Qed.

Lemma ADMIN_IDS_round_trip_witness :
  ADMIN_IDS (environ_of [("ADMIN_IDS", "111, 222")]) = Ok [111; 222].
Proof.
  apply (ADMIN_IDS_round_trip (environ_of [("ADMIN_IDS", "111, 222")]) [111; 222]).
  - repeat constructor; discriminate.
  - vm_compute. reflexivity.
Defined.

(** X27.  The two senders of ticket images never raise and never stop early: one
    photo is handed to the transport for each number whose image can be
    built, in the order of the numbers, whether the earlier ones were
    delivered or not, and the stores are untouched. *)
Theorem send_ticket_images_goes_on (E : Env) (chat_id : value) (query : CallbackQuery)
    (numbers : list Z) (w : World) :
  (exists w',
     run E (_send_ticket_images E chat_id numbers) w = (w', Ok tt)
     /\ db w' = db w
     /\ chat w' = chat w ++ map (SendPhoto chat_id) (filter (renders E) numbers))
  /\ (exists w',
        run E (_send_ticket_images_from_query E query numbers) w = (w', Ok tt)
        /\ db w' = db w
        /\ chat w' = chat w ++ map (ReplyPhoto query) (filter (renders E) numbers)).
Proof.
  split; [apply run_send_ticket_images|apply run_send_ticket_images_from_query].
Qed.

(** X28.  When the message with the numbers cannot be delivered,
    [confirm_payment] answers that the confirmation failed although it has
    gone through: the tickets are written for the caller, the pending
    payment is removed, and the two calls handed to the transport are the
    message with the numbers and the error text. *)
Theorem confirm_payment_undelivered_summary (E : Env) (self : RaffleBot)
    (query : CallbackQuery) (user_id : Z) (p : PendingPayment) (w : World) :
  unique_references w -> In p (pending_payments (db w)) ->
  snd (verify_payment E (VStr (p_reference p)) w) = Ok true ->
  1 <= p_ticket_count p <= Z.of_nat (List.length (available_numbers w)) ->
  (forall numbers,
     delivers E (EditMessageText query (MsgPaymentConfirmed numbers (p_amount p))) = false) ->
  let w' := fst (run E (confirm_payment E self query user_id (p_reference p)) w) in
  exists numbers,
    Z.of_nat (List.length numbers) = p_ticket_count p
    /\ tickets (db w')
       = tickets (db w)
         ++ map (ticket_document E (VInt user_id) (VStr (p_reference p))) numbers
    /\ pending_payments (db w') = delete_one (VStr (p_reference p)) (pending_payments (db w))
    /\ chat w'
       = chat w ++ [EditMessageText query (MsgPaymentConfirmed numbers (p_amount p));
                    EditMessageText query MsgErrorConfirming].
Proof.
  intros Hu Hin Hv Hk Hfail w'.
  destruct (confirm_payment_resolves E self query user_id p w Hu Hin Hv Hk)
    as [numbers [w1 [Hres Hrun]]].
  cbv zeta in Hrun. fold w' in Hrun. destruct Hrun as [Hdb Hchat].
  rewrite (Hfail numbers) in Hchat.
  destruct Hres as [Hlen [_ [_ [Ht [Hp _]]]]].
  exists numbers. rewrite Hdb. repeat split; assumption.
Qed.

Lemma confirm_payment_undelivered_summary_witness :
  exists numbers,
    Z.of_nat (List.length numbers) = 2
    /\ tickets (db (fst (run env_paid_undelivered
                          (confirm_payment env_paid_undelivered bot_default (query_of 111)
                             111 "R1") world_R1)))
       = tickets (db world_R1)
         ++ map (ticket_document env_paid_undelivered (VInt 111) (VStr "R1")) numbers
    /\ pending_payments
         (db (fst (run env_paid_undelivered
                     (confirm_payment env_paid_undelivered bot_default (query_of 111)
                        111 "R1") world_R1)))
       = delete_one (VStr "R1") (pending_payments (db world_R1))
    /\ chat (fst (run env_paid_undelivered
                    (confirm_payment env_paid_undelivered bot_default (query_of 111)
                       111 "R1") world_R1))
       = chat world_R1
         ++ [EditMessageText (query_of 111) (MsgPaymentConfirmed numbers 2000);
             EditMessageText (query_of 111) MsgErrorConfirming].
Proof.
  apply (confirm_payment_undelivered_summary env_paid_undelivered bot_default (query_of 111)
           111 payment_R1 world_R1).
  - unfold unique_references. vm_compute. repeat constructor. intros [].
  - vm_compute. left. reflexivity.
  - vm_compute. reflexivity.
  - vm_compute. split; discriminate.
  - intros numbers. reflexivity.
Defined.

(** X29.  [verify_payment] fails closed on an answer that is no answer: when the
    gateway replies with a status other than 200 or with a body that is
    not JSON, or when the request ends in an exception of [requests], the
    result is [False], nothing is raised and the stores are untouched. *)
Theorem verify_payment_fails_closed (E : Env) (reference : value) (w : World) :
  (exists code body, session_get E (verify_url reference) = Response code body
                     /\ (code <> 200 \/ body = None))
  \/ (exists e, session_get E (verify_url reference) = Raises e
                /\ is_RequestException e = true) ->
  snd (verify_payment E reference w) = Ok false
  /\ db (fst (verify_payment E reference w)) = db w.
Proof.
  intros H. split; [now apply verify_payment_conservative|].
  apply (verify_payment_frame E reference w).
Qed.

Lemma verify_payment_fails_closed_witness :
  snd (verify_payment env_down (VStr "R1") world_R1) = Ok false
  /\ db (fst (verify_payment env_down (VStr "R1") world_R1)) = db world_R1.
Proof.
  apply (verify_payment_fails_closed env_down (VStr "R1") world_R1).
  right. exists Timeout. split; reflexivity.
Defined.

(** X30.  [confirm_payment] writes tickets only for a paid reference: if the
    tickets after it differ from the tickets before, the gateway has
    answered the request for this reference with status 200, a truthy
    [status] and the transaction status ["success"]. *)
Theorem confirm_payment_writes_only_when_paid (E : Env) (self : RaffleBot)
    (query : CallbackQuery) (user_id : Z) (reference : string) (w : World) :
  tickets (db (fst (run E (confirm_payment E self query user_id reference) w)))
  <> tickets (db w) ->
  reports_success (session_get E (verify_url (VStr reference))).
Proof.
  intros Hdiff.
  destruct (snd (verify_payment E (VStr reference) w)) as [[|]|e] eqn:Hv.
  - now apply (verify_payment_true E (VStr reference) w).
  - elim Hdiff.
    assert (Hq : quiet_from reference w (confirm_payment E self query user_id reference w)).
    { apply confirm_payment_unverified. rewrite Hv. discriminate. }
    apply (run_res_quiet E) in Hq. apply obs_db in Hq. unfold run. now rewrite Hq.
  - elim Hdiff.
    assert (Hq : quiet_from reference w (confirm_payment E self query user_id reference w)).
    { apply confirm_payment_unverified. rewrite Hv. discriminate. }
    apply (run_res_quiet E) in Hq. apply obs_db in Hq. unfold run. now rewrite Hq.
Qed.

Lemma confirm_payment_writes_only_when_paid_witness :
  reports_success (session_get env_paid (verify_url (VStr "R1"))).
Proof.
  apply (confirm_payment_writes_only_when_paid env_paid bot_default (query_of 111) 111 "R1"
           world_R1).
  vm_compute. discriminate.
Defined.
